(** * Cubey: a shallow embedding of [src/Cubey.cpp]

    The program opens a window, draws a rotating cube and overlays a line
    of status text.  Everything it does is a sequence of calls into GLFW,
    OpenGL, stb_truetype, glm and the C/C++ runtime, with a little
    single-precision arithmetic in between.  The embedding keeps that shape:

    - [float] is IEEE-754 binary32, computed with the bit-exact operations
      of [SpecFloat] (precision 24, maximal exponent 128);
    - the calls the program issues are recorded, in order, in a log kept in
      the [World]; the answers the platform gives (key state, framebuffer
      size, close requests, compile results, files) are read from the
      [World] or from the [Env] of collaborators;
    - functions of the program are functions in the state monad [M]. *)

From Stdlib Require Import ZArith Bool List String Ascii Lia.
From Stdlib Require Import Strings.Byte DecimalString.
From Stdlib Require Import Floats.SpecFloat.
Import ListNotations.
Local Open Scope Z_scope.

(** ** Single-precision floats *)

Definition float : Type := spec_float.

Module F32.

Definition prec : Z := 24.
Definition emax : Z := 128.

Definition add : float -> float -> float := SFadd prec emax.
Definition sub : float -> float -> float := SFsub prec emax.
Definition mul : float -> float -> float := SFmul prec emax.
Definition div : float -> float -> float := SFdiv prec emax.
Definition sqrt : float -> float := SFsqrt prec emax.
Definition opp : float -> float := SFopp.

(** C++ [a < b], [a > b], [a <= b]: false as soon as a NaN is involved. *)
Definition ltb (a b : float) : bool := SFltb a b.
Definition gtb (a b : float) : bool := SFltb b a.
Definition leb (a b : float) : bool := SFleb a b.

(** Conversion of an integer, as in [static_cast<float>(n)] or a literal
    such as [360.0f]. *)
Definition of_Z (n : Z) : float := binary_normalize prec emax n 0 false.

(** A literal [n / 2^k], exactly representable for the values used. *)
Definition of_dyadic (n : Z) (k : Z) : float :=
  binary_normalize prec emax n (- k) false.

Definition is_nan (x : float) : bool :=
  match x with S754_nan => true | _ => false end.

Definition is_finite (x : float) : bool :=
  match x with S754_zero _ | S754_finite _ _ _ => true | _ => false end.

Definition zero : float := S754_zero false.

End F32.

Declare Scope f32_scope.
Delimit Scope f32_scope with f32.
Infix "+" := F32.add : f32_scope.
Infix "-" := F32.sub : f32_scope.
Infix "*" := F32.mul : f32_scope.
Infix "/" := F32.div : f32_scope.
Infix "<?" := F32.ltb : f32_scope.
Infix ">?" := F32.gtb : f32_scope.
Infix "<=?" := F32.leb : f32_scope.

(** The literals of the program. *)
Definition f0_0 : float := F32.zero.
Definition f0_5 : float := Eval vm_compute in F32.of_dyadic 1 1.
Definition f1_0 : float := Eval vm_compute in F32.of_Z 1.
Definition f1_5 : float := Eval vm_compute in F32.of_dyadic 3 1.
Definition f2_0 : float := Eval vm_compute in F32.of_Z 2.
Definition f360 : float := Eval vm_compute in F32.of_Z 360.
Definition fm360 : float := Eval vm_compute in F32.opp (F32.of_Z 360).
Definition fm0_5 : float := Eval vm_compute in F32.opp (F32.of_dyadic 1 1).
Definition fm3_0 : float := Eval vm_compute in F32.opp (F32.of_Z 3).
(** [0.1f]: the float nearest to one tenth, which is what the correctly
    rounded quotient of 1 by 10 is. *)
Definition f0_1 : float :=
  Eval vm_compute in F32.div (F32.of_Z 1) (F32.of_Z 10).
Definition f25_0 : float := Eval vm_compute in F32.of_Z 25.
Definition f45_0 : float := Eval vm_compute in F32.of_Z 45.
Definition f48_0 : float := Eval vm_compute in F32.of_Z 48.
Definition f50_0 : float := Eval vm_compute in F32.of_Z 50.
Definition f100_0 : float := Eval vm_compute in F32.of_Z 100.
(** [800.0f / 600.0f], folded by the compiler with the same rounding. *)
Definition f800_over_600 : float :=
  Eval vm_compute in F32.div (F32.of_Z 800) (F32.of_Z 600).

(** ** The platform and the call log *)

Definition GLuint : Type := Z.

Inductive Key : Type :=
| GLFW_KEY_ESCAPE | GLFW_KEY_UP | GLFW_KEY_DOWN | GLFW_KEY_LEFT | GLFW_KEY_RIGHT.

Inductive GLenum : Type :=
| GL_DEPTH_TEST | GL_BLEND | GL_SRC_ALPHA | GL_ONE_MINUS_SRC_ALPHA
| GL_ARRAY_BUFFER | GL_ELEMENT_ARRAY_BUFFER | GL_STATIC_DRAW | GL_DYNAMIC_DRAW
| GL_FLOAT | GL_UNSIGNED_INT | GL_UNSIGNED_BYTE | GL_TRIANGLES
| GL_VERTEX_SHADER | GL_FRAGMENT_SHADER | GL_COMPILE_STATUS | GL_LINK_STATUS
| GL_TEXTURE_2D | GL_TEXTURE0 | GL_RED | GL_TEXTURE_MIN_FILTER
| GL_TEXTURE_MAG_FILTER | GL_LINEAR | GL_COLOR_BUFFER_BIT | GL_DEPTH_BUFFER_BIT.

Inductive GLFWhint : Type :=
| GLFW_CONTEXT_VERSION_MAJOR | GLFW_CONTEXT_VERSION_MINOR | GLFW_OPENGL_PROFILE.

(** [glm::vec4] and [glm::mat4]: four columns of four floats. *)
Definition vec3 : Type := (float * float * float)%type.
Definition vec4 : Type := (float * float * float * float)%type.
Definition mat4 : Type := (vec4 * vec4 * vec4 * vec4)%type.

(** What a buffer or texture upload carries. *)
Inductive Data : Type :=
| NoData
| Floats (l : list float)
| UInts (l : list Z)
| Bytes (l : list byte).

(** The calls the program makes, with their arguments.  Out-parameters and
    return values are not part of the record: the platform's answer to a
    call is a function of the world and of the calls made before it. *)
Module Ev.
Inductive Call : Type :=
(* GLFW and GLAD *)
| glfwInit
| glfwWindowHint (hint : GLFWhint) (value : Z)
| glfwCreateWindow (width height : Z) (title : string)
| glfwTerminate
| glfwMakeContextCurrent
| glfwSetFramebufferSizeCallback
| gladLoadGLLoader
| glfwGetKey (key : Key)
| glfwSetWindowShouldClose (value : bool)
| glfwWindowShouldClose
| glfwGetFramebufferSize
| glfwSwapBuffers
| glfwPollEvents
| glfwDestroyWindow
(* OpenGL state *)
| glViewport (x y width height : Z)
| glEnable (cap : GLenum)
| glDisable (cap : GLenum)
| glBlendFunc (sfactor dfactor : GLenum)
| glClearColor (r g b a : float)
| glClear (mask : list GLenum)
(* OpenGL objects *)
| glGenVertexArrays (n : Z)
| glGenBuffers (n : Z)
| glGenTextures (n : Z)
| glBindVertexArray (array : GLuint)
| glBindBuffer (target : GLenum) (buffer : GLuint)
| glBindTexture (target : GLenum) (texture : GLuint)
| glActiveTexture (unit : GLenum)
| glBufferData (target : GLenum) (size : Z) (data : Data) (usage : GLenum)
| glBufferSubData (target : GLenum) (offset size : Z) (data : Data)
| glVertexAttribPointer (index size : Z) (type : GLenum) (normalized : bool)
    (stride pointer : Z)
| glEnableVertexAttribArray (index : Z)
| glTexImage2D (target : GLenum) (level : Z) (internalformat : GLenum)
    (width height border : Z) (format type : GLenum) (pixels : Data)
| glTexParameteri (target pname param : GLenum)
| glDeleteVertexArrays (n : Z) (array : GLuint)
| glDeleteBuffers (n : Z) (buffer : GLuint)
(* shaders and programs *)
| glCreateShader (type : GLenum)
| glShaderSource (shader : GLuint) (count : Z) (source : string)
| glCompileShader (shader : GLuint)
| glGetShaderiv (shader : GLuint) (pname : GLenum)
| glGetShaderInfoLog (shader : GLuint) (maxLength : Z)
| glCreateProgram
| glAttachShader (program shader : GLuint)
| glLinkProgram (program : GLuint)
| glGetProgramiv (program : GLuint) (pname : GLenum)
| glGetProgramInfoLog (program : GLuint) (maxLength : Z)
| glDeleteShader (shader : GLuint)
| glDeleteProgram (program : GLuint)
| glUseProgram (program : GLuint)
| glGetUniformLocation (program : GLuint) (name : string)
| glUniform3f (location : Z) (v0 v1 v2 : float)
| glUniformMatrix4fv (location count : Z) (transpose : bool) (value : mat4)
(* drawing *)
| glDrawElements (mode : GLenum) (count : Z) (type : GLenum) (indices : Z)
| glDrawArrays (mode : GLenum) (first count : Z)
(* the C and C++ runtime *)
| cerr (text : string)
| fopen (path mode : string)
| fseek_end
| ftell
| fseek_set
| fread (size count : Z)
| fclose
| stbtt_BakeFontBitmap (pixel_height : float) (pw ph first_char num_chars : Z).
End Ev.

(** What one [glfwPollEvents] delivers: the key state and framebuffer size
    from then on, and whether the user asked to close the window. *)
Record Events : Type := {
  ev_keys : Key -> bool;
  ev_framebuffer : Z * Z;
  ev_close : bool
}.

(** Glyph metrics as stb_truetype bakes them and the quad it lays out. *)
Record stbtt_bakedchar : Type := {
  bc_x0 : Z; bc_y0 : Z; bc_x1 : Z; bc_y1 : Z;
  bc_xoff : float; bc_yoff : float; bc_xadvance : float
}.

(** Cubey.cpp:21-24, the global variables for font rendering. *)
Record Globals : Type := {
  textVAO : GLuint;
  textVBO : GLuint;
  textShaderProgram : GLuint;
  charData : list stbtt_bakedchar;
  fontTexture : GLuint
}.

(** The window as GLFW holds it, the events still to come, the program's
    globals, and the calls made so far (oldest first). *)
Record World : Type := {
  w_keys : Key -> bool;
  w_framebuffer : Z * Z;
  w_should_close : bool;
  w_pending : list Events;
  w_globals : Globals;
  w_log : list Ev.Call
}.

Record stbtt_aligned_quad : Type := {
  x0 : float; y0 : float; s0 : float; t0 : float;
  x1 : float; y1 : float; s1 : float; t1 : float
}.

(** An open stream as the C runtime sees it: what [ftell] returns at the
    end of the stream (the size of a regular file; -1 for a stream that has
    no position, such as a pipe; LONG_MAX for a directory) and the bytes
    [fread] delivers (fewer than asked for when reading fails part-way). *)
Record File : Type := {
  file_size : Z;
  file_read : list byte
}.

(** The collaborators the program calls and does not define: glm,
    stb_truetype, [std::format], the random engine, the GL driver, the
    window system and the file system. *)
Record Env : Type := {
  (* glm *)
  glm_mul : mat4 -> mat4 -> mat4;
  glm_radians : float -> float;
  glm_rotate : mat4 -> float -> vec3 -> mat4;
  glm_translate : mat4 -> vec3 -> mat4;
  glm_perspective : float -> float -> float -> float -> mat4;
  glm_ortho : float -> float -> float -> float -> mat4;
  (* stb_truetype *)
  stbtt_BakeFontBitmap : list byte -> Z -> float -> Z -> Z -> Z -> Z ->
                         Z * list byte * list stbtt_bakedchar;
  stbtt_GetBakedQuad : list stbtt_bakedchar -> Z -> Z -> Z -> float -> float ->
                       Z -> float * float * stbtt_aligned_quad;
  (* std::format with the replacement field {:.1f} *)
  format_1f : float -> string;
  (* std::uniform_real_distribution<float>: the n-th draw between lo and hi *)
  rndDistrib : float -> float -> nat -> float;
  (* GL driver: object names, status queries, info logs, uniform locations *)
  gl_fresh : list Ev.Call -> GLuint;
  gl_status : list Ev.Call -> GLuint -> GLenum -> Z;
  gl_info_log : list Ev.Call -> GLuint -> string;
  gl_uniform_location : list Ev.Call -> GLuint -> string -> Z;
  (* window system *)
  glfw_init_ok : bool;
  glfw_window_ok : bool;
  glad_ok : bool;
  (* file system and heap: the stream at a path, if it can be opened;
     whether the heap can give an array of n bytes, and the indeterminate
     byte a fresh array of n bytes holds at each position *)
  fs_open : string -> option File;
  heap_available : Z -> bool;
  heap_contents : Z -> nat -> byte;
  (* whether plain char is a signed type on this platform *)
  char_is_signed : bool
}.

(** ** The state monad of the program *)

Definition M (A : Type) : Type := World -> A * World.

Definition ret {A : Type} (a : A) : M A := fun w => (a, w).

Definition bind {A B : Type} (m : M A) (k : A -> M B) : M B :=
  fun w => let r := m w in k (fst r) (snd r).

Notation "x <- m ;; k" := (bind m (fun x => k))
  (at level 61, m at next level, right associativity).
Notation "' pat <- m ;; k" :=
  (bind m (fun x => match x with pat => k end))
  (at level 61, pat pattern, m at next level, right associativity).
Notation "m ;; k" := (bind m (fun _ => k))
  (at level 61, right associativity).

Definition record (c : Ev.Call) (w : World) : World :=
  {| w_keys := w_keys w;
     w_framebuffer := w_framebuffer w;
     w_should_close := w_should_close w;
     w_pending := w_pending w;
     w_globals := w_globals w;
     w_log := w_log w ++ [c] |}.

(** A call whose result the program does not use. *)
Definition call (c : Ev.Call) : M unit := fun w => (tt, record c w).

(** A call answered from the world as it is when the call is made. *)
Definition ask {A : Type} (c : Ev.Call) (answer : World -> A) : M A :=
  fun w => (answer w, record c w).

Definition when (b : bool) (m : M unit) : M unit := if b then m else ret tt.

(** The calls a run issues: what it appends to the log. *)
Definition issued {A : Type} (m : M A) (w : World) : list Ev.Call :=
  skipn (List.length (w_log w)) (w_log (snd (m w))).

(** *** GLFW *)

Definition glfwGetKey (key : Key) : M bool :=
  ask (Ev.glfwGetKey key) (fun w => w_keys w key).

Definition glfwSetWindowShouldClose (value : bool) : M unit :=
  fun w =>
    (tt, record (Ev.glfwSetWindowShouldClose value)
           {| w_keys := w_keys w;
              w_framebuffer := w_framebuffer w;
              w_should_close := value;
              w_pending := w_pending w;
              w_globals := w_globals w;
              w_log := w_log w |}).

Definition glfwWindowShouldClose : M bool :=
  ask Ev.glfwWindowShouldClose w_should_close.

Definition glfwGetFramebufferSize : M (Z * Z) :=
  ask Ev.glfwGetFramebufferSize w_framebuffer.

(** Cubey.cpp:27 *)
Definition framebuffer_size_callback (width height : Z) : M unit :=
  call (Ev.glViewport 0 0 width height).

Definition same_size (a b : Z * Z) : bool :=
  (fst a =? fst b) && (snd a =? snd b).

(** [glfwPollEvents] takes the next batch of events: it replaces the key
    state, raises the close flag on a close request and, when the
    framebuffer was resized, runs the callback registered for it. *)
Definition glfwPollEvents : M unit :=
  fun w =>
    let w := record Ev.glfwPollEvents w in
    match w_pending w with
    | [] => (tt, w)
    | ev :: rest =>
        let w' := {| w_keys := ev_keys ev;
                     w_framebuffer := ev_framebuffer ev;
                     w_should_close := w_should_close w || ev_close ev;
                     w_pending := rest;
                     w_globals := w_globals w;
                     w_log := w_log w |} in
        if same_size (ev_framebuffer ev) (w_framebuffer w) then (tt, w')
        else framebuffer_size_callback
               (fst (ev_framebuffer ev)) (snd (ev_framebuffer ev)) w'
    end.

(** ** Rotation state: Cubey.cpp:32-43 and 342-346 *)

(** Cubey.cpp:32 *)
Definition processInput (rotationX rotationY : float) : M (float * float) :=
  esc <- glfwGetKey GLFW_KEY_ESCAPE ;;
  when esc (glfwSetWindowShouldClose true) ;;
  up <- glfwGetKey GLFW_KEY_UP ;;
  let rotationX := if up then (rotationX - f2_0)%f32 else rotationX in
  down <- glfwGetKey GLFW_KEY_DOWN ;;
  let rotationX := if down then (rotationX + f2_0)%f32 else rotationX in
  left <- glfwGetKey GLFW_KEY_LEFT ;;
  let rotationY := if left then (rotationY - f2_0)%f32 else rotationY in
  right <- glfwGetKey GLFW_KEY_RIGHT ;;
  let rotationY := if right then (rotationY + f2_0)%f32 else rotationY in
  ret (rotationX, rotationY).

(** Cubey.cpp:345: [if (r > 360.0f || r < -360.0f) r = 0.0f;] *)
Definition exceeds (r : float) : bool := (r >? f360)%f32 || (r <? fm360)%f32.

Definition wrap (r : float) : float := if exceeds r then f0_0 else r.

(** Cubey.cpp:342-346, the first half of the loop body. *)
Definition advance (rotationXSpeed rotationYSpeed : float)
    (rotation : float * float) : M (float * float) :=
  '(rotationX, rotationY) <- processInput (fst rotation) (snd rotation) ;;
  let rotationX := (rotationX + rotationXSpeed)%f32 in
  let rotationY := (rotationY + rotationYSpeed)%f32 in
  let rotationX := wrap rotationX in
  let rotationY := wrap rotationY in
  ret (rotationX, rotationY).

(** The angles [advance] computes, as a function of the key state: the
    value before the wrap test and the value after it. *)
Definition key_adjust (keys : Key -> bool) (minus plus : Key) (r : float)
    : float :=
  let r := if keys minus then (r - f2_0)%f32 else r in
  if keys plus then (r + f2_0)%f32 else r.

Definition incremented (keys : Key -> bool) (minus plus : Key)
    (speed r : float) : float :=
  (key_adjust keys minus plus r + speed)%f32.

Definition next_angles (keys : Key -> bool) (speedX speedY : float)
    (rotation : float * float) : float * float :=
  (wrap (incremented keys GLFW_KEY_UP GLFW_KEY_DOWN speedX (fst rotation)),
   wrap (incremented keys GLFW_KEY_LEFT GLFW_KEY_RIGHT speedY (snd rotation))).

Definition no_keys : Key -> bool := fun _ => false.

Definition only_key (k : Key) : Key -> bool :=
  fun k' =>
    match k, k' with
    | GLFW_KEY_ESCAPE, GLFW_KEY_ESCAPE | GLFW_KEY_UP, GLFW_KEY_UP
    | GLFW_KEY_DOWN, GLFW_KEY_DOWN | GLFW_KEY_LEFT, GLFW_KEY_LEFT
    | GLFW_KEY_RIGHT, GLFW_KEY_RIGHT => true
    | _, _ => false
    end.

(** Globals before anything is stored in them (static storage is zeroed). *)
Definition zero_bakedchar : stbtt_bakedchar :=
  {| bc_x0 := 0; bc_y0 := 0; bc_x1 := 0; bc_y1 := 0;
     bc_xoff := f0_0; bc_yoff := f0_0; bc_xadvance := f0_0 |}.

Definition initial_globals : Globals :=
  {| textVAO := 0; textVBO := 0; textShaderProgram := 0;
     charData := repeat zero_bakedchar 96; fontTexture := 0 |}.

(** A window with the given key state, nothing pending and an empty log. *)
Definition quiet_world (keys : Key -> bool) : World :=
  {| w_keys := keys;
     w_framebuffer := (900, 700);
     w_should_close := false;
     w_pending := [];
     w_globals := initial_globals;
     w_log := [] |}.

(** [n] runs of [advance], one after the other. *)
Fixpoint advance_n (n : nat) (speedX speedY : float)
    (rotation : float * float) : M (float * float) :=
  match n with
  | O => ret rotation
  | S n' =>
      rotation' <- advance speedX speedY rotation ;;
      advance_n n' speedX speedY rotation'
  end.

(** ** The program proper *)

Definition newline : string := String (ascii_of_nat 10) EmptyString.

Definition get_globals : M Globals := fun w => (w_globals w, w).

Definition set_globals (g : Globals) : M unit :=
  fun w =>
    (tt, {| w_keys := w_keys w;
            w_framebuffer := w_framebuffer w;
            w_should_close := w_should_close w;
            w_pending := w_pending w;
            w_globals := g;
            w_log := w_log w |}).

(** The failures the specification asks the font bake to report, and the
    exception a new-expression throws ([std::bad_alloc], of which
    [std::bad_array_new_length] is a kind). *)
Inductive Failure : Type := FontLoadError | BakeOverflowError | bad_alloc.

(** How a call ends: it returns; or it leaves by reporting a failure to its
    caller, the way a thrown exception does (the program has no [throw] and
    no handler, so a failure would pass through every caller); or it runs
    into behaviour the C++ standard leaves undefined; or, for the render
    loop under a bound on the number of iterations, it is still running. *)
Inductive Outcome (A : Type) : Type :=
| Returned (a : A)
| Failed (e : Failure)
| Undefined
| Running.
Arguments Returned {A} a.
Arguments Failed {A} e.
Arguments Undefined {A}.
Arguments Running {A}.

(** [glm::mat4(d)] *)
Definition mat4_diag (d : float) : mat4 :=
  ((d, f0_0, f0_0, f0_0),
   (f0_0, d, f0_0, f0_0),
   (f0_0, f0_0, d, f0_0),
   (f0_0, f0_0, f0_0, d)).

(** Cubey.cpp:46-98 *)
Definition vertexShaderSource : string := "
    #version 330 core
    layout (location = 0) in vec3 aPos;
    layout (location = 1) in vec3 aColor;

    out vec3 ourColor;

    uniform mat4 mvp; // Model-View-Projection Matrix

    void main() {
        gl_Position = mvp * vec4(aPos, 1.0);
        ourColor = aColor;
    }
".

Definition fragmentShaderSource : string := "
    #version 330 core
    out vec4 FragColor;
    in vec3 ourColor;

    void main() {
        FragColor = vec4(ourColor, 1.0);
    }
".

Definition textVertexShaderSource : string := "
    #version 330 core
    layout (location = 0) in vec4 vertex; // vec2 pos, vec2 tex
    out vec2 TexCoords;

    uniform mat4 projection;

    void main() {
        gl_Position = projection * vec4(vertex.xy, 0.0, 1.0);
        TexCoords = vertex.zw;
    }
".

Definition textFragmentShaderSource : string := "
    #version 330 core
    in vec2 TexCoords;
    out vec4 color;

    uniform sampler2D text;
    uniform vec3 textColor;

    void main() {
        // The font texture is single-channel (alpha). We use its value
        // to set the alpha of our output color.
        float alpha = texture(text, TexCoords).r;
        color = vec4(textColor, alpha);
    }
".

(** Cubey.cpp:259-298 *)
Definition vertices : list float :=
  [ fm0_5; fm0_5; fm0_5; f1_0; f0_0; f0_0;
    f0_5; fm0_5; fm0_5; f1_0; f0_0; f0_0;
    f0_5; f0_5; fm0_5; f1_0; f0_0; f0_0;
    fm0_5; f0_5; fm0_5; f1_0; f0_0; f0_0;
    fm0_5; fm0_5; f0_5; f0_0; f1_0; f0_0;
    f0_5; fm0_5; f0_5; f0_0; f1_0; f0_0;
    f0_5; f0_5; f0_5; f0_0; f1_0; f0_0;
    fm0_5; f0_5; f0_5; f0_0; f1_0; f0_0;
    fm0_5; f0_5; f0_5; f0_0; f0_0; f1_0;
    fm0_5; f0_5; fm0_5; f0_0; f0_0; f1_0;
    fm0_5; fm0_5; fm0_5; f0_0; f0_0; f1_0;
    fm0_5; fm0_5; f0_5; f0_0; f0_0; f1_0;
    f0_5; f0_5; f0_5; f1_0; f1_0; f0_0;
    f0_5; f0_5; fm0_5; f1_0; f1_0; f0_0;
    f0_5; fm0_5; fm0_5; f1_0; f1_0; f0_0;
    f0_5; fm0_5; f0_5; f1_0; f1_0; f0_0;
    fm0_5; fm0_5; fm0_5; f1_0; f0_0; f1_0;
    f0_5; fm0_5; fm0_5; f1_0; f0_0; f1_0;
    f0_5; fm0_5; f0_5; f1_0; f0_0; f1_0;
    fm0_5; fm0_5; f0_5; f1_0; f0_0; f1_0;
    fm0_5; f0_5; fm0_5; f0_0; f1_0; f1_0;
    f0_5; f0_5; fm0_5; f0_0; f1_0; f1_0;
    f0_5; f0_5; f0_5; f0_0; f1_0; f1_0;
    fm0_5; f0_5; f0_5; f0_0; f1_0; f1_0 ].

Definition indices : list Z :=
  [ 0; 1; 2; 2; 3; 0;
    4; 5; 6; 6; 7; 4;
    8; 9; 10; 10; 11; 8;
    12; 13; 14; 14; 15; 12;
    16; 17; 18; 18; 19; 16;
    20; 21; 22; 22; 23; 20 ].

Definition GLFW_OPENGL_CORE_PROFILE : Z := 204801.

Definition WIN_WIDTH : Z := 900.
Definition WIN_HEIGHT : Z := 700.

Section Program.

Variable E : Env.

(** *** Calls answered by the driver, the window system and the runtime *)

Definition glfwInit : M bool := ask Ev.glfwInit (fun _ => glfw_init_ok E).

Definition glfwCreateWindow (width height : Z) (title : string) : M bool :=
  ask (Ev.glfwCreateWindow width height title) (fun _ => glfw_window_ok E).

Definition gladLoadGLLoader : M bool :=
  ask Ev.gladLoadGLLoader (fun _ => glad_ok E).

Definition glGenVertexArrays (n : Z) : M GLuint :=
  ask (Ev.glGenVertexArrays n) (fun w => gl_fresh E (w_log w)).

Definition glGenBuffers (n : Z) : M GLuint :=
  ask (Ev.glGenBuffers n) (fun w => gl_fresh E (w_log w)).

Definition glGenTextures (n : Z) : M GLuint :=
  ask (Ev.glGenTextures n) (fun w => gl_fresh E (w_log w)).

Definition glCreateShader (type : GLenum) : M GLuint :=
  ask (Ev.glCreateShader type) (fun w => gl_fresh E (w_log w)).

Definition glCreateProgram : M GLuint :=
  ask Ev.glCreateProgram (fun w => gl_fresh E (w_log w)).

Definition glGetShaderiv (shader : GLuint) (pname : GLenum) : M Z :=
  ask (Ev.glGetShaderiv shader pname)
      (fun w => gl_status E (w_log w) shader pname).

Definition glGetShaderInfoLog (shader : GLuint) (maxLength : Z) : M string :=
  ask (Ev.glGetShaderInfoLog shader maxLength)
      (fun w => gl_info_log E (w_log w) shader).

Definition glGetProgramiv (program : GLuint) (pname : GLenum) : M Z :=
  ask (Ev.glGetProgramiv program pname)
      (fun w => gl_status E (w_log w) program pname).

Definition glGetProgramInfoLog (program : GLuint) (maxLength : Z)
    : M string :=
  ask (Ev.glGetProgramInfoLog program maxLength)
      (fun w => gl_info_log E (w_log w) program).

Definition glGetUniformLocation (program : GLuint) (name : string) : M Z :=
  ask (Ev.glGetUniformLocation program name)
      (fun w => gl_uniform_location E (w_log w) program name).

Definition fopen (path mode : string) : M (option File) :=
  ask (Ev.fopen path mode) (fun _ => fs_open E path).

(** *** Cubey.cpp:101, createShaderProgram *)

Definition createShaderProgram (vertexSource fragmentSource : string)
    : M GLuint :=
  (* 1. compile vertex shader *)
  vertexShader <- glCreateShader GL_VERTEX_SHADER ;;
  call (Ev.glShaderSource vertexShader 1 vertexSource) ;;
  call (Ev.glCompileShader vertexShader) ;;
  success <- glGetShaderiv vertexShader GL_COMPILE_STATUS ;;
  when (success =? 0)
    (infoLog <- glGetShaderInfoLog vertexShader 512 ;;
     call (Ev.cerr ("ERROR::SHADER::VERTEX::COMPILATION_FAILED" ++ newline
                    ++ infoLog ++ newline))) ;;
  (* 2. compile fragment shader *)
  fragmentShader <- glCreateShader GL_FRAGMENT_SHADER ;;
  call (Ev.glShaderSource fragmentShader 1 fragmentSource) ;;
  call (Ev.glCompileShader fragmentShader) ;;
  success <- glGetShaderiv fragmentShader GL_COMPILE_STATUS ;;
  when (success =? 0)
    (infoLog <- glGetShaderInfoLog fragmentShader 512 ;;
     call (Ev.cerr ("ERROR::SHADER::FRAGMENT::COMPILATION_FAILED" ++ newline
                    ++ infoLog ++ newline))) ;;
  (* 3. link shaders into a program *)
  shaderProgram <- glCreateProgram ;;
  call (Ev.glAttachShader shaderProgram vertexShader) ;;
  call (Ev.glAttachShader shaderProgram fragmentShader) ;;
  call (Ev.glLinkProgram shaderProgram) ;;
  success <- glGetProgramiv shaderProgram GL_LINK_STATUS ;;
  when (success =? 0)
    (infoLog <- glGetProgramInfoLog shaderProgram 512 ;;
     call (Ev.cerr ("ERROR::SHADER::PROGRAM::LINKING_FAILED" ++ newline
                    ++ infoLog ++ newline))) ;;
  (* 4. clean up *)
  call (Ev.glDeleteShader vertexShader) ;;
  call (Ev.glDeleteShader fragmentShader) ;;
  ret shaderProgram.

(** *** Cubey.cpp:150, loadFont *)

Definition FONT_ATLAS_WIDTH : Z := 512.
Definition FONT_ATLAS_HEIGHT : Z := 512.

(** [fread] into a fresh array: the bytes delivered overwrite its start,
    the rest keeps whatever the array held. *)
Definition read_into (fresh delivered : list byte) : list byte :=
  let got := firstn (List.length fresh) delivered in
  got ++ skipn (List.length got) fresh.

(** [new unsigned char[size]] for a [long size]: it throws when the size
    is negative and when the heap cannot give that many bytes; the array it
    gives has [size] bytes of indeterminate contents. *)
Definition fresh_array (size : Z) : list byte :=
  map (heap_contents E size) (seq 0 (Z.to_nat size)).

Definition new_array (size : Z) : option (list byte) :=
  if (size <? 0) || negb (heap_available E size) then None
  else Some (fresh_array size).

Definition loadFont (fontPath : string) : M (Outcome unit) :=
  fontFile <- fopen fontPath "rb" ;;
  match fontFile with
  | None =>
      (* line 153 hands the null stream to fseek *)
      ret Undefined
  | Some file =>
      call Ev.fseek_end ;;
      size <- ask Ev.ftell (fun _ => file_size file) ;;
      call Ev.fseek_set ;;
      match new_array size with
      | None =>
          (* line 156: nothing catches what the new-expression throws *)
          ret (Failed bad_alloc)
      | Some ttfBuffer =>
      call (Ev.fread 1 size) ;;
      let ttfBuffer := read_into ttfBuffer (file_read file) in
      call Ev.fclose ;;
      (* bake font bitmap; the value it returns is dropped *)
      call (Ev.stbtt_BakeFontBitmap f48_0 FONT_ATLAS_WIDTH FONT_ATLAS_HEIGHT
                                    32 96) ;;
      let '(_, fontBitmap, baked) :=
        stbtt_BakeFontBitmap E ttfBuffer 0 f48_0
                             FONT_ATLAS_WIDTH FONT_ATLAS_HEIGHT 32 96 in
      g <- get_globals ;;
      set_globals {| textVAO := textVAO g; textVBO := textVBO g;
                     textShaderProgram := textShaderProgram g;
                     charData := baked; fontTexture := fontTexture g |} ;;
      (* texture for the atlas *)
      texture <- glGenTextures 1 ;;
      g <- get_globals ;;
      set_globals {| textVAO := textVAO g; textVBO := textVBO g;
                     textShaderProgram := textShaderProgram g;
                     charData := charData g; fontTexture := texture |} ;;
      call (Ev.glBindTexture GL_TEXTURE_2D texture) ;;
      call (Ev.glTexImage2D GL_TEXTURE_2D 0 GL_RED FONT_ATLAS_WIDTH
                            FONT_ATLAS_HEIGHT 0 GL_RED GL_UNSIGNED_BYTE
                            (Bytes fontBitmap)) ;;
      call (Ev.glTexParameteri GL_TEXTURE_2D GL_TEXTURE_MIN_FILTER GL_LINEAR) ;;
      call (Ev.glTexParameteri GL_TEXTURE_2D GL_TEXTURE_MAG_FILTER GL_LINEAR) ;;
      (* VAO/VBO for the glyph quads *)
      vao <- glGenVertexArrays 1 ;;
      vbo <- glGenBuffers 1 ;;
      g <- get_globals ;;
      set_globals {| textVAO := vao; textVBO := vbo;
                     textShaderProgram := textShaderProgram g;
                     charData := charData g; fontTexture := fontTexture g |} ;;
      call (Ev.glBindVertexArray vao) ;;
      call (Ev.glBindBuffer GL_ARRAY_BUFFER vbo) ;;
      call (Ev.glBufferData GL_ARRAY_BUFFER (4 * 6 * 4) NoData
                            GL_DYNAMIC_DRAW) ;;
      call (Ev.glEnableVertexAttribArray 0) ;;
      call (Ev.glVertexAttribPointer 0 4 GL_FLOAT false (4 * 4) 0) ;;
      call (Ev.glBindBuffer GL_ARRAY_BUFFER 0) ;;
      call (Ev.glBindVertexArray 0) ;;
      ret (Returned tt)
      end
  end.

(** *** Cubey.cpp:187, renderText *)

(** The value of a [char] holding the byte [c], promoted to [int]. *)
Definition char_value (c : ascii) : Z :=
  let n := Z.of_N (N_of_ascii c) in
  if char_is_signed E && (128 <=? n) then n - 256 else n.

(** The six vertices of Cubey.cpp:200-208, row by row. *)
Definition quad_vertices (q : stbtt_aligned_quad) : list float :=
  [ x0 q; y0 q; s0 q; t0 q;
    x0 q; y1 q; s0 q; t1 q;
    x1 q; y1 q; s1 q; t1 q;
    x0 q; y0 q; s0 q; t0 q;
    x1 q; y1 q; s1 q; t1 q;
    x1 q; y0 q; s1 q; t0 q ].

(** The loop of Cubey.cpp:195-216; it returns the pen [(x, y)] it ends
    with, which the function then discards. *)
Fixpoint renderText_loop (text : string) (x y : float) : M (float * float) :=
  match text with
  | EmptyString => ret (x, y)
  | String c rest =>
      let c := char_value c in
      if (32 <=? c) && (c <? 128) then
        g <- get_globals ;;
        let '(x', y', q) :=
          stbtt_GetBakedQuad E (charData g) 512 512 (c - 32) x y 1 in
        call (Ev.glBindBuffer GL_ARRAY_BUFFER (textVBO g)) ;;
        call (Ev.glBufferSubData GL_ARRAY_BUFFER 0 (4 * 6 * 4)
                                 (Floats (quad_vertices q))) ;;
        call (Ev.glBindBuffer GL_ARRAY_BUFFER 0) ;;
        call (Ev.glDrawArrays GL_TRIANGLES 0 6) ;;
        renderText_loop rest x' y'
      else
        renderText_loop rest x y
  end.

Definition renderText (text : string) (x y scale : float) : M unit :=
  g <- get_globals ;;
  call (Ev.glUseProgram (textShaderProgram g)) ;;
  location <- glGetUniformLocation (textShaderProgram g) "textColor" ;;
  call (Ev.glUniform3f location f1_0 f1_0 f1_0) ;;
  call (Ev.glActiveTexture GL_TEXTURE0) ;;
  call (Ev.glBindVertexArray (textVAO g)) ;;
  call (Ev.glBindTexture GL_TEXTURE_2D (fontTexture g)) ;;
  _ <- renderText_loop text x y ;;
  call (Ev.glBindVertexArray 0) ;;
  call (Ev.glBindTexture GL_TEXTURE_2D 0).

(** *** Cubey.cpp:340-391, the body of the render loop *)

(** Cubey.cpp:356-358 *)
Definition model (rotationX rotationY : float) : mat4 :=
  let model := mat4_diag f1_0 in
  let model := glm_rotate E model (glm_radians E rotationX)
                          (f1_0, f0_0, f0_0) in
  let model := glm_rotate E model (glm_radians E rotationY)
                          (f0_0, f1_0, f0_0) in
  model.

(** Cubey.cpp:361 *)
Definition mvp (projection view : mat4) (rotationX rotationY : float)
    : mat4 :=
  glm_mul E (glm_mul E projection view) (model rotationX rotationY).

(** Cubey.cpp:384 *)
Definition status_text (rotationX rotationY : float) : string :=
  "Arrow keys control the rotation (" ++ format_1f E rotationX ++ ", "
    ++ format_1f E rotationY ++ ")".

Definition frame (cubeShaderProgram VAO : GLuint) (projection view : mat4)
    (rotationXSpeed rotationYSpeed : float) (rotation : float * float)
    : M (float * float) :=
  (* input processing *)
  '(rotationX, rotationY) <- advance rotationXSpeed rotationYSpeed rotation ;;
  (* rendering *)
  call (Ev.glEnable GL_DEPTH_TEST) ;;
  call (Ev.glClearColor f0_1 f0_1 f0_1 f1_0) ;;
  call (Ev.glClear [GL_COLOR_BUFFER_BIT; GL_DEPTH_BUFFER_BIT]) ;;
  call (Ev.glUseProgram cubeShaderProgram) ;;
  location <- glGetUniformLocation cubeShaderProgram "mvp" ;;
  call (Ev.glUniformMatrix4fv location 1 false
          (mvp projection view rotationX rotationY)) ;;
  call (Ev.glBindVertexArray VAO) ;;
  call (Ev.glDrawElements GL_TRIANGLES 36 GL_UNSIGNED_INT 0) ;;
  (* 2D text *)
  call (Ev.glDisable GL_DEPTH_TEST) ;;
  '(width, height) <- glfwGetFramebufferSize ;;
  let ortho_projection :=
    glm_ortho E f0_0 (F32.of_Z width) (F32.of_Z height) f0_0 in
  g <- get_globals ;;
  call (Ev.glUseProgram (textShaderProgram g)) ;;
  location <- glGetUniformLocation (textShaderProgram g) "projection" ;;
  call (Ev.glUniformMatrix4fv location 1 false ortho_projection) ;;
  renderText (status_text rotationX rotationY) f25_0 f50_0 f1_0 ;;
  (* swap buffers and poll IO events *)
  call Ev.glfwSwapBuffers ;;
  glfwPollEvents ;;
  ret (rotationX, rotationY).

(** One turn of [while (!glfwWindowShouldClose(window)) { ... }]: [None]
    when the test ends the loop, the new angles otherwise. *)
Definition loop_step (cubeShaderProgram VAO : GLuint) (projection view : mat4)
    (rotationXSpeed rotationYSpeed : float) (rotation : float * float)
    : M (option (float * float)) :=
  close <- glfwWindowShouldClose ;;
  if close then ret None
  else
    rotation' <- frame cubeShaderProgram VAO projection view
                       rotationXSpeed rotationYSpeed rotation ;;
    ret (Some rotation').

(** The loop, cut off after [fuel] tests of its condition. *)
Fixpoint render_loop (fuel : nat) (cubeShaderProgram VAO : GLuint)
    (projection view : mat4) (rotationXSpeed rotationYSpeed : float)
    (rotation : float * float) : M (Outcome (float * float)) :=
  match fuel with
  | O => ret Running
  | S fuel' =>
      next <- loop_step cubeShaderProgram VAO projection view
                        rotationXSpeed rotationYSpeed rotation ;;
      match next with
      | None => ret (Returned rotation)
      | Some rotation' =>
          render_loop fuel' cubeShaderProgram VAO projection view
                      rotationXSpeed rotationYSpeed rotation'
      end
  end.

(** *** Cubey.cpp:222, main

    The window hint that lines 233-235 add on macOS only is left out. *)

Definition main (fuel : nat) : M (Outcome Z) :=
  (* 1. initialize GLFW *)
  ok <- glfwInit ;;
  if negb ok then
    call (Ev.cerr ("Failed to initialize GLFW" ++ newline)) ;;
    ret (Returned (-1))
  else
  call (Ev.glfwWindowHint GLFW_CONTEXT_VERSION_MAJOR 3) ;;
  call (Ev.glfwWindowHint GLFW_CONTEXT_VERSION_MINOR 3) ;;
  call (Ev.glfwWindowHint GLFW_OPENGL_PROFILE GLFW_OPENGL_CORE_PROFILE) ;;
  (* 2. create a GLFW window *)
  window <- glfwCreateWindow WIN_WIDTH WIN_HEIGHT "Cubey (GLFW)" ;;
  if negb window then
    call (Ev.cerr ("Failed to create GLFW window" ++ newline)) ;;
    call Ev.glfwTerminate ;;
    ret (Returned (-1))
  else
  call Ev.glfwMakeContextCurrent ;;
  call Ev.glfwSetFramebufferSizeCallback ;;
  (* 3. initialize GLAD *)
  ok <- gladLoadGLLoader ;;
  if negb ok then
    call (Ev.cerr ("Failed to initialize GLAD" ++ newline)) ;;
    ret (Returned (-1))
  else
  call (Ev.glEnable GL_DEPTH_TEST) ;;
  call (Ev.glEnable GL_BLEND) ;;
  call (Ev.glBlendFunc GL_SRC_ALPHA GL_ONE_MINUS_SRC_ALPHA) ;;
  (* 4. cube geometry *)
  VAO <- glGenVertexArrays 1 ;;
  VBO <- glGenBuffers 1 ;;
  EBO <- glGenBuffers 1 ;;
  call (Ev.glBindVertexArray VAO) ;;
  call (Ev.glBindBuffer GL_ARRAY_BUFFER VBO) ;;
  call (Ev.glBufferData GL_ARRAY_BUFFER (4 * Z.of_nat (List.length vertices))
                        (Floats vertices) GL_STATIC_DRAW) ;;
  call (Ev.glBindBuffer GL_ELEMENT_ARRAY_BUFFER EBO) ;;
  call (Ev.glBufferData GL_ELEMENT_ARRAY_BUFFER
                        (4 * Z.of_nat (List.length indices))
                        (UInts indices) GL_STATIC_DRAW) ;;
  call (Ev.glVertexAttribPointer 0 3 GL_FLOAT false (6 * 4) 0) ;;
  call (Ev.glEnableVertexAttribArray 0) ;;
  call (Ev.glVertexAttribPointer 1 3 GL_FLOAT false (6 * 4) (3 * 4)) ;;
  call (Ev.glEnableVertexAttribArray 1) ;;
  (* 5. shaders and matrices *)
  cubeShaderProgram <-
    createShaderProgram vertexShaderSource fragmentShaderSource ;;
  let projection :=
    glm_perspective E (glm_radians E f45_0) f800_over_600 f0_1 f100_0 in
  let view := glm_translate E (mat4_diag f1_0) (f0_0, f0_0, fm3_0) in
  (* 6. font loading and text rendering setup *)
  program <-
    createShaderProgram textVertexShaderSource textFragmentShaderSource ;;
  g <- get_globals ;;
  set_globals {| textVAO := textVAO g; textVBO := textVBO g;
                 textShaderProgram := program;
                 charData := charData g; fontTexture := fontTexture g |} ;;
  loaded <- loadFont "arial.ttf" ;;
  match loaded with
  | Failed e => ret (Failed e)
  | Undefined => ret Undefined
  | Running => ret Running
  | Returned _ =>
  let rotationXSpeed := rndDistrib E f0_1 f2_0 0 in
  let rotationYSpeed := rndDistrib E f0_1 f2_0 1 in
  let rotationX := f0_0 in
  let rotationY := f0_0 in
  (* main render loop *)
  looped <- render_loop fuel cubeShaderProgram VAO projection view
                        rotationXSpeed rotationYSpeed
                        (rotationX, rotationY) ;;
  match looped with
  | Failed e => ret (Failed e)
  | Undefined => ret Undefined
  | Running => ret Running
  | Returned _ =>
  (* 7. cleanup *)
  call (Ev.glDeleteVertexArrays 1 VAO) ;;
  call (Ev.glDeleteBuffers 1 VBO) ;;
  call (Ev.glDeleteBuffers 1 EBO) ;;
  call (Ev.glDeleteProgram cubeShaderProgram) ;;
  g <- get_globals ;;
  call (Ev.glDeleteVertexArrays 1 (textVAO g)) ;;
  call (Ev.glDeleteBuffers 1 (textVBO g)) ;;
  call (Ev.glDeleteProgram (textShaderProgram g)) ;;
  call Ev.glfwDestroyWindow ;;
  call Ev.glfwTerminate ;;
  ret (Returned 0)
  end
  end.

End Program.

(** ** Views of a run used to state the theorems *)

(** Appending calls to the log and nothing else. *)
Definition log_more (calls : list Ev.Call) (w : World) : World :=
  {| w_keys := w_keys w;
     w_framebuffer := w_framebuffer w;
     w_should_close := w_should_close w;
     w_pending := w_pending w;
     w_globals := w_globals w;
     w_log := w_log w ++ calls |}.

(** The calls of [processInput] for a given key state. *)
Definition input_calls (keys : Key -> bool) : list Ev.Call :=
  [Ev.glfwGetKey GLFW_KEY_ESCAPE]
  ++ (if keys GLFW_KEY_ESCAPE then [Ev.glfwSetWindowShouldClose true] else [])
  ++ [Ev.glfwGetKey GLFW_KEY_UP; Ev.glfwGetKey GLFW_KEY_DOWN;
      Ev.glfwGetKey GLFW_KEY_LEFT; Ev.glfwGetKey GLFW_KEY_RIGHT].

(** The quads the loop of [renderText] lays out, and the pen it ends with. *)
Fixpoint layout (E : Env) (baked : list stbtt_bakedchar) (text : string)
    (x y : float) : list stbtt_aligned_quad * (float * float) :=
  match text with
  | EmptyString => ([], (x, y))
  | String c rest =>
      let c := char_value E c in
      if (32 <=? c) && (c <? 128) then
        let '(x', y', q) :=
          stbtt_GetBakedQuad E baked 512 512 (c - 32) x y 1 in
        let r := layout E baked rest x' y' in
        (q :: fst r, snd r)
      else layout E baked rest x y
  end.

(** The four calls that draw one quad. *)
Definition glyph_calls (vbo : GLuint) (q : stbtt_aligned_quad) : list Ev.Call :=
  [ Ev.glBindBuffer GL_ARRAY_BUFFER vbo;
    Ev.glBufferSubData GL_ARRAY_BUFFER 0 (4 * 6 * 4)
                       (Floats (quad_vertices q));
    Ev.glBindBuffer GL_ARRAY_BUFFER 0;
    Ev.glDrawArrays GL_TRIANGLES 0 6 ].

(** The vertex arrays uploaded for glyphs, in order: one per quad drawn. *)
Fixpoint quads_uploaded (calls : list Ev.Call) : list (list float) :=
  match calls with
  | [] => []
  | Ev.glBufferSubData _ _ _ (Floats l) :: rest => l :: quads_uploaded rest
  | _ :: rest => quads_uploaded rest
  end.

(** The origin of an uploaded quad: [x0] and [y0] of its first vertex. *)
Definition origin (quad : list float) : float * float :=
  (nth 0 quad f0_0, nth 1 quad f0_0).

(** The number of [glDrawArrays] calls. *)
Fixpoint glyph_draws (calls : list Ev.Call) : nat :=
  match calls with
  | [] => O
  | Ev.glDrawArrays _ _ _ :: rest => S (glyph_draws rest)
  | _ :: rest => glyph_draws rest
  end.

(** The byte a character holds, as an unsigned codepoint. *)
Definition codepoint (c : ascii) : Z := Z.of_N (N_of_ascii c).

Definition outside_baked_range (c : ascii) : Prop :=
  ~ (32 <= codepoint c < 128).

(** *** The two capabilities the program switches *)

Record Caps : Type := { depth_test : bool; blend : bool }.

(** Both are disabled in a fresh GL context. *)
Definition initial_caps : Caps := {| depth_test := false; blend := false |}.

Definition gl_step (c : Caps) (call : Ev.Call) : Caps :=
  match call with
  | Ev.glEnable GL_DEPTH_TEST => {| depth_test := true; blend := blend c |}
  | Ev.glDisable GL_DEPTH_TEST => {| depth_test := false; blend := blend c |}
  | Ev.glEnable GL_BLEND => {| depth_test := depth_test c; blend := true |}
  | Ev.glDisable GL_BLEND => {| depth_test := depth_test c; blend := false |}
  | _ => c
  end.

Definition caps_after (c : Caps) (calls : list Ev.Call) : Caps :=
  fold_left gl_step calls c.

(** A draw call is in order when the cube is drawn with the depth test on
    and a glyph with the depth test off and blending on. *)
Definition draw_in_order (c : Caps) (call : Ev.Call) : bool :=
  match call with
  | Ev.glDrawElements _ _ _ _ => depth_test c
  | Ev.glDrawArrays _ _ _ => negb (depth_test c) && blend c
  | _ => true
  end.

(** Every draw call of the list is in order, starting from [c]. *)
Fixpoint draws_in_order (c : Caps) (calls : list Ev.Call) : bool :=
  match calls with
  | [] => true
  | call :: rest => draw_in_order c call && draws_in_order (gl_step c call) rest
  end.

(** *** The stages of one iteration *)

Inductive Stage : Type :=
| PollInput | ClearBuffers | DrawCube | DisableDepthTest | QueryFramebuffer
| DrawText | Present | PollEvents.

(** The call that marks each stage; the other calls prepare the next one. *)
Definition stage_of (call : Ev.Call) : option Stage :=
  match call with
  | Ev.glfwGetKey _ => Some PollInput
  | Ev.glClear _ => Some ClearBuffers
  | Ev.glDrawElements _ _ _ _ => Some DrawCube
  | Ev.glDisable GL_DEPTH_TEST => Some DisableDepthTest
  | Ev.glfwGetFramebufferSize => Some QueryFramebuffer
  | Ev.glDrawArrays _ _ _ => Some DrawText
  | Ev.glfwSwapBuffers => Some Present
  | Ev.glfwPollEvents => Some PollEvents
  | _ => None
  end.

Definition Stage_eqb (a b : Stage) : bool :=
  match a, b with
  | PollInput, PollInput | ClearBuffers, ClearBuffers | DrawCube, DrawCube
  | DisableDepthTest, DisableDepthTest | QueryFramebuffer, QueryFramebuffer
  | DrawText, DrawText | Present, Present | PollEvents, PollEvents => true
  | _, _ => false
  end.

(** The stages of a list of calls, a run of the same stage counted once. *)
Definition marks (calls : list Ev.Call) : list Stage :=
  flat_map (fun call => match stage_of call with
                        | Some s => [s]
                        | None => []
                        end) calls.

Fixpoint merge_runs (l : list Stage) : list Stage :=
  match l with
  | [] => []
  | s :: rest =>
      match merge_runs rest with
      | [] => [s]
      | s' :: l' => if Stage_eqb s s' then s' :: l' else s :: s' :: l'
      end
  end.

Definition stages (calls : list Ev.Call) : list Stage :=
  merge_runs (marks calls).

(** A call that neither draws nor switches a capability. *)
Definition quiet (call : Ev.Call) : bool :=
  match call with
  | Ev.glEnable _ | Ev.glDisable _ | Ev.glDrawElements _ _ _ _
  | Ev.glDrawArrays _ _ _ => false
  | _ => true
  end.

(** [n] iterations of the loop body, the close flag not consulted. *)
Fixpoint frames (E : Env) (n : nat) (cubeShaderProgram VAO : GLuint)
    (projection view : mat4) (speedX speedY : float)
    (rotation : float * float) : M (float * float) :=
  match n with
  | O => ret rotation
  | S n' =>
      rotation' <- frame E cubeShaderProgram VAO projection view
                         speedX speedY rotation ;;
      frames E n' cubeShaderProgram VAO projection view speedX speedY
             rotation'
  end.

(** The calls of [renderText], given the globals and the location the
    driver reports for the uniform textColor. *)
Definition renderText_calls (E : Env) (g : Globals) (location : Z)
    (text : string) (x y : float) : list Ev.Call :=
  [ Ev.glUseProgram (textShaderProgram g);
    Ev.glGetUniformLocation (textShaderProgram g) "textColor";
    Ev.glUniform3f location f1_0 f1_0 f1_0;
    Ev.glActiveTexture GL_TEXTURE0;
    Ev.glBindVertexArray (textVAO g);
    Ev.glBindTexture GL_TEXTURE_2D (fontTexture g) ]
  ++ flat_map (glyph_calls (textVBO g)) (fst (layout E (charData g) text x y))
  ++ [ Ev.glBindVertexArray 0; Ev.glBindTexture GL_TEXTURE_2D 0 ].

Definition textColor_location (E : Env) (w : World) : Z :=
  gl_uniform_location E
    (w_log w ++ [Ev.glUseProgram (textShaderProgram (w_globals w))])
    (textShaderProgram (w_globals w)) "textColor".

(** *** The calls of one iteration of the render loop *)

Definition with_close (flag : bool) (w : World) : World :=
  {| w_keys := w_keys w;
     w_framebuffer := w_framebuffer w;
     w_should_close := flag;
     w_pending := w_pending w;
     w_globals := w_globals w;
     w_log := w_log w |}.

(** Clearing and drawing the cube with the matrix for the given angles. *)
Definition scene_calls (E : Env) (cubeShaderProgram VAO : GLuint)
    (projection view : mat4) (rotation : float * float) (location : Z)
    : list Ev.Call :=
  [ Ev.glEnable GL_DEPTH_TEST;
    Ev.glClearColor f0_1 f0_1 f0_1 f1_0;
    Ev.glClear [GL_COLOR_BUFFER_BIT; GL_DEPTH_BUFFER_BIT];
    Ev.glUseProgram cubeShaderProgram;
    Ev.glGetUniformLocation cubeShaderProgram "mvp";
    Ev.glUniformMatrix4fv location 1 false
      (mvp E projection view (fst rotation) (snd rotation));
    Ev.glBindVertexArray VAO;
    Ev.glDrawElements GL_TRIANGLES 36 GL_UNSIGNED_INT 0 ].

(** The overlay: depth test off, projection from the framebuffer size,
    then the status text for the given angles. *)
Definition overlay_calls (E : Env) (g : Globals) (framebuffer : Z * Z)
    (rotation : float * float) (location_projection location_color : Z)
    : list Ev.Call :=
  [ Ev.glDisable GL_DEPTH_TEST;
    Ev.glfwGetFramebufferSize;
    Ev.glUseProgram (textShaderProgram g);
    Ev.glGetUniformLocation (textShaderProgram g) "projection";
    Ev.glUniformMatrix4fv location_projection 1 false
      (glm_ortho E f0_0 (F32.of_Z (fst framebuffer))
                 (F32.of_Z (snd framebuffer)) f0_0) ]
  ++ renderText_calls E g location_color
       (status_text E (fst rotation) (snd rotation)) f25_0 f50_0.

(** What [glfwPollEvents] issues: itself and, on a resize, the viewport
    update of the callback. *)
Definition poll_calls (w : World) : list Ev.Call :=
  Ev.glfwPollEvents
  :: match w_pending w with
     | [] => []
     | ev :: _ =>
         if same_size (ev_framebuffer ev) (w_framebuffer w) then []
         else [Ev.glViewport 0 0 (fst (ev_framebuffer ev))
                             (snd (ev_framebuffer ev))]
     end.

(** Whether the next poll brings a close request. *)
Definition close_requested (w : World) : bool :=
  match w_pending w with
  | [] => false
  | ev :: _ => ev_close ev
  end.

(** Everything one iteration issues before it polls for events, for the
    angles it computed and the locations the driver reported. *)
Definition frame_calls (E : Env) (cubeShaderProgram VAO : GLuint)
    (projection view : mat4) (rotation' : float * float) (w : World)
    (location_mvp location_projection location_color : Z) : list Ev.Call :=
  input_calls (w_keys w)
  ++ scene_calls E cubeShaderProgram VAO projection view rotation'
                 location_mvp
  ++ overlay_calls E (w_globals w) (w_framebuffer w) rotation'
                   location_projection location_color
  ++ [Ev.glfwSwapBuffers].

(** *** The calls of [createShaderProgram]

    One stage is compiled in the world [w]: the driver names the shader,
    reports a status and, on request, an info log. *)
Definition new_name (E : Env) (w : World) : GLuint := gl_fresh E (w_log w).

Definition compile_status (E : Env) (kind : GLenum) (source : string)
    (w : World) : Z :=
  let shader := new_name E w in
  gl_status E
    (w_log w ++ [Ev.glCreateShader kind; Ev.glShaderSource shader 1 source;
                 Ev.glCompileShader shader])
    shader GL_COMPILE_STATUS.

Definition compile_info_log (E : Env) (kind : GLenum) (source : string)
    (w : World) : string :=
  let shader := new_name E w in
  gl_info_log E
    (w_log w ++ [Ev.glCreateShader kind; Ev.glShaderSource shader 1 source;
                 Ev.glCompileShader shader;
                 Ev.glGetShaderiv shader GL_COMPILE_STATUS])
    shader.

Definition compile_calls (E : Env) (kind : GLenum) (label source : string)
    (w : World) : list Ev.Call :=
  let shader := new_name E w in
  [ Ev.glCreateShader kind; Ev.glShaderSource shader 1 source;
    Ev.glCompileShader shader; Ev.glGetShaderiv shader GL_COMPILE_STATUS ]
  ++ (if compile_status E kind source w =? 0 then
        [ Ev.glGetShaderInfoLog shader 512;
          Ev.cerr ("ERROR::SHADER::" ++ label ++ "::COMPILATION_FAILED"
                   ++ newline ++ compile_info_log E kind source w
                   ++ newline) ]
      else []).

(** The program is linked in the world [w] from the shaders [vs], [fs]. *)
Definition link_status (E : Env) (vs fs : GLuint) (w : World) : Z :=
  let program := new_name E w in
  gl_status E
    (w_log w ++ [Ev.glCreateProgram; Ev.glAttachShader program vs;
                 Ev.glAttachShader program fs; Ev.glLinkProgram program])
    program GL_LINK_STATUS.

Definition link_info_log (E : Env) (vs fs : GLuint) (w : World) : string :=
  let program := new_name E w in
  gl_info_log E
    (w_log w ++ [Ev.glCreateProgram; Ev.glAttachShader program vs;
                 Ev.glAttachShader program fs; Ev.glLinkProgram program;
                 Ev.glGetProgramiv program GL_LINK_STATUS])
    program.

Definition link_calls (E : Env) (vs fs : GLuint) (w : World) : list Ev.Call :=
  let program := new_name E w in
  [ Ev.glCreateProgram; Ev.glAttachShader program vs;
    Ev.glAttachShader program fs; Ev.glLinkProgram program;
    Ev.glGetProgramiv program GL_LINK_STATUS ]
  ++ (if link_status E vs fs w =? 0 then
        [ Ev.glGetProgramInfoLog program 512;
          Ev.cerr ("ERROR::SHADER::PROGRAM::LINKING_FAILED" ++ newline
                   ++ link_info_log E vs fs w ++ newline) ]
      else []).

(** The worlds in which the fragment shader is compiled and the program
    is linked, and everything [createShaderProgram] issues. *)
Definition after_vertex (E : Env) (vertexSource : string) (w : World)
    : World :=
  log_more (compile_calls E GL_VERTEX_SHADER "VERTEX" vertexSource w) w.

Definition after_fragment (E : Env) (vertexSource fragmentSource : string)
    (w : World) : World :=
  let w1 := after_vertex E vertexSource w in
  log_more (compile_calls E GL_FRAGMENT_SHADER "FRAGMENT" fragmentSource w1)
           w1.

Definition createShaderProgram_calls (E : Env)
    (vertexSource fragmentSource : string) (w : World) : list Ev.Call :=
  let w1 := after_vertex E vertexSource w in
  let w2 := after_fragment E vertexSource fragmentSource w in
  compile_calls E GL_VERTEX_SHADER "VERTEX" vertexSource w
  ++ compile_calls E GL_FRAGMENT_SHADER "FRAGMENT" fragmentSource w1
  ++ link_calls E (new_name E w) (new_name E w1) w2
  ++ [ Ev.glDeleteShader (new_name E w); Ev.glDeleteShader (new_name E w1) ].

(** *** The calls of [loadFont] *)

Definition with_globals (g : Globals) (w : World) : World :=
  {| w_keys := w_keys w;
     w_framebuffer := w_framebuffer w;
     w_should_close := w_should_close w;
     w_pending := w_pending w;
     w_globals := g;
     w_log := w_log w |}.

(** The bytes handed to the baker once the array is allocated, and what it
    answers for them. *)
Definition font_buffer (E : Env) (file : File) : list byte :=
  read_into (fresh_array E (file_size file)) (file_read file).

Definition baked (E : Env) (file : File)
    : Z * list byte * list stbtt_bakedchar :=
  stbtt_BakeFontBitmap E (font_buffer E file) 0 f48_0
                       FONT_ATLAS_WIDTH FONT_ATLAS_HEIGHT 32 96.

(** The calls up to the creation of the texture, and those from there on,
    given the names the driver chose. *)
Definition loadFont_read_calls (fontPath : string) (file : File)
    : list Ev.Call :=
  [ Ev.fopen fontPath "rb"; Ev.fseek_end; Ev.ftell; Ev.fseek_set;
    Ev.fread 1 (file_size file); Ev.fclose;
    Ev.stbtt_BakeFontBitmap f48_0 FONT_ATLAS_WIDTH FONT_ATLAS_HEIGHT 32 96 ].

Definition loadFont_upload_calls (fontBitmap : list byte)
    (texture vao vbo : GLuint) : list Ev.Call :=
  [ Ev.glGenTextures 1;
    Ev.glBindTexture GL_TEXTURE_2D texture;
    Ev.glTexImage2D GL_TEXTURE_2D 0 GL_RED FONT_ATLAS_WIDTH FONT_ATLAS_HEIGHT
                    0 GL_RED GL_UNSIGNED_BYTE (Bytes fontBitmap);
    Ev.glTexParameteri GL_TEXTURE_2D GL_TEXTURE_MIN_FILTER GL_LINEAR;
    Ev.glTexParameteri GL_TEXTURE_2D GL_TEXTURE_MAG_FILTER GL_LINEAR;
    Ev.glGenVertexArrays 1;
    Ev.glGenBuffers 1;
    Ev.glBindVertexArray vao;
    Ev.glBindBuffer GL_ARRAY_BUFFER vbo;
    Ev.glBufferData GL_ARRAY_BUFFER (4 * 6 * 4) NoData GL_DYNAMIC_DRAW;
    Ev.glEnableVertexAttribArray 0;
    Ev.glVertexAttribPointer 0 4 GL_FLOAT false (4 * 4) 0;
    Ev.glBindBuffer GL_ARRAY_BUFFER 0;
    Ev.glBindVertexArray 0 ].

(** *** Frames without input *)

Definition arrows_released (keys : Key -> bool) : bool :=
  negb (keys GLFW_KEY_UP) && negb (keys GLFW_KEY_DOWN)
  && negb (keys GLFW_KEY_LEFT) && negb (keys GLFW_KEY_RIGHT).

(** No arrow key is held during the next [n] iterations: not in the key
    state [keys] and not in the states the coming polls bring. *)
Fixpoint idle (n : nat) (keys : Key -> bool) (pending : list Events) : bool :=
  match n with
  | O => true
  | S n' =>
      arrows_released keys
      && match pending with
         | [] => idle n' keys []
         | ev :: rest => idle n' (ev_keys ev) rest
         end
  end.

(** The angles after [n] updates with no key held. *)
Fixpoint angles_after (n : nat) (speedX speedY : float)
    (rotation : float * float) : float * float :=
  match n with
  | O => rotation
  | S n' =>
      angles_after n' speedX speedY (next_angles no_keys speedX speedY rotation)
  end.

(** ** A concrete set of collaborators

    The theorems hold for every [Env].  To run the program on examples one
    is needed: glm's matrix routines on [float] (with short series for sine
    and cosine), stb_truetype's quad placement over a fixed-pitch glyph
    table, a decimal printer, and a driver that hands out fresh names. *)

Module Sample.

Definition pi_over_180 : float := S754_finite false 9370165 (-29).

Definition radians (degrees : float) : float := (degrees * pi_over_180)%f32.

Definition cos (a : float) : float :=
  let a2 := (a * a)%f32 in
  (f1_0 - a2 / F32.of_Z 2 + a2 * a2 / F32.of_Z 24)%f32.

Definition sin (a : float) : float :=
  let a2 := (a * a)%f32 in
  (a - a * a2 / F32.of_Z 6 + a * a2 * a2 / F32.of_Z 120)%f32.

Definition scale4 (v : vec4) (k : float) : vec4 :=
  let '(a, b, c, d) := v in ((a * k)%f32, (b * k)%f32, (c * k)%f32, (d * k)%f32).

Definition add4 (u v : vec4) : vec4 :=
  let '(a, b, c, d) := u in
  let '(a', b', c', d') := v in
  ((a + a')%f32, (b + b')%f32, (c + c')%f32, (d + d')%f32).

Definition mul (m1 m2 : mat4) : mat4 :=
  let '(a0, a1, a2, a3) := m1 in
  let col (b : vec4) :=
    let '(x, y, z, w) := b in
    add4 (add4 (add4 (scale4 a0 x) (scale4 a1 y)) (scale4 a2 z))
         (scale4 a3 w) in
  let '(b0, b1, b2, b3) := m2 in
  (col b0, col b1, col b2, col b3).

Definition rotate (m : mat4) (angle : float) (v : vec3) : mat4 :=
  let c := cos angle in
  let s := sin angle in
  let '(vx, vy, vz) := v in
  let inv := (f1_0 / F32.sqrt (vx * vx + vy * vy + vz * vz))%f32 in
  let ax := (vx * inv)%f32 in
  let ay := (vy * inv)%f32 in
  let az := (vz * inv)%f32 in
  let tx := ((f1_0 - c) * ax)%f32 in
  let ty := ((f1_0 - c) * ay)%f32 in
  let tz := ((f1_0 - c) * az)%f32 in
  let '(m0, m1, m2, m3) := m in
  let col (r0 r1 r2 : float) :=
    add4 (add4 (scale4 m0 r0) (scale4 m1 r1)) (scale4 m2 r2) in
  (col (c + tx * ax)%f32 (tx * ay + s * az)%f32 (tx * az - s * ay)%f32,
   col (ty * ax - s * az)%f32 (c + ty * ay)%f32 (ty * az + s * ax)%f32,
   col (tz * ax + s * ay)%f32 (tz * ay - s * ax)%f32 (c + tz * az)%f32,
   m3).

Definition translate (m : mat4) (v : vec3) : mat4 :=
  let '(vx, vy, vz) := v in
  let '(m0, m1, m2, m3) := m in
  (m0, m1, m2,
   add4 (add4 (add4 (scale4 m0 vx) (scale4 m1 vy)) (scale4 m2 vz)) m3).

Definition perspective (fovy aspect zNear zFar : float) : mat4 :=
  let half := (fovy / F32.of_Z 2)%f32 in
  let t := (sin half / cos half)%f32 in
  ((f1_0 / (aspect * t), f0_0, f0_0, f0_0)%f32,
   (f0_0, f1_0 / t, f0_0, f0_0)%f32,
   (f0_0, f0_0, F32.opp ((zFar + zNear) / (zFar - zNear))%f32,
    F32.opp f1_0),
   (f0_0, f0_0,
    F32.opp ((F32.of_Z 2 * zFar * zNear) / (zFar - zNear))%f32, f0_0)).

Definition ortho (left right bottom top : float) : mat4 :=
  ((F32.of_Z 2 / (right - left), f0_0, f0_0, f0_0)%f32,
   (f0_0, F32.of_Z 2 / (top - bottom), f0_0, f0_0)%f32,
   (f0_0, f0_0, F32.opp f1_0, f0_0),
   (F32.opp ((right + left) / (right - left))%f32,
    F32.opp ((top + bottom) / (top - bottom))%f32, f0_0, f1_0)).

(** [(int) floor(x)] *)
Definition ifloor (x : float) : Z :=
  match x with
  | S754_finite s m e => Z.shiftl (cond_Zopp s (Zpos m)) e
  | _ => 0
  end.

Definition GetBakedQuad (chardata : list stbtt_bakedchar)
    (pw ph char_index : Z) (xpos ypos : float) (opengl_fillrule : Z)
    : float * float * stbtt_aligned_quad :=
  let d3d_bias := if opengl_fillrule =? 0 then fm0_5 else f0_0 in
  let ipw := (f1_0 / F32.of_Z pw)%f32 in
  let iph := (f1_0 / F32.of_Z ph)%f32 in
  let b := nth (Z.to_nat char_index) chardata zero_bakedchar in
  let round_x := ifloor ((xpos + bc_xoff b) + f0_5)%f32 in
  let round_y := ifloor ((ypos + bc_yoff b) + f0_5)%f32 in
  (((xpos + bc_xadvance b)%f32, ypos),
   {| x0 := (F32.of_Z round_x + d3d_bias)%f32;
      y0 := (F32.of_Z round_y + d3d_bias)%f32;
      s0 := (F32.of_Z (bc_x0 b) * ipw)%f32;
      t0 := (F32.of_Z (bc_y0 b) * iph)%f32;
      x1 := (F32.of_Z (round_x + bc_x1 b - bc_x0 b) + d3d_bias)%f32;
      y1 := (F32.of_Z (round_y + bc_y1 b - bc_y0 b) + d3d_bias)%f32;
      s1 := (F32.of_Z (bc_x1 b) * ipw)%f32;
      t1 := (F32.of_Z (bc_y1 b) * iph)%f32 |}).

(** A fixed-pitch font: glyph [i] fills a cell of [cell] by [cell] texels,
    the cells laid out row by row.  As stb_truetype does, the baker
    returns the first unused row when every glyph fits and minus the number
    of glyphs that fit when they do not. *)
Definition glyph (cell per_row i : Z) : stbtt_bakedchar :=
  {| bc_x0 := cell * (i mod per_row);
     bc_y0 := cell * (i / per_row);
     bc_x1 := cell * (i mod per_row) + cell - 2;
     bc_y1 := cell * (i / per_row) + cell - 2;
     bc_xoff := f1_0;
     bc_yoff := F32.opp (F32.of_Z (cell - 2));
     bc_xadvance := F32.of_Z cell |}.

Definition BakeFontBitmap (cell : Z) (data : list byte) (offset : Z)
    (pixel_height : float) (pw ph first_char num_chars : Z)
    : Z * list byte * list stbtt_bakedchar :=
  let per_row := pw / cell in
  let fit := Z.min num_chars (per_row * (ph / cell)) in
  (if fit <? num_chars then - fit
   else cell * ((num_chars + per_row - 1) / per_row),
   repeat x00 (Z.to_nat (pw * ph)),
   map (fun i => glyph cell per_row (Z.of_nat i)) (seq 0 (Z.to_nat fit))
   ++ repeat zero_bakedchar (Z.to_nat (num_chars - fit))).

Definition digits (n : Z) : string :=
  DecimalString.NilZero.string_of_uint (N.to_uint (Z.to_N n)).

(** Fixed notation with one digit after the point, ties to even. *)
Definition fixed_1 (x : float) : string :=
  match x with
  | S754_nan => "nan"
  | S754_infinity s => if s then "-inf" else "inf"
  | S754_zero s => if s then "-0.0" else "0.0"
  | S754_finite s m e =>
      let n := 10 * Zpos m in
      let tenths :=
        if 0 <=? e then Z.shiftl n e
        else
          let d := 2 ^ (- e) in
          let q := n / d in
          let r := n mod d in
          if 2 * r <? d then q
          else if d <? 2 * r then q + 1
          else if Z.even q then q else q + 1 in
      ((if s then "-" else "") ++ digits (tenths / 10) ++ "."
         ++ digits (tenths mod 10))%string
  end.

(** The speeds of the specification's example: 1.0 and 1.5. *)
Definition draw (lo hi : float) (n : nat) : float :=
  match n with O => f1_0 | _ => f1_5 end.

Definition font_file : File :=
  {| file_size := 4; file_read := [x00; x01; x00; x00] |}.

Definition env_with (status : list Ev.Call -> GLuint -> GLenum -> Z)
    (files : string -> option File) (cell : Z) : Env :=
  {| glm_mul := mul;
     glm_radians := radians;
     glm_rotate := rotate;
     glm_translate := translate;
     glm_perspective := perspective;
     glm_ortho := ortho;
     stbtt_BakeFontBitmap := BakeFontBitmap cell;
     stbtt_GetBakedQuad := GetBakedQuad;
     format_1f := fixed_1;
     rndDistrib := draw;
     gl_fresh := fun log => 1 + Z.of_nat (List.length log);
     gl_status := status;
     gl_info_log := fun _ _ => "0:1(1): error: syntax error"%string;
     gl_uniform_location := fun _ _ _ => 0;
     glfw_init_ok := true;
     glfw_window_ok := true;
     glad_ok := true;
     fs_open := files;
     heap_available := fun n => n <=? 65536;
     heap_contents := fun _ _ => xcd;
     char_is_signed := true |}.

(** Everything succeeds and the font fits the atlas. *)
Definition env : Env :=
  env_with (fun _ _ _ => 1) (fun _ => Some font_file) 32.

(** No shader compiles and no program links. *)
Definition env_broken_shaders : Env :=
  env_with (fun _ _ _ => 0) (fun _ => Some font_file) 32.

(** There is no font file. *)
Definition env_no_font : Env :=
  env_with (fun _ _ _ => 1) (fun _ => None) 32.

(** The font file opens and then cannot be read. *)
Definition env_unreadable_font : Env :=
  env_with (fun _ _ _ => 1)
           (fun _ => Some {| file_size := 4; file_read := [] |}) 32.

(** The glyphs are too large: only 64 of the 96 fit the atlas. *)
(** The stream opens but has no position: [ftell] returns -1. *)
Definition env_unsizable_font : Env :=
  env_with (fun _ _ _ => 1)
           (fun _ => Some {| file_size := -1; file_read := [] |}) 32.

Definition env_large_glyphs : Env :=
  env_with (fun _ _ _ => 1) (fun _ => Some font_file) 64.

(** No key is ever pressed and nobody closes the window: the events of
    [n] polls. *)
Definition idle_events : Events :=
  {| ev_keys := no_keys; ev_framebuffer := (900, 700); ev_close := false |}.

Definition idle_world (n : nat) : World :=
  {| w_keys := no_keys;
     w_framebuffer := (900, 700);
     w_should_close := false;
     w_pending := repeat idle_events n;
     w_globals := initial_globals;
     w_log := [] |}.

(** The user closes the window during the [n]-th poll. *)
Definition closing_world (n : nat) : World :=
  {| w_keys := no_keys;
     w_framebuffer := (900, 700);
     w_should_close := false;
     w_pending :=
       repeat idle_events n
       ++ [{| ev_keys := no_keys; ev_framebuffer := (900, 700);
              ev_close := true |}];
     w_globals := initial_globals;
     w_log := [] |}.

End Sample.

(** ** Further views and collaborators *)

(** Whether a character lies in the baked range, and the baked characters
    of a text. *)
Definition is_baked (c : ascii) : bool :=
  (32 <=? codepoint c) && (codepoint c <? 128).

Fixpoint baked_only (text : string) : string :=
  match text with
  | EmptyString => EmptyString
  | String c rest =>
      if is_baked c then String c (baked_only rest) else baked_only rest
  end.

Fixpoint baked_count (text : string) : nat :=
  match text with
  | EmptyString => O
  | String c rest =>
      if is_baked c then S (baked_count rest) else baked_count rest
  end.

(** The size in bytes of what an upload carries. *)
Definition data_bytes (d : Data) : Z :=
  match d with
  | NoData => 0
  | Floats l => 4 * Z.of_nat (List.length l)
  | UInts l => 4 * Z.of_nat (List.length l)
  | Bytes l => Z.of_nat (List.length l)
  end.

(** An update of the array buffer that stays inside [allocated] bytes and
    carries as many bytes as it announces. *)
Definition upload_fits (allocated : Z) (call : Ev.Call) : bool :=
  match call with
  | Ev.glBufferSubData target offset size data =>
      (0 <=? offset) && (offset + size <=? allocated)
      && (data_bytes data =? size)
  | _ => true
  end.

(** The texts written to the error stream. *)
Fixpoint cerr_texts (calls : list Ev.Call) : list string :=
  match calls with
  | [] => []
  | Ev.cerr text :: rest => text :: cerr_texts rest
  | _ :: rest => cerr_texts rest
  end.

(** The number of cube draws, one per frame. *)
Fixpoint cube_draws (calls : list Ev.Call) : nat :=
  match calls with
  | [] => O
  | Ev.glDrawElements _ _ _ _ :: rest => S (cube_draws rest)
  | _ :: rest => cube_draws rest
  end.

(** After how many iterations the loop test finds the close flag set,
    given the events to come, the key state and the flag; [None] when it
    never does.  The body raises the flag on the escape key and on a close
    request in the events it polls. *)
Fixpoint closes_within (pending : list Events) (keys : Key -> bool)
    (flag : bool) : option nat :=
  if flag then Some O
  else
    match pending with
    | [] => if keys GLFW_KEY_ESCAPE then Some 1%nat else None
    | ev :: rest =>
        option_map S
          (closes_within rest (ev_keys ev)
                         (keys GLFW_KEY_ESCAPE || ev_close ev))
    end.

(** The calls of the cleanup at the end of [main], Cubey.cpp:394-404. *)
Definition cleanup_calls (cubeShaderProgram VAO VBO EBO : GLuint)
    (g : Globals) : list Ev.Call :=
  [ Ev.glDeleteVertexArrays 1 VAO;
    Ev.glDeleteBuffers 1 VBO;
    Ev.glDeleteBuffers 1 EBO;
    Ev.glDeleteProgram cubeShaderProgram;
    Ev.glDeleteVertexArrays 1 (textVAO g);
    Ev.glDeleteBuffers 1 (textVBO g);
    Ev.glDeleteProgram (textShaderProgram g);
    Ev.glfwDestroyWindow;
    Ev.glfwTerminate ].

(** The calls of [main] up to and including the GLAD loader. *)
Definition window_calls : list Ev.Call :=
  [ Ev.glfwInit;
    Ev.glfwWindowHint GLFW_CONTEXT_VERSION_MAJOR 3;
    Ev.glfwWindowHint GLFW_CONTEXT_VERSION_MINOR 3;
    Ev.glfwWindowHint GLFW_OPENGL_PROFILE GLFW_OPENGL_CORE_PROFILE;
    Ev.glfwCreateWindow WIN_WIDTH WIN_HEIGHT "Cubey (GLFW)" ].

Definition context_calls : list Ev.Call :=
  window_calls
  ++ [ Ev.glfwMakeContextCurrent; Ev.glfwSetFramebufferSizeCallback;
       Ev.gladLoadGLLoader ].

(** The state [main] sets once the loader has run, Cubey.cpp:254-256. *)
Definition blend_calls : list Ev.Call :=
  [ Ev.glEnable GL_DEPTH_TEST; Ev.glEnable GL_BLEND;
    Ev.glBlendFunc GL_SRC_ALPHA GL_ONE_MINUS_SRC_ALPHA ].

(** The names the driver gives for the cube's vertex array and its two
    buffers, Cubey.cpp:302-304, in a run of [main] from the world [w]. *)
Definition cube_VAO (E : Env) (w : World) : GLuint :=
  gl_fresh E (w_log w ++ context_calls ++ blend_calls).

Definition cube_VBO (E : Env) (w : World) : GLuint :=
  gl_fresh E (w_log w ++ context_calls ++ blend_calls
              ++ [Ev.glGenVertexArrays 1]).

Definition cube_EBO (E : Env) (w : World) : GLuint :=
  gl_fresh E (w_log w ++ context_calls ++ blend_calls
              ++ [Ev.glGenVertexArrays 1; Ev.glGenBuffers 1]).

(** The calls of Cubey.cpp:302-318. *)
Definition geometry_calls (VAO VBO EBO : GLuint) : list Ev.Call :=
  [ Ev.glGenVertexArrays 1; Ev.glGenBuffers 1; Ev.glGenBuffers 1;
    Ev.glBindVertexArray VAO;
    Ev.glBindBuffer GL_ARRAY_BUFFER VBO;
    Ev.glBufferData GL_ARRAY_BUFFER (4 * Z.of_nat (List.length vertices))
                    (Floats vertices) GL_STATIC_DRAW;
    Ev.glBindBuffer GL_ELEMENT_ARRAY_BUFFER EBO;
    Ev.glBufferData GL_ELEMENT_ARRAY_BUFFER
                    (4 * Z.of_nat (List.length indices))
                    (UInts indices) GL_STATIC_DRAW;
    Ev.glVertexAttribPointer 0 3 GL_FLOAT false (6 * 4) 0;
    Ev.glEnableVertexAttribArray 0;
    Ev.glVertexAttribPointer 1 3 GL_FLOAT false (6 * 4) (3 * 4);
    Ev.glEnableVertexAttribArray 1 ].

(** [main] cut at the calls it makes once the window system is up: the
    world after the geometry, the two calls of [createShaderProgram], the
    world in which [loadFont] is called, that call, and the loop. *)
Definition geometry_world (E : Env) (w : World) : World :=
  log_more (context_calls ++ blend_calls
            ++ geometry_calls (cube_VAO E w) (cube_VBO E w) (cube_EBO E w))
           w.

Definition cube_program (E : Env) (w : World) : GLuint * World :=
  createShaderProgram E vertexShaderSource fragmentShaderSource
                      (geometry_world E w).

Definition text_program (E : Env) (w : World) : GLuint * World :=
  createShaderProgram E textVertexShaderSource textFragmentShaderSource
                      (snd (cube_program E w)).

Definition font_world (E : Env) (w : World) : World :=
  with_globals
    {| textVAO := textVAO (w_globals (snd (text_program E w)));
       textVBO := textVBO (w_globals (snd (text_program E w)));
       textShaderProgram := fst (text_program E w);
       charData := charData (w_globals (snd (text_program E w)));
       fontTexture := fontTexture (w_globals (snd (text_program E w))) |}
    (snd (text_program E w)).

Definition font_loaded (E : Env) (w : World) : Outcome unit * World :=
  loadFont E "arial.ttf" (font_world E w).

Definition main_loop (E : Env) (fuel : nat) (w : World)
    : Outcome (float * float) * World :=
  render_loop E fuel (fst (cube_program E w)) (cube_VAO E w)
    (glm_perspective E (glm_radians E f45_0) f800_over_600 f0_1 f100_0)
    (glm_translate E (mat4_diag f1_0) (f0_0, f0_0, fm3_0))
    (rndDistrib E f0_1 f2_0 0) (rndDistrib E f0_1 f2_0 1)
    (f0_0, f0_0) (snd (font_loaded E w)).

(** The uniform matrix uploads and the cube draws of a list of calls. *)
Fixpoint matrices_uploaded (calls : list Ev.Call) : list mat4 :=
  match calls with
  | [] => []
  | Ev.glUniformMatrix4fv _ _ _ m :: rest => m :: matrices_uploaded rest
  | _ :: rest => matrices_uploaded rest
  end.

(** Both angles between -360 and 360, the ends included. *)
Definition within_360 (rotation : float * float) : bool :=
  (fm360 <=? fst rotation)%f32 && (fst rotation <=? f360)%f32
  && (fm360 <=? snd rotation)%f32 && (snd rotation <=? f360)%f32.

(** Variants of a set of collaborators. *)
Module Variant.

(** A window system in which the three start-up steps succeed or fail as
    given. *)
Definition window_system (init window glad : bool) (E : Env) : Env :=
  {| glm_mul := glm_mul E;
     glm_radians := glm_radians E;
     glm_rotate := glm_rotate E;
     glm_translate := glm_translate E;
     glm_perspective := glm_perspective E;
     glm_ortho := glm_ortho E;
     stbtt_BakeFontBitmap := stbtt_BakeFontBitmap E;
     stbtt_GetBakedQuad := stbtt_GetBakedQuad E;
     format_1f := format_1f E;
     rndDistrib := rndDistrib E;
     gl_fresh := gl_fresh E;
     gl_status := gl_status E;
     gl_info_log := gl_info_log E;
     gl_uniform_location := gl_uniform_location E;
     glfw_init_ok := init;
     glfw_window_ok := window;
     glad_ok := glad;
     fs_open := fs_open E;
     heap_available := heap_available E;
     heap_contents := heap_contents E;
     char_is_signed := char_is_signed E |}.

(** A platform on which plain char has the given signedness and whose
    quad placement answers only for the 96 baked glyphs of a 512 by 512
    atlas laid out with the OpenGL fill rule. *)
Definition text_platform (signed : bool) (E : Env) : Env :=
  {| glm_mul := glm_mul E;
     glm_radians := glm_radians E;
     glm_rotate := glm_rotate E;
     glm_translate := glm_translate E;
     glm_perspective := glm_perspective E;
     glm_ortho := glm_ortho E;
     stbtt_BakeFontBitmap := stbtt_BakeFontBitmap E;
     stbtt_GetBakedQuad :=
       fun chardata pw ph index x y fillrule =>
         if (pw =? 512) && (ph =? 512) && (0 <=? index) && (index <? 96)
            && (fillrule =? 1)
         then stbtt_GetBakedQuad E chardata pw ph index x y fillrule
         else (f0_0, f0_0,
               {| x0 := f0_0; y0 := f0_0; s0 := f0_0; t0 := f0_0;
                  x1 := f0_0; y1 := f0_0; s1 := f0_0; t1 := f0_0 |});
     format_1f := format_1f E;
     rndDistrib := rndDistrib E;
     gl_fresh := gl_fresh E;
     gl_status := gl_status E;
     gl_info_log := gl_info_log E;
     gl_uniform_location := gl_uniform_location E;
     glfw_init_ok := glfw_init_ok E;
     glfw_window_ok := glfw_window_ok E;
     glad_ok := glad_ok E;
     fs_open := fs_open E;
     heap_available := heap_available E;
     heap_contents := heap_contents E;
     char_is_signed := signed |}.

(** The escape key is held and nothing is pending. *)
Definition escape_world : World :=
  {| w_keys := only_key GLFW_KEY_ESCAPE;
     w_framebuffer := (900, 700);
     w_should_close := false;
     w_pending := [];
     w_globals := initial_globals;
     w_log := [] |}.

End Variant.

(* ================================================================= *)
(** * Theorems *)

(** ** Floats *)

Lemma SFcompare_antisym (a b : float) :
  SFcompare b a = option_map CompOpp (SFcompare a b).
Proof.
  destruct a as [sa|sa| |sa ma ea], b as [sb|sb| |sb mb eb];
    cbn [SFcompare option_map];
    try reflexivity;
    try (destruct sa; try destruct sb; reflexivity);
    try (destruct sb; reflexivity).
  destruct sa, sb; try reflexivity;
    rewrite (Z.compare_antisym ea eb); destruct (ea ?= eb);
    cbn [CompOpp]; try reflexivity.
  - do 2 f_equal. symmetry. exact (Pos.compare_cont_antisym ma mb Eq).
  - f_equal. symmetry. exact (Pos.compare_cont_antisym ma mb Eq).
Qed.

Lemma not_lt_le (a b : float) :
  F32.is_nan a = false -> F32.is_nan b = false ->
  F32.ltb b a = false -> F32.leb a b = true.
Proof.
  unfold F32.ltb, F32.leb, SFltb, SFleb. intros Ha Hb.
  rewrite (SFcompare_antisym a b).
  destruct (SFcompare a b) as [[ | | ]|] eqn:Hc; cbn; try congruence.
  destruct a, b; try discriminate; cbn in Hc; try discriminate;
    repeat match type of Hc with context [if ?s then _ else _] =>
      destruct s end; discriminate.
Qed.

(** Rounding a non-negative mantissa never produces a NaN. *)
Lemma shr_1_nonneg (mrs : shr_record) :
  0 <= shr_m mrs -> 0 <= shr_m (shr_1 mrs).
Proof.
  destruct mrs as [m r s]; cbn [shr_m].
  destruct m as [|p|p]; [ | destruct p | ]; cbn; lia.
Qed.

Lemma iter_pos_invariant {A : Type} (P : A -> Prop) (f : A -> A) :
  (forall x, P x -> P (f x)) ->
  forall (n : positive) (x : A), P x -> P (iter_pos f n x).
Proof.
  intros Hf. induction n as [n IH|n IH|]; intros x Hx; cbn; auto.
Qed.

Lemma shr_nonneg (mrs : shr_record) (e n : Z) :
  0 <= shr_m mrs -> 0 <= shr_m (fst (shr mrs e n)).
Proof.
  intros H. destruct n as [|p|p]; cbn; trivial.
  apply (iter_pos_invariant (fun r => 0 <= shr_m r)); trivial.
  exact shr_1_nonneg.
Qed.

Lemma shr_fexp_nonneg (m e : Z) (l : location) :
  0 <= m -> 0 <= shr_m (fst (shr_fexp F32.prec F32.emax m e l)).
Proof.
  intros H. unfold shr_fexp. apply shr_nonneg.
  destruct l as [|[ | | ]]; exact H.
Qed.

Lemma round_nearest_even_nonneg (m : Z) (l : location) :
  0 <= m -> 0 <= round_nearest_even m l.
Proof.
  intros H. destruct l as [|[ | | ]]; cbn; try lia.
  destruct (Z.even m); lia.
Qed.

Lemma binary_round_aux_not_nan (s : bool) (m e : Z) (l : location) :
  0 <= m ->
  F32.is_nan (binary_round_aux F32.prec F32.emax s m e l) = false.
Proof.
  intros H. unfold binary_round_aux.
  pose proof (shr_fexp_nonneg m e l H) as H1.
  destruct (shr_fexp F32.prec F32.emax m e l) as [mrs1 e1]; cbn [fst] in H1.
  pose proof (shr_fexp_nonneg _ e1 loc_Exact
                (round_nearest_even_nonneg _ (loc_of_shr_record mrs1) H1)) as H2.
  destruct (shr_fexp F32.prec F32.emax _ e1 loc_Exact) as [mrs2 e2];
    cbn [fst] in H2.
  destruct (shr_m mrs2) as [|p|p]; try reflexivity; try lia.
  destruct (e2 <=? F32.emax - F32.prec); reflexivity.
Qed.

Lemma binary_normalize_not_nan (m e : Z) (s : bool) :
  F32.is_nan (binary_normalize F32.prec F32.emax m e s) = false.
Proof.
  destruct m as [|p|p]; cbn [binary_normalize]; try reflexivity;
    unfold binary_round;
    destruct (shl_align p e _) as [mz ez];
    apply binary_round_aux_not_nan; lia.
Qed.

Lemma add_not_nan (a b : float) :
  F32.is_nan a = false -> F32.is_finite b = true ->
  F32.is_nan (a + b)%f32 = false.
Proof.
  destruct a as [sa|sa| |sa ma ea], b as [sb|sb| |sb mb eb];
    try discriminate; intros _ _; unfold F32.add; cbn [SFadd];
    try reflexivity.
  - destruct sa, sb; reflexivity.
  - apply binary_normalize_not_nan.
Qed.

Lemma sub_not_nan (a b : float) :
  F32.is_nan a = false -> F32.is_finite b = true ->
  F32.is_nan (a - b)%f32 = false.
Proof.
  destruct a as [sa|sa| |sa ma ea], b as [sb|sb| |sb mb eb];
    try discriminate; intros _ _; unfold F32.sub; cbn [SFsub];
    try reflexivity.
  - destruct sa, sb; reflexivity.
  - apply binary_normalize_not_nan.
Qed.

(** ** Rotation *)

Lemma key_adjust_not_nan (keys : Key -> bool) (minus plus : Key) (r : float) :
  F32.is_nan r = false -> F32.is_nan (key_adjust keys minus plus r) = false.
Proof.
  intros H. unfold key_adjust.
  assert (H1 : F32.is_nan (if keys minus then (r - f2_0)%f32 else r) = false)
    by (destruct (keys minus); [apply sub_not_nan|]; auto).
  destruct (keys plus); [apply add_not_nan|]; auto.
Qed.

Lemma incremented_not_nan (keys : Key -> bool) (minus plus : Key)
    (speed r : float) :
  F32.is_nan r = false -> F32.is_finite speed = true ->
  F32.is_nan (incremented keys minus plus speed r) = false.
Proof.
  intros Hr Hs. unfold incremented.
  apply add_not_nan; [apply key_adjust_not_nan|]; assumption.
Qed.

Lemma wrap_within (r : float) :
  F32.is_nan r = false ->
  (fm360 <=? wrap r)%f32 = true /\ (wrap r <=? f360)%f32 = true.
Proof.
  intros Hr. unfold wrap, exceeds.
  destruct (r >? f360)%f32 eqn:Hhi; cbn [orb]; [split; reflexivity|].
  destruct (r <? fm360)%f32 eqn:Hlo; [split; reflexivity|].
  split; apply not_lt_le; auto.
Qed.

(** [advance] computes [next_angles] of the key state it finds. *)
Lemma advance_angles (speedX speedY : float) (rotation : float * float)
    (w : World) :
  fst (advance speedX speedY rotation w)
  = next_angles (w_keys w) speedX speedY rotation.
Proof.
  unfold advance, processInput, bind, when, glfwGetKey, ask, ret.
  cbn. destruct (w_keys w GLFW_KEY_ESCAPE); reflexivity.
Qed.

Lemma within_360_finite (r : float) :
  (fm360 <=? r)%f32 = true -> (r <=? f360)%f32 = true ->
  F32.is_finite r = true.
Proof.
  destruct r as [s|s| |s m e]; try reflexivity.
  - destruct s; cbn; discriminate.
  - cbn; discriminate.
Qed.

(** C1, as amended.  One rotation update (key adjustments, then the two
    speeds, then the wrap test) leaves both angles between -360 and 360,
    both ends included, whenever the angles it starts from are numbers and
    the speeds are finite; the angles it leaves are finite again, so the
    bound holds frame after frame. *)
Theorem angles_stay_within_360
    (speedX speedY rotationX rotationY : float) (w : World) :
  F32.is_nan rotationX = false -> F32.is_nan rotationY = false ->
  F32.is_finite speedX = true -> F32.is_finite speedY = true ->
  let rotation' := fst (advance speedX speedY (rotationX, rotationY) w) in
  ((fm360 <=? fst rotation')%f32 = true /\
   (fst rotation' <=? f360)%f32 = true /\
   F32.is_finite (fst rotation') = true) /\
  ((fm360 <=? snd rotation')%f32 = true /\
   (snd rotation' <=? f360)%f32 = true /\
   F32.is_finite (snd rotation') = true).
Proof.
  intros Hx Hy Hsx Hsy. cbv zeta. rewrite advance_angles.
  unfold next_angles; cbn [fst snd].
  split.
  - destruct (wrap_within (incremented (w_keys w) GLFW_KEY_UP GLFW_KEY_DOWN
                             speedX rotationX)) as [Hlo Hhi];
      [apply incremented_not_nan; assumption|].
    auto using within_360_finite.
  - destruct (wrap_within (incremented (w_keys w) GLFW_KEY_LEFT GLFW_KEY_RIGHT
                             speedY rotationY)) as [Hlo Hhi];
      [apply incremented_not_nan; assumption|].
    auto using within_360_finite.
Qed.

Lemma angles_stay_within_360_witness :
  let rotation' :=
    fst (advance f1_0 f1_5 (F32.of_Z 359, F32.of_Z (-359))
                 (quiet_world (only_key GLFW_KEY_LEFT))) in
  ((fm360 <=? fst rotation')%f32 = true /\
   (fst rotation' <=? f360)%f32 = true /\
   F32.is_finite (fst rotation') = true) /\
  ((fm360 <=? snd rotation')%f32 = true /\
   (snd rotation' <=? f360)%f32 = true /\
   F32.is_finite (snd rotation') = true).
Proof.
  apply (angles_stay_within_360 f1_0 f1_5 (F32.of_Z 359) (F32.of_Z (-359)));
    reflexivity.
Defined.

(** C1, as the specification words it, fails at the lower end: with the
    up key held, speed 1.0 and angleX = -359.0, the update leaves angleX at
    exactly -360.0, which is not greater than -360. *)
Lemma lower_bound_is_attained :
  let rotation' :=
    fst (advance f1_0 f1_5 (F32.of_Z (-359), f0_0)
                 (quiet_world (only_key GLFW_KEY_UP))) in
  fst rotation' = fm360 /\
  ~ ((fm360 <? fst rotation')%f32 = true /\
     (fst rotation' <=? f360)%f32 = true).
Proof.
  split; [reflexivity|]. intros [H _]. vm_compute in H. discriminate.
Qed.

(** The state of that counterexample is one the program reaches: from
    the initial angles, 359 frames with the up key held at speed 1.0. *)
Lemma minus_359_is_reached :
  fst (fst (advance_n 359 f1_0 f1_5 (f0_0, f0_0)
                      (quiet_world (only_key GLFW_KEY_UP))))
  = F32.of_Z (-359).
Proof. vm_compute. reflexivity. Qed.

(** C2.  Whenever the angle, after the key adjustment and the speed have
    been added, is greater than 360 or less than -360, the update leaves
    it at exactly 0.0; so from angleX = 359.0 at speed 2.0 with no key
    held the next angleX is 0.0, not the 1.0 that 361 modulo 360 would
    give. *)
Theorem wrap_resets_to_zero :
  (forall (speedX speedY : float) (rotation : float * float) (w : World),
      let r := incremented (w_keys w) GLFW_KEY_UP GLFW_KEY_DOWN
                           speedX (fst rotation) in
      (r >? f360)%f32 = true \/ (r <? fm360)%f32 = true ->
      fst (fst (advance speedX speedY rotation w)) = f0_0) /\
  (forall (speedX speedY : float) (rotation : float * float) (w : World),
      let r := incremented (w_keys w) GLFW_KEY_LEFT GLFW_KEY_RIGHT
                           speedY (snd rotation) in
      (r >? f360)%f32 = true \/ (r <? fm360)%f32 = true ->
      snd (fst (advance speedX speedY rotation w)) = f0_0) /\
  (forall (speedY rotationY : float),
      let rotation' :=
        fst (advance f2_0 speedY (F32.of_Z 359, rotationY)
                     (quiet_world no_keys)) in
      incremented no_keys GLFW_KEY_UP GLFW_KEY_DOWN f2_0 (F32.of_Z 359)
        = F32.of_Z 361 /\
      fst rotation' = f0_0 /\ fst rotation' <> f1_0).
Proof.
  split; [|split].
  - intros sx sy rot w r H. rewrite advance_angles.
    unfold next_angles, wrap, exceeds; cbn [fst]. fold r.
    destruct H as [H|H]; rewrite H; [|rewrite orb_true_r]; reflexivity.
  - intros sx sy rot w r H. rewrite advance_angles.
    unfold next_angles, wrap, exceeds; cbn [snd]. fold r.
    destruct H as [H|H]; rewrite H; [|rewrite orb_true_r]; reflexivity.
  - intros sy ry rotation'. subst rotation'. rewrite advance_angles.
    unfold next_angles; cbn [fst].
    split; [reflexivity|]. split; [reflexivity|].
    vm_compute. discriminate.
Qed.

Lemma wrap_resets_to_zero_witness :
  fst (fst (advance f2_0 f1_5 (F32.of_Z 359, f0_0) (quiet_world no_keys)))
  = f0_0.
Proof.
  apply (proj1 wrap_resets_to_zero f2_0 f1_5 (F32.of_Z 359, f0_0)
               (quiet_world no_keys)).
  left. reflexivity.
Defined.

(** ** Running the monad *)

Lemma bind_run {A B : Type} (m : M A) (k : A -> M B) (w : World) :
  bind m k w = k (fst (m w)) (snd (m w)).
Proof. reflexivity. Qed.

Lemma ret_run {A : Type} (a : A) (w : World) : ret a w = (a, w).
Proof. reflexivity. Qed.

Lemma call_run (c : Ev.Call) (w : World) : call c w = (tt, log_more [c] w).
Proof. reflexivity. Qed.

Lemma ask_run {A : Type} (c : Ev.Call) (f : World -> A) (w : World) :
  ask c f w = (f w, log_more [c] w).
Proof. reflexivity. Qed.

Lemma get_globals_run (w : World) : get_globals w = (w_globals w, w).
Proof. reflexivity. Qed.

Lemma log_more_nil (w : World) : log_more [] w = w.
Proof. destruct w; unfold log_more; cbn. now rewrite app_nil_r. Qed.

Lemma log_more_app (l1 l2 : list Ev.Call) (w : World) :
  log_more l2 (log_more l1 w) = log_more (l1 ++ l2) w.
Proof. unfold log_more; cbn. now rewrite app_assoc. Qed.

Lemma w_globals_log_more (l : list Ev.Call) (w : World) :
  w_globals (log_more l w) = w_globals w.
Proof. reflexivity. Qed.

Lemma w_keys_log_more (l : list Ev.Call) (w : World) :
  w_keys (log_more l w) = w_keys w.
Proof. reflexivity. Qed.

Lemma w_framebuffer_log_more (l : list Ev.Call) (w : World) :
  w_framebuffer (log_more l w) = w_framebuffer w.
Proof. reflexivity. Qed.

Lemma w_should_close_log_more (l : list Ev.Call) (w : World) :
  w_should_close (log_more l w) = w_should_close w.
Proof. reflexivity. Qed.

Lemma w_pending_log_more (l : list Ev.Call) (w : World) :
  w_pending (log_more l w) = w_pending w.
Proof. reflexivity. Qed.

Lemma w_log_log_more (l : list Ev.Call) (w : World) :
  w_log (log_more l w) = w_log w ++ l.
Proof. reflexivity. Qed.

Create Rewrite HintDb run.
#[local] Hint Rewrite @bind_run @ret_run call_run @ask_run get_globals_run
  log_more_app w_globals_log_more w_keys_log_more w_framebuffer_log_more
  w_should_close_log_more w_pending_log_more w_log_log_more : run.

Lemma set_globals_run (g : Globals) (w : World) :
  set_globals g w = (tt, with_globals g w).
Proof. reflexivity. Qed.

Lemma log_more_with_globals (l : list Ev.Call) (g : Globals) (w : World) :
  log_more l (with_globals g w) = with_globals g (log_more l w).
Proof. reflexivity. Qed.

Lemma with_globals_twice (g g' : Globals) (w : World) :
  with_globals g (with_globals g' w) = with_globals g w.
Proof. reflexivity. Qed.

Lemma w_globals_with_globals (g : Globals) (w : World) :
  w_globals (with_globals g w) = g.
Proof. reflexivity. Qed.

Lemma w_log_with_globals (g : Globals) (w : World) :
  w_log (with_globals g w) = w_log w.
Proof. reflexivity. Qed.

Lemma w_keys_with_globals (g : Globals) (w : World) :
  w_keys (with_globals g w) = w_keys w.
Proof. reflexivity. Qed.

Lemma w_framebuffer_with_globals (g : Globals) (w : World) :
  w_framebuffer (with_globals g w) = w_framebuffer w.
Proof. reflexivity. Qed.

Lemma w_should_close_with_globals (g : Globals) (w : World) :
  w_should_close (with_globals g w) = w_should_close w.
Proof. reflexivity. Qed.

Lemma w_pending_with_globals (g : Globals) (w : World) :
  w_pending (with_globals g w) = w_pending w.
Proof. reflexivity. Qed.

#[local] Hint Rewrite set_globals_run log_more_with_globals with_globals_twice
  w_globals_with_globals w_log_with_globals w_keys_with_globals
  w_framebuffer_with_globals w_should_close_with_globals
  w_pending_with_globals : run.

Ltac run := repeat (autorewrite with run; cbn [fst snd]).

(** One statement at a time, for long bodies: the world is kept in the form
    [with_globals g (log_more calls w)] after every step. *)
Lemma bind_call {A : Type} (c : Ev.Call) (k : unit -> M A) (w : World) :
  bind (call c) k w = k tt (log_more [c] w).
Proof. reflexivity. Qed.

Lemma bind_ask {A B : Type} (c : Ev.Call) (f : World -> A) (k : A -> M B)
    (w : World) :
  bind (ask c f) k w = k (f w) (log_more [c] w).
Proof. reflexivity. Qed.

Lemma bind_get_globals {A : Type} (k : Globals -> M A) (w : World) :
  bind get_globals k w = k (w_globals w) w.
Proof. reflexivity. Qed.

Lemma bind_set_globals {A : Type} (g : Globals) (k : unit -> M A)
    (w : World) :
  bind (set_globals g) k w = k tt (with_globals g w).
Proof. reflexivity. Qed.

Ltac tidy :=
  cbv beta;
  rewrite ?log_more_with_globals, ?with_globals_twice, ?log_more_app,
    ?w_globals_with_globals, ?w_globals_log_more, ?w_log_with_globals,
    ?w_log_log_more, ?w_keys_with_globals, ?w_keys_log_more,
    ?w_framebuffer_with_globals, ?w_framebuffer_log_more;
  cbn [fst snd app].

Ltac step :=
  first [ rewrite bind_call | rewrite bind_ask | rewrite bind_get_globals
        | rewrite bind_set_globals ];
  tidy.

Ltac steps := repeat step.

(** The same, with logs brought to the form [w_log w ++ [c1; ...; cn]]. *)
Ltac norm :=
  repeat (autorewrite with run; rewrite <- ?app_assoc; cbn [fst snd app]).

Lemma skipn_length_app {A : Type} (l1 l2 : list A) :
  skipn (List.length l1) (l1 ++ l2) = l2.
Proof. induction l1; cbn; auto. Qed.

(** What a run issued, read off the log it leaves. *)
Lemma issued_of_log {A : Type} (m : M A) (w : World) (calls : list Ev.Call) :
  w_log (snd (m w)) = w_log w ++ calls -> issued m w = calls.
Proof. unfold issued. intros ->. apply skipn_length_app. Qed.

Lemma issued_log_more {A : Type} (m : M A) (w : World) (calls : list Ev.Call) :
  snd (m w) = log_more calls w -> issued m w = calls.
Proof. intros H. apply issued_of_log. now rewrite H. Qed.

(** ** Text *)

Section Text.

Variable E : Env.

Lemma renderText_loop_run (text : string) :
  forall (x y : float) (w : World),
    renderText_loop E text x y w
    = (snd (layout E (charData (w_globals w)) text x y),
       log_more (flat_map (glyph_calls (textVBO (w_globals w)))
                          (fst (layout E (charData (w_globals w)) text x y)))
                w).
Proof.
  induction text as [|c rest IH]; intros x y w; cbn [renderText_loop layout].
  - cbn. now rewrite log_more_nil.
  - destruct ((32 <=? char_value E c) && (char_value E c <? 128)).
    + run.
      destruct (stbtt_GetBakedQuad E (charData (w_globals w)) 512 512
                  (char_value E c - 32) x y 1) as [[x' y'] q].
      run. rewrite IH. run. reflexivity.
    + apply IH.
Qed.

Lemma renderText_run (text : string) (x y scale : float) (w : World) :
  renderText E text x y scale w
  = (tt, log_more (renderText_calls E (w_globals w) (textColor_location E w)
                                    text x y) w).
Proof.
  unfold renderText, glGetUniformLocation. run.
  rewrite renderText_loop_run. run. reflexivity.
Qed.

Lemma renderText_issued (text : string) (x y scale : float) (w : World) :
  issued (renderText E text x y scale) w
  = renderText_calls E (w_globals w) (textColor_location E w) text x y.
Proof. apply issued_log_more. now rewrite renderText_run. Qed.

Lemma quads_uploaded_app (l1 l2 : list Ev.Call) :
  quads_uploaded (l1 ++ l2) = quads_uploaded l1 ++ quads_uploaded l2.
Proof.
  induction l1 as [|c l1 IH]; [reflexivity|].
  destruct c; cbn; try exact IH.
  destruct data; cbn; rewrite ?IH; reflexivity.
Qed.

Lemma glyph_draws_app (l1 l2 : list Ev.Call) :
  glyph_draws (l1 ++ l2) = (glyph_draws l1 + glyph_draws l2)%nat.
Proof.
  induction l1 as [|c l1 IH]; [reflexivity|].
  destruct c; cbn; rewrite ?IH; reflexivity.
Qed.

Lemma quads_uploaded_glyphs (vbo : GLuint) (qs : list stbtt_aligned_quad) :
  quads_uploaded (flat_map (glyph_calls vbo) qs) = map quad_vertices qs.
Proof. induction qs as [|q qs IH]; cbn; [|rewrite IH]; reflexivity. Qed.

Lemma glyph_draws_glyphs (vbo : GLuint) (qs : list stbtt_aligned_quad) :
  glyph_draws (flat_map (glyph_calls vbo) qs) = List.length qs.
Proof. induction qs as [|q qs IH]; cbn; [|rewrite IH]; reflexivity. Qed.

(** The quads [renderText] uploads are those of [layout], one draw each. *)
Lemma renderText_quads (text : string) (x y scale : float) (w : World) :
  quads_uploaded (issued (renderText E text x y scale) w)
  = map quad_vertices
        (fst (layout E (charData (w_globals w)) text x y)).
Proof.
  rewrite renderText_issued. unfold renderText_calls.
  rewrite !quads_uploaded_app, quads_uploaded_glyphs. cbn.
  now rewrite app_nil_r.
Qed.

Lemma renderText_draws (text : string) (x y scale : float) (w : World) :
  glyph_draws (issued (renderText E text x y scale) w)
  = List.length (fst (layout E (charData (w_globals w)) text x y)).
Proof.
  rewrite renderText_issued. unfold renderText_calls.
  rewrite !glyph_draws_app, glyph_draws_glyphs. cbn. lia.
Qed.

(** The range test on a [char] is the range test on its codepoint, whether
    [char] is signed or not. *)
Lemma char_value_in_range (c : ascii) :
  (32 <=? char_value E c) && (char_value E c <? 128)
  = (32 <=? codepoint c) && (codepoint c <? 128).
Proof.
  unfold char_value, codepoint.
  pose proof (N_ascii_bounded c) as Hb.
  destruct (char_is_signed E); cbn [andb]; [|reflexivity].
  destruct (128 <=? Z.of_N (N_of_ascii c)) eqn:H128; [|reflexivity].
  apply Z.leb_le in H128.
  transitivity false; [|symmetry];
    apply andb_false_iff; [left; apply Z.leb_gt|right; apply Z.ltb_ge]; lia.
Qed.

Lemma layout_skips (baked : list stbtt_bakedchar) (text : string) :
  Forall outside_baked_range (list_ascii_of_string text) ->
  forall x y : float, layout E baked text x y = ([], (x, y)).
Proof.
  induction text as [|c rest IH]; intros H x y; [reflexivity|].
  cbn [list_ascii_of_string] in H. inversion H as [|? ? Hc Hrest]; subst.
  cbn [layout]. rewrite char_value_in_range.
  replace ((32 <=? codepoint c) && (codepoint c <? 128)) with false;
    [apply IH; assumption|].
  symmetry. apply andb_false_iff. unfold outside_baked_range in Hc.
  destruct (32 <=? codepoint c) eqn:H32; [right|left; reflexivity].
  apply Z.leb_le in H32. apply Z.ltb_ge. lia.
Qed.

Lemma layout_app (baked : list stbtt_bakedchar) (text1 text2 : string) :
  forall x y : float,
    layout E baked (text1 ++ text2) x y
    = (fst (layout E baked text1 x y)
         ++ fst (layout E baked text2
                        (fst (snd (layout E baked text1 x y)))
                        (snd (snd (layout E baked text1 x y)))),
       snd (layout E baked text2
                   (fst (snd (layout E baked text1 x y)))
                   (snd (snd (layout E baked text1 x y))))).
Proof.
  induction text1 as [|c rest IH]; intros x y.
  - cbn. now destruct (layout E baked text2 x y).
  - cbn [append layout].
    destruct ((32 <=? char_value E c) && (char_value E c <? 128)).
    + destruct (stbtt_GetBakedQuad E baked 512 512 (char_value E c - 32) x y 1)
        as [[x' y'] q].
      rewrite IH. reflexivity.
    + apply IH.
Qed.

(** C4.  Laying out the empty string uploads no quad, and so does laying
    out a text whose characters all have a codepoint outside 32..127: no
    glyph is drawn and the pen ends where it started. *)
Theorem unbaked_characters_are_skipped :
  (forall (x y scale : float) (w : World),
      quads_uploaded (issued (renderText E "" x y scale) w) = []) /\
  (forall (text : string) (x y scale : float) (w : World),
      Forall outside_baked_range (list_ascii_of_string text) ->
      quads_uploaded (issued (renderText E text x y scale) w) = [] /\
      glyph_draws (issued (renderText E text x y scale) w) = O /\
      fst (renderText_loop E text x y w) = (x, y)).
Proof.
  split.
  - intros x y scale w. now rewrite renderText_quads.
  - intros text x y scale w H.
    rewrite renderText_quads, renderText_draws, renderText_loop_run.
    rewrite (layout_skips _ _ H). repeat split.
Qed.

(** C5.  The pen advance is additive.  Rendering "AB" uploads the quad of
    "A" followed by the quad that "B" gets when it is rendered from the pen
    position where "A" ended; so the second quad of "AB", and its origin,
    are those of that "B", and both ways end with the same pen. *)
Theorem pen_advance_is_additive (x y scale : float) (w : World) :
  let penA := fst (renderText_loop E "A" x y w) in
  let quadsAB := quads_uploaded (issued (renderText E "AB" x y scale) w) in
  let quadsA := quads_uploaded (issued (renderText E "A" x y scale) w) in
  let quadsB :=
    quads_uploaded
      (issued (renderText E "B" (fst penA) (snd penA) scale)
              (snd (renderText E "A" x y scale w))) in
  quadsAB = quadsA ++ quadsB /\
  List.length quadsA = 1%nat /\ List.length quadsB = 1%nat /\
  nth 1 quadsAB [] = nth 0 quadsB [] /\
  origin (nth 1 quadsAB []) = origin (nth 0 quadsB []) /\
  fst (renderText_loop E "AB" x y w)
  = fst (renderText_loop E "B" (fst penA) (snd penA)
                         (snd (renderText E "A" x y scale w))).
Proof.
  cbv zeta. rewrite !renderText_quads, !renderText_loop_run.
  rewrite renderText_run. cbn [fst snd]. rewrite w_globals_log_more.
  change "AB"%string with ("A" ++ "B")%string.
  rewrite layout_app. cbn [fst snd]. rewrite map_app.
  set (baked := charData (w_globals w)).
  assert (HA : exists q pen, layout E baked "A" x y = ([q], pen)).
  { cbn [layout]. rewrite char_value_in_range. cbn.
    destruct (stbtt_GetBakedQuad E baked 512 512 _ x y 1) as [[x' y'] q].
    cbn. eauto. }
  destruct HA as (qa & penA & HA). rewrite HA. cbn [fst snd].
  assert (HB : exists q pen,
             layout E baked "B" (fst penA) (snd penA) = ([q], pen)).
  { cbn [layout]. rewrite char_value_in_range. cbn.
    destruct (stbtt_GetBakedQuad E baked 512 512 _ _ _ 1) as [[x' y'] q].
    cbn. eauto. }
  destruct HB as (qb & penB & HB). rewrite HB. cbn.
  repeat split.
Qed.

(** C10.  The scale argument of [renderText] is never read: two calls that
    differ only in it do the same thing, so they upload the same quads. *)
Theorem scale_is_ignored (text : string) (x y scale1 scale2 : float)
    (w : World) :
  renderText E text x y scale1 w = renderText E text x y scale2 w /\
  quads_uploaded (issued (renderText E text x y scale1) w)
  = quads_uploaded (issued (renderText E text x y scale2) w).
Proof. split; reflexivity. Qed.

End Text.

(** A tab, a byte above 127 and a DEL are all outside the baked range. *)
Lemma unbaked_characters_are_skipped_witness :
  let text := String (ascii_of_nat 9)
                (String (ascii_of_nat 200)
                   (String (ascii_of_nat 128) EmptyString)) in
  let w := quiet_world no_keys in
  quads_uploaded (issued (renderText Sample.env text f25_0 f50_0 f1_0) w) = []
  /\ glyph_draws (issued (renderText Sample.env text f25_0 f50_0 f1_0) w) = O
  /\ fst (renderText_loop Sample.env text f25_0 f50_0 w) = (f25_0, f50_0).
Proof.
  apply (proj2 (unbaked_characters_are_skipped Sample.env)).
  repeat constructor; unfold outside_baked_range; vm_compute;
    intros [H1 H2]; congruence.
Defined.

(** ** Shader programs *)

Lemma when_run (b : bool) (m : M unit) (w : World) :
  when b m w = if b then m w else (tt, w).
Proof. destruct b; reflexivity. Qed.

Ltac split_when :=
  match goal with
  | |- context [when ?b ?m ?w] =>
      rewrite (when_run b m w); destruct b
  end.

Section Shaders.

Variable E : Env.

(** One compile block of [createShaderProgram], followed by the rest. *)
Lemma compile_stage_run {A : Type} (kind : GLenum) (label source : string)
    (k : GLuint -> M A) (w : World) :
  (shader <- glCreateShader E kind ;;
   call (Ev.glShaderSource shader 1 source) ;;
   call (Ev.glCompileShader shader) ;;
   success <- glGetShaderiv E shader GL_COMPILE_STATUS ;;
   when (success =? 0)
     (infoLog <- glGetShaderInfoLog E shader 512 ;;
      call (Ev.cerr ("ERROR::SHADER::" ++ label ++ "::COMPILATION_FAILED"
                     ++ newline ++ infoLog ++ newline))) ;;
   k shader) w
  = k (new_name E w) (log_more (compile_calls E kind label source w) w).
Proof.
  unfold compile_calls, compile_status, compile_info_log, new_name,
    glCreateShader, glGetShaderiv, glGetShaderInfoLog.
  norm. split_when; norm; reflexivity.
Qed.

(** The link block, followed by the rest. *)
Lemma link_stage_run {A : Type} (vs fs : GLuint) (k : GLuint -> M A)
    (w : World) :
  (shaderProgram <- glCreateProgram E ;;
   call (Ev.glAttachShader shaderProgram vs) ;;
   call (Ev.glAttachShader shaderProgram fs) ;;
   call (Ev.glLinkProgram shaderProgram) ;;
   success <- glGetProgramiv E shaderProgram GL_LINK_STATUS ;;
   when (success =? 0)
     (infoLog <- glGetProgramInfoLog E shaderProgram 512 ;;
      call (Ev.cerr ("ERROR::SHADER::PROGRAM::LINKING_FAILED" ++ newline
                     ++ infoLog ++ newline))) ;;
   k shaderProgram) w
  = k (new_name E w) (log_more (link_calls E vs fs w) w).
Proof.
  unfold link_calls, link_status, link_info_log, new_name,
    glCreateProgram, glGetProgramiv, glGetProgramInfoLog.
  norm. split_when; norm; reflexivity.
Qed.

Lemma after_fragment_log (vertexSource fragmentSource : string) (w : World) :
  after_fragment E vertexSource fragmentSource w
  = log_more
      (compile_calls E GL_VERTEX_SHADER "VERTEX" vertexSource w
       ++ compile_calls E GL_FRAGMENT_SHADER "FRAGMENT" fragmentSource
                        (after_vertex E vertexSource w))
      w.
Proof.
  unfold after_fragment. cbv zeta.
  generalize (compile_calls E GL_FRAGMENT_SHADER "FRAGMENT" fragmentSource
                            (after_vertex E vertexSource w)).
  intros calls. unfold after_vertex. apply log_more_app.
Qed.

Lemma createShaderProgram_run (vertexSource fragmentSource : string)
    (w : World) :
  createShaderProgram E vertexSource fragmentSource w
  = (new_name E (after_fragment E vertexSource fragmentSource w),
     log_more (createShaderProgram_calls E vertexSource fragmentSource w) w).
Proof.
  unfold createShaderProgram.
  etransitivity;
    [refine (compile_stage_run GL_VERTEX_SHADER "VERTEX" vertexSource _ w)|].
  cbv beta.
  etransitivity;
    [refine (compile_stage_run GL_FRAGMENT_SHADER "FRAGMENT" fragmentSource
                               _ _)|].
  cbv beta.
  etransitivity; [refine (link_stage_run _ _ _ _)|].
  cbv beta. fold (after_vertex E vertexSource w).
  fold (after_fragment E vertexSource fragmentSource w).
  unfold createShaderProgram_calls. run. f_equal.
  generalize (link_calls E (new_name E w)
                (new_name E (after_vertex E vertexSource w))
                (after_fragment E vertexSource fragmentSource w)).
  intros calls. rewrite after_fragment_log. run.
  now rewrite <- !app_assoc.
Qed.

Lemma createShaderProgram_issued (vertexSource fragmentSource : string)
    (w : World) :
  issued (createShaderProgram E vertexSource fragmentSource) w
  = createShaderProgram_calls E vertexSource fragmentSource w.
Proof. apply issued_log_more. now rewrite createShaderProgram_run. Qed.

Lemma link_calls_link (vs fs : GLuint) (w : World) :
  In (Ev.glLinkProgram (new_name E w)) (link_calls E vs fs w).
Proof. unfold link_calls. apply in_or_app. left. cbn. auto. Qed.

(** C8.  When a stage does not compile, [createShaderProgram] writes the
    info log the driver gives for that stage to the error stream and goes
    on: the program is still linked and its handle returned.  Whatever the
    compile and link statuses are, the last two calls delete the vertex
    and the fragment shader, after the link. *)
Theorem compile_failure_is_logged_and_shaders_released
    (vertexSource fragmentSource : string) (w : World) :
  let calls := issued (createShaderProgram E vertexSource fragmentSource) w in
  let vertexShader := new_name E w in
  let w1 := after_vertex E vertexSource w in
  let fragmentShader := new_name E w1 in
  let shaderProgram :=
    new_name E (after_fragment E vertexSource fragmentSource w) in
  (compile_status E GL_VERTEX_SHADER vertexSource w = 0 ->
   exists before after,
     calls
     = before
       ++ Ev.cerr ("ERROR::SHADER::VERTEX::COMPILATION_FAILED" ++ newline
                   ++ compile_info_log E GL_VERTEX_SHADER vertexSource w
                   ++ newline)
       :: after
     /\ In (Ev.glLinkProgram shaderProgram) after) /\
  (compile_status E GL_FRAGMENT_SHADER fragmentSource w1 = 0 ->
   exists before after,
     calls
     = before
       ++ Ev.cerr ("ERROR::SHADER::FRAGMENT::COMPILATION_FAILED" ++ newline
                   ++ compile_info_log E GL_FRAGMENT_SHADER fragmentSource w1
                   ++ newline)
       :: after
     /\ In (Ev.glLinkProgram shaderProgram) after) /\
  fst (createShaderProgram E vertexSource fragmentSource w) = shaderProgram /\
  exists before,
    calls = before ++ [Ev.glDeleteShader vertexShader;
                       Ev.glDeleteShader fragmentShader]
    /\ In (Ev.glLinkProgram shaderProgram) before.
Proof.
  cbv zeta. rewrite createShaderProgram_issued, createShaderProgram_run.
  unfold createShaderProgram_calls.
  set (w1 := after_vertex E vertexSource w).
  set (w2 := after_fragment E vertexSource fragmentSource w).
  set (link := link_calls E (new_name E w) (new_name E w1) w2).
  assert (Hlink : In (Ev.glLinkProgram (new_name E w2)) link)
    by apply link_calls_link.
  repeat split.
  - intros Hv. unfold compile_calls at 1. rewrite Hv. cbn [Z.eqb].
    eexists (_ :: _ :: _ :: _ :: _ :: nil), _. split.
    + cbn [app]. reflexivity.
    + apply in_or_app. right. apply in_or_app. left. exact Hlink.
  - intros Hf.
    set (vertex := compile_calls E GL_VERTEX_SHADER "VERTEX" vertexSource w).
    unfold compile_calls. rewrite Hf. cbn [Z.eqb].
    eexists (vertex ++ _ :: _ :: _ :: _ :: _ :: nil), _. split.
    + rewrite <- (app_assoc vertex). cbn [app]. reflexivity.
    + apply in_or_app. left. exact Hlink.
  - exists (compile_calls E GL_VERTEX_SHADER "VERTEX" vertexSource w
            ++ compile_calls E GL_FRAGMENT_SHADER "FRAGMENT" fragmentSource w1
            ++ link).
    split.
    + rewrite <- !app_assoc. reflexivity.
    + apply in_or_app. right. apply in_or_app. right. exact Hlink.
Qed.

End Shaders.

Lemma compile_failure_is_logged_and_shaders_released_witness :
  let E := Sample.env_broken_shaders in
  let w := quiet_world no_keys in
  exists before after,
    issued (createShaderProgram E vertexShaderSource fragmentShaderSource) w
    = before
      ++ Ev.cerr ("ERROR::SHADER::VERTEX::COMPILATION_FAILED" ++ newline
                  ++ compile_info_log E GL_VERTEX_SHADER vertexShaderSource w
                  ++ newline)
      :: after
    /\ In (Ev.glLinkProgram
             (new_name E (after_fragment E vertexShaderSource
                                         fragmentShaderSource w)))
          after.
Proof.
  apply (proj1 (compile_failure_is_logged_and_shaders_released
                  Sample.env_broken_shaders
                  vertexShaderSource fragmentShaderSource
                  (quiet_world no_keys))).
  reflexivity.
Defined.


(** ** The font atlas *)

Section Font.

Variable E : Env.

Lemma loadFont_missing (fontPath : string) (w : World) :
  fs_open E fontPath = None ->
  loadFont E fontPath w = (Undefined, log_more [Ev.fopen fontPath "rb"] w).
Proof.
  intros H. unfold loadFont, fopen. run. rewrite H. reflexivity.
Qed.

Lemma loadFont_no_memory (fontPath : string) (file : File) (w : World) :
  fs_open E fontPath = Some file ->
  new_array E (file_size file) = None ->
  loadFont E fontPath w
  = (Failed bad_alloc,
     log_more [Ev.fopen fontPath "rb"; Ev.fseek_end; Ev.ftell; Ev.fseek_set]
              w).
Proof.
  intros H Hnew. unfold loadFont, fopen.
  step. rewrite H. steps. rewrite Hnew. reflexivity.
Qed.

Lemma loadFont_run (fontPath : string) (file : File) (w : World) :
  fs_open E fontPath = Some file ->
  new_array E (file_size file) = Some (fresh_array E (file_size file)) ->
  exists texture vao vbo : GLuint,
    loadFont E fontPath w
    = (Returned tt,
       with_globals
         {| textVAO := vao; textVBO := vbo;
            textShaderProgram := textShaderProgram (w_globals w);
            charData := snd (baked E file);
            fontTexture := texture |}
         (log_more (loadFont_read_calls fontPath file
                    ++ loadFont_upload_calls (snd (fst (baked E file)))
                                             texture vao vbo)
                   w)).
Proof.
  intros H Hnew.
  unfold loadFont, fopen, baked, font_buffer, glGenTextures,
    glGenVertexArrays, glGenBuffers.
  step. rewrite H. steps. rewrite Hnew. steps.
  destruct (stbtt_BakeFontBitmap E _ 0 f48_0 FONT_ATLAS_WIDTH
              FONT_ATLAS_HEIGHT 32 96) as [[result fontBitmap] glyphs].
  steps. cbn [textVAO textVBO textShaderProgram charData fontTexture].
  do 3 eexists. rewrite ret_run. reflexivity.
Qed.

(** The new-expression gives the fresh array or throws. *)
Lemma new_array_cases (size : Z) :
  new_array E size = Some (fresh_array E size) \/ new_array E size = None.
Proof.
  unfold new_array.
  destruct ((size <? 0) || negb (heap_available E size)); auto.
Qed.


End Font.



(** ** One iteration of the render loop *)

Lemma with_close_same (w : World) : with_close (w_should_close w) w = w.
Proof. destruct w; reflexivity. Qed.

Lemma glfwSetWindowShouldClose_run (value : bool) (w : World) :
  glfwSetWindowShouldClose value w
  = (tt, log_more [Ev.glfwSetWindowShouldClose value] (with_close value w)).
Proof. reflexivity. Qed.

Lemma log_more_with_close (l : list Ev.Call) (flag : bool) (w : World) :
  with_close flag (log_more l w) = log_more l (with_close flag w).
Proof. reflexivity. Qed.

Lemma processInput_run (rotationX rotationY : float) (w : World) :
  processInput rotationX rotationY w
  = ((key_adjust (w_keys w) GLFW_KEY_UP GLFW_KEY_DOWN rotationX,
      key_adjust (w_keys w) GLFW_KEY_LEFT GLFW_KEY_RIGHT rotationY),
     log_more (input_calls (w_keys w))
              (with_close (w_keys w GLFW_KEY_ESCAPE || w_should_close w) w)).
Proof.
  unfold processInput, glfwGetKey, key_adjust, input_calls.
  step. rewrite bind_run, when_run.
  destruct (w_keys w GLFW_KEY_ESCAPE); cbn [orb].
  - rewrite glfwSetWindowShouldClose_run. cbn [fst snd].
    rewrite log_more_with_close. steps. rewrite ret_run. reflexivity.
  - cbn [fst snd]. steps. rewrite ret_run, with_close_same. reflexivity.
Qed.

Lemma advance_run (speedX speedY : float) (rotation : float * float)
    (w : World) :
  advance speedX speedY rotation w
  = (next_angles (w_keys w) speedX speedY rotation,
     log_more (input_calls (w_keys w))
              (with_close (w_keys w GLFW_KEY_ESCAPE || w_should_close w) w)).
Proof.
  unfold advance. rewrite bind_run, processInput_run. reflexivity.
Qed.

(** What [glfwPollEvents] leaves behind. *)
Lemma glfwPollEvents_log (w : World) :
  w_log (snd (glfwPollEvents w)) = w_log w ++ poll_calls w.
Proof.
  unfold glfwPollEvents, poll_calls. cbn.
  destruct (w_pending w) as [|ev rest]; [reflexivity|].
  destruct (same_size (ev_framebuffer ev) (w_framebuffer w));
    [reflexivity|].
  cbn. now rewrite <- app_assoc.
Qed.

Lemma glfwPollEvents_globals (w : World) :
  w_globals (snd (glfwPollEvents w)) = w_globals w.
Proof.
  unfold glfwPollEvents. cbn.
  destruct (w_pending w) as [|ev rest]; [reflexivity|].
  destruct (same_size (ev_framebuffer ev) (w_framebuffer w)); reflexivity.
Qed.

Lemma glfwPollEvents_should_close (w : World) :
  w_should_close (snd (glfwPollEvents w))
  = w_should_close w || close_requested w.
Proof.
  unfold glfwPollEvents, close_requested. cbn.
  destruct (w_pending w) as [|ev rest]; [now rewrite orb_false_r|].
  destruct (same_size (ev_framebuffer ev) (w_framebuffer w)); reflexivity.
Qed.

Lemma glfwPollEvents_keys (w : World) :
  w_keys (snd (glfwPollEvents w))
  = match w_pending w with [] => w_keys w | ev :: _ => ev_keys ev end.
Proof.
  unfold glfwPollEvents. cbn.
  destruct (w_pending w) as [|ev rest]; [reflexivity|].
  destruct (same_size (ev_framebuffer ev) (w_framebuffer w)); reflexivity.
Qed.

Lemma glfwPollEvents_pending (w : World) :
  w_pending (snd (glfwPollEvents w)) = tl (w_pending w).
Proof.
  unfold glfwPollEvents. cbn.
  destruct (w_pending w) as [|ev rest] eqn:Hp; [cbn; now rewrite Hp|].
  destruct (same_size (ev_framebuffer ev) (w_framebuffer w)); reflexivity.
Qed.

Section Frame.

Variable E : Env.
Variables cubeShaderProgram VAO : GLuint.
Variables projection view : mat4.
Variables speedX speedY : float.

Lemma frame_run (rotation : float * float) (w : World) :
  let rotation' := next_angles (w_keys w) speedX speedY rotation in
  exists location_mvp location_projection location_color : Z,
    frame E cubeShaderProgram VAO projection view speedX speedY rotation w
    = (rotation',
       snd (glfwPollEvents
              (log_more (frame_calls E cubeShaderProgram VAO projection view
                                     rotation' w location_mvp
                                     location_projection location_color)
                        (with_close (w_keys w GLFW_KEY_ESCAPE
                                     || w_should_close w) w)))).
Proof.
  cbv zeta. unfold frame, frame_calls, scene_calls, overlay_calls.
  rewrite bind_run, advance_run. cbn [fst snd].
  destruct (next_angles (w_keys w) speedX speedY rotation) as [rx ry].
  unfold glGetUniformLocation, glfwGetFramebufferSize.
  set (w0 := with_close _ w).
  steps.
  change (w_framebuffer w0) with (w_framebuffer w).
  change (w_globals w0) with (w_globals w).
  destruct (w_framebuffer w) as [width height].
  steps. rewrite bind_run, renderText_run. tidy.
  change (w_globals w0) with (w_globals w).
  step. rewrite bind_run, ret_run. cbn [fst snd].
  do 3 eexists. rewrite <- !app_assoc. cbn [app fst snd]. reflexivity.
Qed.

Lemma frame_issued (rotation : float * float) (w : World) :
  exists location_mvp location_projection location_color : Z,
    issued (frame E cubeShaderProgram VAO projection view speedX speedY
                  rotation) w
    = frame_calls E cubeShaderProgram VAO projection view
                  (next_angles (w_keys w) speedX speedY rotation) w
                  location_mvp location_projection location_color
      ++ poll_calls w.
Proof.
  destruct (frame_run rotation w) as (l1 & l2 & l3 & H).
  exists l1, l2, l3. apply issued_of_log. rewrite H. cbn [snd].
  rewrite glfwPollEvents_log, w_log_log_more, <- app_assoc. reflexivity.
Qed.

End Frame.

(** *** Stages and capabilities along a list of calls *)

Lemma marks_app (l1 l2 : list Ev.Call) : marks (l1 ++ l2) = marks l1 ++ marks l2.
Proof. apply flat_map_app. Qed.

Lemma marks_input_calls (keys : Key -> bool) :
  marks (input_calls keys) = repeat PollInput 5.
Proof. unfold input_calls. destruct (keys GLFW_KEY_ESCAPE); reflexivity. Qed.

Lemma marks_glyphs (vbo : GLuint) (qs : list stbtt_aligned_quad) :
  marks (flat_map (glyph_calls vbo) qs) = repeat DrawText (List.length qs).
Proof. induction qs as [|q qs IH]; cbn; [|rewrite <- IH]; reflexivity. Qed.

Lemma marks_poll_calls (w : World) : marks (poll_calls w) = [PollEvents].
Proof.
  unfold poll_calls. destruct (w_pending w) as [|ev rest]; [reflexivity|].
  destruct (same_size (ev_framebuffer ev) (w_framebuffer w)); reflexivity.
Qed.

Lemma merge_runs_repeat (n : nat) (rest : list Stage) :
  merge_runs (repeat DrawText (S n) ++ Present :: rest)
  = DrawText :: merge_runs (Present :: rest).
Proof.
  induction n as [|n IH].
  - cbn. destruct (merge_runs rest) as [|s l]; [reflexivity|].
    destruct s; reflexivity.
  - change (repeat DrawText (S (S n)) ++ Present :: rest)
      with (DrawText :: (repeat DrawText (S n) ++ Present :: rest)).
    cbn [merge_runs]. rewrite IH. reflexivity.
Qed.

Lemma caps_after_app (c : Caps) (l1 l2 : list Ev.Call) :
  caps_after c (l1 ++ l2) = caps_after (caps_after c l1) l2.
Proof. apply fold_left_app. Qed.

Lemma draws_in_order_app (l1 l2 : list Ev.Call) :
  forall c : Caps,
    draws_in_order c (l1 ++ l2)
    = draws_in_order c l1 && draws_in_order (caps_after c l1) l2.
Proof.
  induction l1 as [|call l1 IH]; intros c; cbn; [reflexivity|].
  rewrite IH, andb_assoc. reflexivity.
Qed.

Lemma quiet_step (c : Caps) (call : Ev.Call) :
  quiet call = true -> draw_in_order c call = true /\ gl_step c call = c.
Proof. destruct call; cbn; try discriminate; auto. Qed.

Lemma quiet_calls (l : list Ev.Call) :
  forallb quiet l = true ->
  forall c : Caps, draws_in_order c l = true /\ caps_after c l = c.
Proof.
  induction l as [|call l IH]; intros H c; [split; reflexivity|].
  cbn in H. apply andb_true_iff in H as [Hc Hl].
  destruct (quiet_step c call Hc) as [Hd Hs].
  cbn. unfold caps_after in *. cbn. rewrite Hd, Hs. cbn. auto.
Qed.

Lemma quiet_input_calls (keys : Key -> bool) :
  forallb quiet (input_calls keys) = true.
Proof. unfold input_calls. destruct (keys GLFW_KEY_ESCAPE); reflexivity. Qed.

Lemma quiet_poll_calls (w : World) : forallb quiet (poll_calls w) = true.
Proof.
  unfold poll_calls. destruct (w_pending w) as [|ev rest]; [reflexivity|].
  destruct (same_size (ev_framebuffer ev) (w_framebuffer w)); reflexivity.
Qed.

(** Glyphs drawn with the depth test off and blending on are in order and
    leave the capabilities as they are. *)
Lemma glyphs_in_order (vbo : GLuint) (qs : list stbtt_aligned_quad) :
  let c := {| depth_test := false; blend := true |} in
  draws_in_order c (flat_map (glyph_calls vbo) qs) = true /\
  caps_after c (flat_map (glyph_calls vbo) qs) = c.
Proof.
  induction qs as [|q qs [IH1 IH2]]; [split; reflexivity|].
  cbn [flat_map]. rewrite draws_in_order_app, caps_after_app.
  cbn. auto.
Qed.

Lemma renderText_calls_in_order (E : Env) (g : Globals) (location : Z)
    (text : string) (x y : float) :
  let c := {| depth_test := false; blend := true |} in
  draws_in_order c (renderText_calls E g location text x y) = true /\
  caps_after c (renderText_calls E g location text x y) = c.
Proof.
  cbv zeta. unfold renderText_calls.
  destruct (glyphs_in_order (textVBO g)
              (fst (layout E (charData g) text x y))) as [H1 H2].
  cbv zeta in H1, H2.
  rewrite !draws_in_order_app, !caps_after_app.
  cbn [caps_after fold_left gl_step draws_in_order draw_in_order andb].
  change (fold_left gl_step ?l ?c) with (caps_after c l).
  rewrite H1, H2. cbn. auto.
Qed.

Section Iteration.

Variable E : Env.
Variables cubeShaderProgram VAO : GLuint.
Variables projection view : mat4.
Variables speedX speedY : float.

(** A baked character at the head of a text yields a quad. *)
Lemma layout_baked_head (baked : list stbtt_bakedchar) (c : ascii)
    (rest : string) (x y : float) :
  (32 <=? codepoint c) && (codepoint c <? 128) = true ->
  exists q qs, fst (layout E baked (String c rest) x y) = q :: qs.
Proof.
  intros H. cbn [layout]. rewrite char_value_in_range, H.
  destruct (stbtt_GetBakedQuad E baked 512 512 _ x y 1) as [[x' y'] q].
  cbn [fst]. eauto.
Qed.

(** The status text starts with a baked character, so it has a glyph. *)
Lemma status_text_has_glyph (baked : list stbtt_bakedchar)
    (rotationX rotationY x y : float) :
  exists q qs,
    fst (layout E baked (status_text E rotationX rotationY) x y) = q :: qs.
Proof.
  unfold status_text.
  set (tail := (format_1f E rotationX ++ ", " ++ format_1f E rotationY
                ++ ")")%string).
  change ("Arrow keys control the rotation (" ++ tail)%string
    with (String "A" ("rrow keys control the rotation (" ++ tail)%string).
  apply layout_baked_head. reflexivity.
Qed.

Lemma frame_calls_stages (rotation' : float * float) (w : World)
    (l1 l2 l3 : Z) :
  stages (frame_calls E cubeShaderProgram VAO projection view rotation' w
                      l1 l2 l3
          ++ poll_calls w)
  = [PollInput; ClearBuffers; DrawCube; DisableDepthTest; QueryFramebuffer;
     DrawText; Present; PollEvents].
Proof.
  unfold stages, frame_calls, overlay_calls, renderText_calls.
  rewrite !marks_app, marks_input_calls, marks_glyphs, marks_poll_calls.
  destruct (status_text_has_glyph (charData (w_globals w))
              (fst rotation') (snd rotation') f25_0 f50_0) as (q & qs & ->).
  cbn [List.length]. cbn [marks scene_calls flat_map stage_of app repeat].
  rewrite app_nil_r, <- !app_assoc. cbn [app].
  set (text := DrawText :: (repeat DrawText (List.length qs)
                            ++ [Present; PollEvents])).
  assert (Htext : merge_runs text = [DrawText; Present; PollEvents]).
  { subst text.
    change (DrawText :: (repeat DrawText (List.length qs)
                         ++ [Present; PollEvents]))
      with (repeat DrawText (S (List.length qs)) ++ Present :: [PollEvents]).
    rewrite merge_runs_repeat. reflexivity. }
  clearbody text. cbn [merge_runs]. rewrite Htext. reflexivity.
Qed.

Lemma frame_calls_in_order (rotation' : float * float) (w : World)
    (l1 l2 l3 : Z) (depth : bool) :
  let calls := frame_calls E cubeShaderProgram VAO projection view rotation'
                           w l1 l2 l3 ++ poll_calls w in
  draws_in_order {| depth_test := depth; blend := true |} calls = true /\
  caps_after {| depth_test := depth; blend := true |} calls
  = {| depth_test := false; blend := true |}.
Proof.
  cbv zeta. unfold frame_calls, overlay_calls, scene_calls.
  pose proof (quiet_calls _ (quiet_input_calls (w_keys w))) as Hi.
  pose proof (quiet_calls _ (quiet_poll_calls w)) as Hp.
  pose proof (renderText_calls_in_order E (w_globals w) l3
                (status_text E (fst rotation') (snd rotation')) f25_0 f50_0)
    as Ht.
  cbv zeta in Ht.
  generalize dependent (renderText_calls E (w_globals w) l3
                          (status_text E (fst rotation') (snd rotation'))
                          f25_0 f50_0).
  generalize dependent (poll_calls w).
  generalize dependent (input_calls (w_keys w)).
  generalize (mvp E projection view (fst rotation') (snd rotation')).
  generalize (glm_ortho E f0_0 (F32.of_Z (fst (w_framebuffer w)))
                        (F32.of_Z (snd (w_framebuffer w))) f0_0).
  intros ortho matrix input Hi poll Hp text [Ht1 Ht2].
  destruct (Hi {| depth_test := depth; blend := true |}) as [Hi1 Hi2].
  destruct (Hp {| depth_test := false; blend := true |}) as [Hp1 Hp2].
  rewrite !draws_in_order_app, !caps_after_app, Hi1, Hi2.
  cbn [caps_after fold_left gl_step draws_in_order draw_in_order
       depth_test blend andb negb].
  change (fold_left gl_step ?l ?c) with (caps_after c l).
  rewrite Ht1, Ht2, Hp1, Hp2. cbn. auto.
Qed.

Lemma frame_log (rotation : float * float) (w : World) :
  exists l1 l2 l3 : Z,
    w_log (snd (frame E cubeShaderProgram VAO projection view speedX speedY
                      rotation w))
    = w_log w
      ++ frame_calls E cubeShaderProgram VAO projection view
                     (next_angles (w_keys w) speedX speedY rotation) w
                     l1 l2 l3
      ++ poll_calls w.
Proof.
  destruct (frame_run E cubeShaderProgram VAO projection view speedX speedY
                      rotation w) as (l1 & l2 & l3 & H).
  exists l1, l2, l3. rewrite H. cbn [snd].
  rewrite glfwPollEvents_log, w_log_log_more, <- app_assoc. reflexivity.
Qed.

Lemma frame_angles (rotation : float * float) (w : World) :
  fst (frame E cubeShaderProgram VAO projection view speedX speedY rotation w)
  = next_angles (w_keys w) speedX speedY rotation.
Proof.
  destruct (frame_run E cubeShaderProgram VAO projection view speedX speedY
                      rotation w) as (l1 & l2 & l3 & H).
  now rewrite H.
Qed.

Lemma frame_should_close (rotation : float * float) (w : World) :
  w_should_close
    (snd (frame E cubeShaderProgram VAO projection view speedX speedY
                rotation w))
  = w_keys w GLFW_KEY_ESCAPE || w_should_close w || close_requested w.
Proof.
  destruct (frame_run E cubeShaderProgram VAO projection view speedX speedY
                      rotation w) as (l1 & l2 & l3 & H).
  rewrite H. cbn [snd]. rewrite glfwPollEvents_should_close. reflexivity.
Qed.

Lemma frame_globals (rotation : float * float) (w : World) :
  w_globals
    (snd (frame E cubeShaderProgram VAO projection view speedX speedY
                rotation w))
  = w_globals w.
Proof.
  destruct (frame_run E cubeShaderProgram VAO projection view speedX speedY
                      rotation w) as (l1 & l2 & l3 & H).
  rewrite H. cbn [snd]. rewrite glfwPollEvents_globals. reflexivity.
Qed.

Lemma frame_keys (rotation : float * float) (w : World) :
  w_keys
    (snd (frame E cubeShaderProgram VAO projection view speedX speedY
                rotation w))
  = match w_pending w with [] => w_keys w | ev :: _ => ev_keys ev end.
Proof.
  destruct (frame_run E cubeShaderProgram VAO projection view speedX speedY
                      rotation w) as (l1 & l2 & l3 & H).
  rewrite H. cbn [snd]. rewrite glfwPollEvents_keys. reflexivity.
Qed.

Lemma frame_pending (rotation : float * float) (w : World) :
  w_pending
    (snd (frame E cubeShaderProgram VAO projection view speedX speedY
                rotation w))
  = tl (w_pending w).
Proof.
  destruct (frame_run E cubeShaderProgram VAO projection view speedX speedY
                      rotation w) as (l1 & l2 & l3 & H).
  rewrite H. cbn [snd]. rewrite glfwPollEvents_pending. reflexivity.
Qed.

Lemma loop_step_run (rotation : float * float) (w : World) :
  let w1 := log_more [Ev.glfwWindowShouldClose] w in
  loop_step E cubeShaderProgram VAO projection view speedX speedY rotation w
  = if w_should_close w then (None, w1)
    else (Some (fst (frame E cubeShaderProgram VAO projection view
                           speedX speedY rotation w1)),
          snd (frame E cubeShaderProgram VAO projection view
                     speedX speedY rotation w1)).
Proof.
  cbv zeta. unfold loop_step, glfwWindowShouldClose. step.
  destruct (w_should_close w); [reflexivity|].
  rewrite bind_run, ret_run. reflexivity.
Qed.

End Iteration.

(** ** The whole run *)

Section Run.

Variable E : Env.

Lemma quiet_compile_calls (kind : GLenum) (label source : string)
    (w : World) :
  forallb quiet (compile_calls E kind label source w) = true.
Proof.
  unfold compile_calls.
  destruct (compile_status E kind source w =? 0); reflexivity.
Qed.

Lemma quiet_link_calls (vs fs : GLuint) (w : World) :
  forallb quiet (link_calls E vs fs w) = true.
Proof.
  unfold link_calls. destruct (link_status E vs fs w =? 0); reflexivity.
Qed.

Lemma quiet_createShaderProgram_calls (vertexSource fragmentSource : string)
    (w : World) :
  forallb quiet (createShaderProgram_calls E vertexSource fragmentSource w)
  = true.
Proof.
  unfold createShaderProgram_calls. cbv zeta.
  rewrite !forallb_app, !quiet_compile_calls, quiet_link_calls. reflexivity.
Qed.

Lemma quiet_loadFont_calls (fontPath : string) (file : File)
    (fontBitmap : list byte) (texture vao vbo : GLuint) :
  forallb quiet (loadFont_read_calls fontPath file
                 ++ loadFont_upload_calls fontBitmap texture vao vbo) = true.
Proof. reflexivity. Qed.

(** With blending on when it starts, the render loop draws in order and
    leaves blending on. *)
Lemma render_loop_in_order (cubeShaderProgram VAO : GLuint)
    (projection view : mat4) (speedX speedY : float) (fuel : nat) :
  forall (rotation : float * float) (w : World),
  exists calls : list Ev.Call,
    w_log (snd (render_loop E fuel cubeShaderProgram VAO projection view
                            speedX speedY rotation w))
    = w_log w ++ calls /\
    forall depth : bool,
      draws_in_order {| depth_test := depth; blend := true |} calls = true /\
      exists depth' : bool,
        caps_after {| depth_test := depth; blend := true |} calls
        = {| depth_test := depth'; blend := true |}.
Proof.
  induction fuel as [|fuel IH]; intros rotation w.
  - exists []. split; [cbn; now rewrite app_nil_r|].
    intros depth. split; [reflexivity|]. exists depth. reflexivity.
  - cbn [render_loop]. rewrite bind_run, loop_step_run. cbv zeta.
    destruct (w_should_close w).
    + exists [Ev.glfwWindowShouldClose]. split; [reflexivity|].
      intros depth. split; [reflexivity|]. exists depth. reflexivity.
    + set (w1 := log_more [Ev.glfwWindowShouldClose] w).
      destruct (frame_log E cubeShaderProgram VAO projection view
                          speedX speedY rotation w1) as (l1 & l2 & l3 & Hf).
      pose proof (fun depth =>
                    frame_calls_in_order E cubeShaderProgram VAO projection
                      view (next_angles (w_keys w1) speedX speedY rotation)
                      w1 l1 l2 l3 depth) as Hc.
      cbv zeta in Hc.
      generalize dependent
        (frame_calls E cubeShaderProgram VAO projection view
                     (next_angles (w_keys w1) speedX speedY rotation)
                     w1 l1 l2 l3 ++ poll_calls w1).
      generalize (frame E cubeShaderProgram VAO projection view
                        speedX speedY rotation w1).
      intros frame_out calls Hf Hc. cbn [fst snd].
      destruct (IH (fst frame_out) (snd frame_out)) as (rest & Hrest & Hok).
      rewrite Hrest, Hf.
      exists (Ev.glfwWindowShouldClose :: calls ++ rest). split.
      * subst w1. rewrite w_log_log_more, <- !app_assoc. reflexivity.
      * intros depth.
        destruct (Hc depth) as [Hc1 Hc2].
        destruct (Hok false) as [Hr1 Hr2].
        change (Ev.glfwWindowShouldClose :: calls ++ rest)
          with ([Ev.glfwWindowShouldClose] ++ calls ++ rest).
        rewrite !draws_in_order_app, !caps_after_app.
        cbn [draws_in_order draw_in_order caps_after fold_left gl_step andb].
        change (fold_left gl_step ?l ?c) with (caps_after c l).
        rewrite Hc1, Hc2, Hr1. split; [reflexivity|exact Hr2].
Qed.

Lemma quiet_in_order (l rest : list Ev.Call) (c : Caps) :
  forallb quiet l = true ->
  draws_in_order c (l ++ rest) = draws_in_order c rest.
Proof.
  intros H. destruct (quiet_calls l H c) as [H1 H2].
  now rewrite draws_in_order_app, H1, H2.
Qed.

Lemma main_in_order (fuel : nat) (w : World) :
  exists calls : list Ev.Call,
    w_log (snd (main E fuel w)) = w_log w ++ calls /\
    draws_in_order initial_caps calls = true.
Proof.
  unfold main, glfwInit, glfwCreateWindow, gladLoadGLLoader,
    glGenVertexArrays, glGenBuffers.
  step. destruct (glfw_init_ok E); cbn [negb];
    [|step; rewrite ret_run; cbn [snd]; rewrite w_log_log_more;
      eexists; split; reflexivity].
  steps. destruct (glfw_window_ok E); cbn [negb];
    [|steps; rewrite ret_run; cbn [snd]; rewrite w_log_log_more;
      eexists; split; reflexivity].
  steps. destruct (glad_ok E); cbn [negb];
    [|steps; rewrite ret_run; cbn [snd]; rewrite w_log_log_more;
      eexists; split; reflexivity].
  steps.
  repeat match goal with
         | |- context [gl_fresh E ?l] => generalize (gl_fresh E l); intro
         end.
  generalize (glm_perspective E (glm_radians E f45_0) f800_over_600 f0_1
                              f100_0).
  generalize (glm_translate E (mat4_diag f1_0) (f0_0, f0_0, fm3_0)).
  generalize (rndDistrib E f0_1 f2_0 0), (rndDistrib E f0_1 f2_0 1).
  intros speedX speedY view projection.
  (* the two shader programs *)
  rewrite bind_run, createShaderProgram_run. tidy.
  match goal with
  | |- context [createShaderProgram_calls E ?vs ?fs ?W] =>
      pose proof (quiet_createShaderProgram_calls vs fs W) as Hcube;
      generalize dependent (createShaderProgram_calls E vs fs W);
      intros cube_calls Hcube
  end.
  match goal with
  | |- context [new_name E ?W] => generalize (new_name E W); intro
  end.
  rewrite bind_run, createShaderProgram_run. tidy.
  match goal with
  | |- context [createShaderProgram_calls E ?vs ?fs ?W] =>
      pose proof (quiet_createShaderProgram_calls vs fs W) as Htext;
      generalize dependent (createShaderProgram_calls E vs fs W);
      intros text_calls Htext
  end.
  match goal with
  | |- context [new_name E ?W] => generalize (new_name E W); intro
  end.
  steps.
  (* the font *)
  rewrite bind_run.
  destruct (fs_open E "arial.ttf") as [file|] eqn:Hopen.
  2: {
    match goal with
    | |- context [loadFont E "arial.ttf" ?W] =>
        rewrite (loadFont_missing E "arial.ttf" W Hopen)
    end.
    tidy. rewrite ret_run. cbn [snd]. tidy. rewrite <- ?app_assoc.
    eexists. split; [reflexivity|].
    cbn [app draws_in_order draw_in_order gl_step initial_caps andb
         depth_test blend].
    rewrite <- ?app_assoc.
    rewrite (quiet_in_order _ _ _ Hcube), (quiet_in_order _ _ _ Htext).
    reflexivity. }
  destruct (new_array_cases E (file_size file)) as [Hnew|Hnew].
  2: {
    match goal with
    | |- context [loadFont E "arial.ttf" ?W] =>
        rewrite (loadFont_no_memory E "arial.ttf" file W Hopen Hnew)
    end.
    tidy. rewrite ret_run. cbn [snd]. tidy. rewrite <- ?app_assoc.
    eexists. split; [reflexivity|].
    cbn [app draws_in_order draw_in_order gl_step initial_caps andb
         depth_test blend].
    rewrite <- ?app_assoc.
    rewrite (quiet_in_order _ _ _ Hcube), (quiet_in_order _ _ _ Htext).
    reflexivity. }
  match goal with
  | |- context [loadFont E "arial.ttf" ?W] =>
      destruct (loadFont_run E "arial.ttf" file W Hopen Hnew)
        as (texture & vao & vbo & ->)
  end.
  tidy.
  pose proof (quiet_loadFont_calls "arial.ttf" file
                (snd (fst (baked E file))) texture vao vbo) as Hfont.
  generalize dependent (loadFont_read_calls "arial.ttf" file
                        ++ loadFont_upload_calls (snd (fst (baked E file)))
                                                 texture vao vbo).
  intros font_calls Hfont.
  (* the loop *)
  rewrite bind_run.
  match goal with
  | |- context [render_loop E fuel ?c ?v ?p ?vw ?sx ?sy ?r ?W] =>
      destruct (render_loop_in_order c v p vw sx sy fuel r W)
        as (loop_calls & Hloop & Hok);
      generalize dependent (render_loop E fuel c v p vw sx sy r W)
  end.
  intros [looped w3] Hloop. cbn [fst snd] in Hloop |- *.
  rewrite w_log_with_globals, w_log_log_more in Hloop.
  destruct (Hok true) as [Hok1 _].
  assert (Hprefix :
            forall rest : list Ev.Call,
              forallb quiet rest = true ->
              exists calls : list Ev.Call,
                w_log w3 ++ rest = w_log w ++ calls /\
                draws_in_order initial_caps calls = true).
  { intros rest Hrest. rewrite Hloop, <- ?app_assoc.
    eexists. split; [reflexivity|].
    cbn [app draws_in_order draw_in_order gl_step initial_caps andb
         depth_test blend].
    rewrite <- ?app_assoc.
    rewrite (quiet_in_order _ _ _ Hcube), (quiet_in_order _ _ _ Htext),
      (quiet_in_order _ _ _ Hfont).
    rewrite draws_in_order_app, Hok1.
    destruct (Hok true) as [_ [depth' ->]].
    apply (quiet_calls rest Hrest). }
  clear Hloop.
  destruct looped as [result|e| |].
  - steps. rewrite ret_run. cbn [snd]. rewrite w_log_log_more.
    apply Hprefix. reflexivity.
  - rewrite ret_run. cbn [snd].
    rewrite <- (app_nil_r (w_log w3)). apply Hprefix. reflexivity.
  - rewrite ret_run. cbn [snd].
    rewrite <- (app_nil_r (w_log w3)). apply Hprefix. reflexivity.
  - rewrite ret_run. cbn [snd].
    rewrite <- (app_nil_r (w_log w3)). apply Hprefix. reflexivity.
Qed.

End Run.

(** ** The claims about the loop *)

Lemma key_adjust_released (keys : Key -> bool) (minus plus : Key) (r : float) :
  keys minus = false -> keys plus = false ->
  key_adjust keys minus plus r = r.
Proof. unfold key_adjust. now intros -> ->. Qed.

Lemma next_angles_released (keys : Key -> bool) (speedX speedY : float)
    (rotation : float * float) :
  arrows_released keys = true ->
  next_angles keys speedX speedY rotation
  = next_angles no_keys speedX speedY rotation.
Proof.
  unfold arrows_released. intros H.
  repeat (apply andb_true_iff in H as [H ?]).
  unfold next_angles, incremented.
  rewrite !key_adjust_released
    by (reflexivity || now apply negb_true_iff).
  reflexivity.
Qed.

Lemma idle_less (n : nat) :
  forall (keys : Key -> bool) (pending : list Events),
    idle (S n) keys pending = true -> idle n keys pending = true.
Proof.
  induction n as [|n IH]; intros keys pending H; [reflexivity|].
  cbn [idle] in H |- *. apply andb_true_iff in H as [Hk H].
  rewrite Hk. cbn [andb].
  destruct pending as [|ev rest]; apply IH; exact H.
Qed.

Lemma matrices_uploaded_app (l1 l2 : list Ev.Call) :
  matrices_uploaded (l1 ++ l2) = matrices_uploaded l1 ++ matrices_uploaded l2.
Proof.
  induction l1 as [|c l1 IH]; [reflexivity|].
  destruct c; cbn; rewrite ?IH; reflexivity.
Qed.

Lemma matrices_uploaded_glyphs (vbo : GLuint)
    (qs : list stbtt_aligned_quad) :
  matrices_uploaded (flat_map (glyph_calls vbo) qs) = [].
Proof. induction qs as [|q qs IH]; [reflexivity|exact IH]. Qed.

Section Loop.

Variable E : Env.
Variables cubeShaderProgram VAO : GLuint.
Variables projection view : mat4.

(** What one iteration uploads: the composite matrix and the overlay
    projection, and the quads of the status text. *)
Lemma frame_calls_uploads (rotation' : float * float) (w : World)
    (l1 l2 l3 : Z) :
  let calls := frame_calls E cubeShaderProgram VAO projection view
                           rotation' w l1 l2 l3 ++ poll_calls w in
  matrices_uploaded calls
  = [ mvp E projection view (fst rotation') (snd rotation');
      glm_ortho E f0_0 (F32.of_Z (fst (w_framebuffer w)))
                (F32.of_Z (snd (w_framebuffer w))) f0_0 ] /\
  quads_uploaded calls
  = map quad_vertices
        (fst (layout E (charData (w_globals w))
                     (status_text E (fst rotation') (snd rotation'))
                     f25_0 f50_0)).
Proof.
  cbv zeta.
  unfold frame_calls, overlay_calls, renderText_calls, scene_calls,
    input_calls, poll_calls.
  generalize (layout E (charData (w_globals w))
                (status_text E (fst rotation') (snd rotation'))
                f25_0 f50_0).
  generalize (mvp E projection view (fst rotation') (snd rotation')).
  generalize (glm_ortho E f0_0 (F32.of_Z (fst (w_framebuffer w)))
                        (F32.of_Z (snd (w_framebuffer w))) f0_0).
  intros ortho matrix laid.
  rewrite !matrices_uploaded_app, !quads_uploaded_app,
    matrices_uploaded_glyphs, quads_uploaded_glyphs.
  destruct (w_keys w GLFW_KEY_ESCAPE);
    destruct (w_pending w) as [|ev rest];
    try destruct (same_size (ev_framebuffer ev) (w_framebuffer w));
    cbn [matrices_uploaded quads_uploaded app];
    rewrite ?app_nil_r; split; reflexivity.
Qed.

Lemma frames_angles (speedX speedY : float) (n : nat) :
  forall (rotation : float * float) (w : World),
    idle n (w_keys w) (w_pending w) = true ->
    fst (frames E n cubeShaderProgram VAO projection view speedX speedY
                rotation w)
    = angles_after n speedX speedY rotation.
Proof.
  induction n as [|n IH]; intros rotation w H; [reflexivity|].
  cbn [frames angles_after idle] in H |- *.
  apply andb_true_iff in H as [Hk H].
  rewrite bind_run, frame_angles, (next_angles_released _ _ _ _ Hk).
  apply IH. rewrite frame_keys, frame_pending.
  destruct (w_pending w) as [|ev rest]; exact H.
Qed.

Lemma loop_step_issued (speedX speedY : float) (rotation : float * float)
    (w : World) :
  issued (loop_step E cubeShaderProgram VAO projection view
                    speedX speedY rotation) w
  = Ev.glfwWindowShouldClose
    :: (if w_should_close w then []
        else issued (frame E cubeShaderProgram VAO projection view
                           speedX speedY rotation)
                    (log_more [Ev.glfwWindowShouldClose] w)).
Proof.
  apply issued_of_log.
  destruct (frame_log E cubeShaderProgram VAO projection view
                      speedX speedY rotation
                      (log_more [Ev.glfwWindowShouldClose] w))
    as (k1 & k2 & k3 & Hlog).
  rewrite (issued_of_log _ _ _ Hlog).
  rewrite loop_step_run. cbv zeta.
  generalize dependent (frame E cubeShaderProgram VAO projection view
                              speedX speedY rotation
                              (log_more [Ev.glfwWindowShouldClose] w)).
  intros out Hlog.
  destruct (w_should_close w); [reflexivity|]. cbn [snd].
  rewrite Hlog, w_log_log_more, <- app_assoc. reflexivity.
Qed.

Lemma loop_step_result (speedX speedY : float) (rotation : float * float)
    (w : World) :
  fst (loop_step E cubeShaderProgram VAO projection view
                 speedX speedY rotation w)
  = if w_should_close w then None
    else Some (next_angles (w_keys w) speedX speedY rotation).
Proof.
  rewrite loop_step_run. cbv zeta.
  pose proof (frame_angles E cubeShaderProgram VAO projection view
                speedX speedY rotation
                (log_more [Ev.glfwWindowShouldClose] w)) as H.
  generalize dependent (frame E cubeShaderProgram VAO projection view
                              speedX speedY rotation
                              (log_more [Ev.glfwWindowShouldClose] w)).
  intros out H. destruct (w_should_close w); [reflexivity|].
  cbn [fst]. rewrite H. reflexivity.
Qed.

(** The loop as a two-state machine: at its test it either stops, when the
    close flag is set, or runs the body once and comes back to the test. *)
Lemma render_loop_turn (speedX speedY : float) (fuel : nat)
    (rotation : float * float) (w : World) :
  let w1 := log_more [Ev.glfwWindowShouldClose] w in
  let body := frame E cubeShaderProgram VAO projection view speedX speedY
                    rotation w1 in
  render_loop E (S fuel) cubeShaderProgram VAO projection view
              speedX speedY rotation w
  = if w_should_close w then (Returned rotation, w1)
    else render_loop E fuel cubeShaderProgram VAO projection view
                     speedX speedY (fst body) (snd body).
Proof.
  cbv zeta. cbn [render_loop]. rewrite bind_run, loop_step_run. cbv zeta.
  generalize (frame E cubeShaderProgram VAO projection view speedX speedY
                    rotation (log_more [Ev.glfwWindowShouldClose] w)).
  intros out. destruct (w_should_close w); reflexivity.
Qed.

(** C3.  From angles (0, 0) at speeds 1.0 and 1.5, ten iterations during
    which no arrow key is held leave the angles at exactly (10.0, 15.0).
    No wrap occurs on the way: after k iterations the angles are exactly
    (k, 1.5 k), and the values the next wrap test sees do not exceed the
    bounds. *)
Theorem ten_frames_without_input (w : World) :
  idle 10 (w_keys w) (w_pending w) = true ->
  let after (k : nat) :=
    fst (frames E k cubeShaderProgram VAO projection view f1_0 f1_5
                (f0_0, f0_0) w) in
  after 10%nat = (F32.of_Z 10, F32.of_Z 15) /\
  Forall (fun k : nat =>
            after k = (F32.of_Z (Z.of_nat k),
                       F32.of_dyadic (3 * Z.of_nat k) 1) /\
            exceeds (incremented no_keys GLFW_KEY_UP GLFW_KEY_DOWN f1_0
                                 (fst (after k))) = false /\
            exceeds (incremented no_keys GLFW_KEY_LEFT GLFW_KEY_RIGHT f1_5
                                 (snd (after k))) = false)
         (seq 0 10).
Proof.
  intros H10.
  pose proof (idle_less _ _ _ H10) as H9.
  pose proof (idle_less _ _ _ H9) as H8.
  pose proof (idle_less _ _ _ H8) as H7.
  pose proof (idle_less _ _ _ H7) as H6.
  pose proof (idle_less _ _ _ H6) as H5.
  pose proof (idle_less _ _ _ H5) as H4.
  pose proof (idle_less _ _ _ H4) as H3.
  pose proof (idle_less _ _ _ H3) as H2.
  pose proof (idle_less _ _ _ H2) as H1.
  pose proof (idle_less _ _ _ H1) as H0.
  cbv zeta. split.
  - rewrite frames_angles by assumption. vm_compute. reflexivity.
  - cbn [seq].
    repeat (constructor;
            [rewrite frames_angles by assumption; vm_compute; auto|]).
    constructor.
Qed.

(** C6.  The matrix uploaded for the cube is projection * view * model,
    where model is the identity rotated about the x axis by angleX and
    then about the y axis by angleY, both converted to radians; it is the
    matrix of the angles the same iteration has just computed.  With a glm
    whose rotation by the angle zero leaves the identity matrix as it is,
    the angles (0, 0) give projection * view * identity. *)
Theorem composite_is_projection_view_model :
  (forall rotationX rotationY : float,
      mvp E projection view rotationX rotationY
      = glm_mul E (glm_mul E projection view)
          (glm_rotate E
             (glm_rotate E (mat4_diag f1_0) (glm_radians E rotationX)
                         (f1_0, f0_0, f0_0))
             (glm_radians E rotationY) (f0_0, f1_0, f0_0))) /\
  (forall (speedX speedY : float) (rotation : float * float) (w : World),
      let rotation' := next_angles (w_keys w) speedX speedY rotation in
      exists location : Z,
        In (Ev.glUniformMatrix4fv location 1 false
              (mvp E projection view (fst rotation') (snd rotation')))
           (issued (frame E cubeShaderProgram VAO projection view
                          speedX speedY rotation) w)) /\
  (glm_rotate E (mat4_diag f1_0) (glm_radians E f0_0) (f1_0, f0_0, f0_0)
   = mat4_diag f1_0 ->
   glm_rotate E (mat4_diag f1_0) (glm_radians E f0_0) (f0_0, f1_0, f0_0)
   = mat4_diag f1_0 ->
   mvp E projection view f0_0 f0_0
   = glm_mul E (glm_mul E projection view) (mat4_diag f1_0)).
Proof.
  split; [reflexivity|]. split.
  - intros speedX speedY rotation w rotation'.
    destruct (frame_issued E cubeShaderProgram VAO projection view
                           speedX speedY rotation w) as (l1 & l2 & l3 & ->).
    exists l1. fold rotation'. unfold frame_calls.
    apply in_or_app. left. apply in_or_app. right. apply in_or_app. left.
    unfold scene_calls. cbn [In]. auto 10.
  - intros Hx Hy. unfold mvp, model. rewrite Hx, Hy. reflexivity.
Qed.


End Loop.

Lemma ten_frames_without_input_witness :
  fst (frames Sample.env 10 7 8 (mat4_diag f1_0) (mat4_diag f1_0) f1_0 f1_5
              (f0_0, f0_0) (Sample.idle_world 10))
  = (F32.of_Z 10, F32.of_Z 15).
Proof.
  apply (ten_frames_without_input Sample.env 7 8 (mat4_diag f1_0)
           (mat4_diag f1_0) (Sample.idle_world 10)).
  reflexivity.
Defined.

Lemma composite_is_projection_view_model_witness :
  let projection :=
    Sample.perspective (Sample.radians f45_0) f800_over_600 f0_1 f100_0 in
  let view := Sample.translate (mat4_diag f1_0) (f0_0, f0_0, fm3_0) in
  mvp Sample.env projection view f0_0 f0_0
  = Sample.mul (Sample.mul projection view) (mat4_diag f1_0).
Proof.
  apply (proj2 (proj2 (composite_is_projection_view_model Sample.env 7 8
           (Sample.perspective (Sample.radians f45_0) f800_over_600 f0_1
                               f100_0)
           (Sample.translate (mat4_diag f1_0) (f0_0, f0_0, fm3_0)))));
    vm_compute; reflexivity.
Defined.

(** ** The program run on the sample collaborators *)

(** The window is closed during the third poll: three frames are drawn
    and the program exits with status 0. *)
Example main_exits_normally :
  fst (main Sample.env 5 (Sample.closing_world 2)) = Returned 0 /\
  glyph_draws (w_log (snd (main Sample.env 5 (Sample.closing_world 2))))
  = (3 * 42)%nat.
Proof. vm_compute. split; reflexivity. Qed.

Example status_after_ten_frames :
  status_text Sample.env (F32.of_Z 10) (F32.of_Z 15)
  = "Arrow keys control the rotation (10.0, 15.0)"%string.
Proof. vm_compute. reflexivity. Qed.

(** In a text that mixes baked and other characters only the baked ones
    advance the pen: "A", a tab and "B" end where "AB" ends. *)
Example tab_does_not_advance :
  let w := snd (loadFont Sample.env "arial.ttf" (quiet_world no_keys)) in
  fst (renderText_loop Sample.env
         (String "A" (String (ascii_of_nat 9) (String "B" EmptyString)))
         f25_0 f50_0 w)
  = fst (renderText_loop Sample.env "AB" f25_0 f50_0 w) /\
  fst (renderText_loop Sample.env "AB" f25_0 f50_0 w)
  = (F32.of_Z 89, f50_0).
Proof. vm_compute. split; reflexivity. Qed.

(** ** Further properties of the text overlay *)

Section MoreText.

Variable E : Env.

Lemma baked_char_value (c : ascii) :
  is_baked c = true -> char_value E c = codepoint c.
Proof.
  unfold is_baked, char_value, codepoint. intros H.
  apply andb_true_iff in H as [_ H]. apply Z.ltb_lt in H.
  destruct (char_is_signed E); [|reflexivity]. cbn [andb].
  destruct (128 <=? Z.of_N (N_of_ascii c)) eqn:H128; [|reflexivity].
  apply Z.leb_le in H128. lia.
Qed.

Lemma layout_baked_only (baked : list stbtt_bakedchar) (text : string) :
  forall x y : float,
    layout E baked (baked_only text) x y = layout E baked text x y.
Proof.
  induction text as [|c rest IH]; intros x y; [reflexivity|].
  cbn [baked_only layout]. rewrite (char_value_in_range E c).
  fold (is_baked c). destruct (is_baked c) eqn:Hc; [|apply IH].
  cbn [layout]. rewrite (char_value_in_range E c). fold (is_baked c).
  rewrite Hc.
  destruct (stbtt_GetBakedQuad E baked 512 512 (char_value E c - 32) x y 1)
    as [[x' y'] q].
  rewrite IH. reflexivity.
Qed.

Lemma layout_length (baked : list stbtt_bakedchar) (text : string) :
  forall x y : float,
    List.length (fst (layout E baked text x y)) = baked_count text.
Proof.
  induction text as [|c rest IH]; intros x y; [reflexivity|].
  cbn [layout baked_count]. rewrite (char_value_in_range E c).
  fold (is_baked c). destruct (is_baked c); [|apply IH].
  destruct (stbtt_GetBakedQuad E baked 512 512 (char_value E c - 32) x y 1)
    as [[x' y'] q].
  cbn [fst List.length]. rewrite IH. reflexivity.
Qed.

Lemma upload_fits_app (allocated : Z) (l1 l2 : list Ev.Call) :
  forallb (upload_fits allocated) (l1 ++ l2)
  = forallb (upload_fits allocated) l1 && forallb (upload_fits allocated) l2.
Proof. apply forallb_app. Qed.

Lemma upload_fits_glyphs (vbo : GLuint) (qs : list stbtt_aligned_quad) :
  forallb (upload_fits 96) (flat_map (glyph_calls vbo) qs) = true.
Proof. induction qs as [|q qs IH]; [reflexivity|]. cbn. exact IH. Qed.

Lemma text_platform_quad (signed : bool) (chardata : list stbtt_bakedchar)
    (index : Z) (x y : float) :
  0 <= index < 96 ->
  stbtt_GetBakedQuad (Variant.text_platform signed E) chardata 512 512
                     index x y 1
  = stbtt_GetBakedQuad E chardata 512 512 index x y 1.
Proof.
  intros H. cbn [stbtt_GetBakedQuad Variant.text_platform].
  replace (0 <=? index) with true by (symmetry; apply Z.leb_le; lia).
  replace (index <? 96) with true by (symmetry; apply Z.ltb_lt; lia).
  reflexivity.
Qed.

(** X1.  Characters outside the baked range are transparent: rendering a
    text does exactly what rendering the text without them does, call for
    call, and ends with the same pen. *)
Theorem unbaked_characters_are_transparent (text : string)
    (x y scale : float) (w : World) :
  renderText E text x y scale w = renderText E (baked_only text) x y scale w
  /\ fst (renderText_loop E text x y w)
     = fst (renderText_loop E (baked_only text) x y w).
Proof.
  rewrite !renderText_run, !renderText_loop_run. unfold renderText_calls.
  rewrite layout_baked_only. split; reflexivity.
Qed.

(** X2.  Rendering the concatenation of two texts uploads the quads of the
    first followed by the quads the second gets when it is rendered from
    the pen where the first ended, and ends with the pen of that second
    rendering. *)
Theorem rendering_is_additive (text1 text2 : string) (x y scale : float)
    (w : World) :
  let pen1 := fst (renderText_loop E text1 x y w) in
  let w1 := snd (renderText E text1 x y scale w) in
  quads_uploaded (issued (renderText E (text1 ++ text2) x y scale) w)
  = quads_uploaded (issued (renderText E text1 x y scale) w)
    ++ quads_uploaded
         (issued (renderText E text2 (fst pen1) (snd pen1) scale) w1)
  /\ fst (renderText_loop E (text1 ++ text2) x y w)
     = fst (renderText_loop E text2 (fst pen1) (snd pen1) w1).
Proof.
  cbv zeta. rewrite !renderText_quads, !renderText_loop_run.
  rewrite renderText_run. cbn [fst snd]. rewrite w_globals_log_more.
  rewrite layout_app. cbn [fst snd]. rewrite map_app. split; reflexivity.
Qed.


End MoreText.

(** X4.  [renderText] asks stb_truetype only for glyphs 0..95 of the 512
    by 512 atlas, whatever bytes the text holds and whether plain char is
    signed or not: with a quad placement that answers for nothing else,
    and with the other signedness, the quads and the pen are the same. *)
Theorem only_baked_glyphs_are_looked_up (E : Env) (signed : bool)
    (text : string)
    (x y scale : float) (w : World) :
  quads_uploaded
    (issued (renderText (Variant.text_platform signed E) text x y scale) w)
  = quads_uploaded (issued (renderText E text x y scale) w)
  /\ fst (renderText_loop (Variant.text_platform signed E) text x y w)
     = fst (renderText_loop E text x y w).
Proof.
  rewrite !renderText_quads, !renderText_loop_run.
  cbn [fst snd].
  assert (H : forall x y,
             layout (Variant.text_platform signed E)
                    (charData (w_globals w)) text x y
             = layout E (charData (w_globals w)) text x y).
  { clear x y. induction text as [|c rest IH]; intros x y; [reflexivity|].
    cbn [layout]. rewrite !char_value_in_range. fold (is_baked c).
    destruct (is_baked c) eqn:Hc; [|apply IH].
    rewrite !baked_char_value by exact Hc.
    unfold is_baked in Hc. apply andb_true_iff in Hc as [H32 H128].
    apply Z.leb_le in H32. apply Z.ltb_lt in H128.
    rewrite (text_platform_quad E) by lia.
    destruct (stbtt_GetBakedQuad E (charData (w_globals w)) 512 512
                (codepoint c - 32) x y 1) as [[x' y'] q].
    rewrite IH. reflexivity. }
  rewrite H. split; reflexivity.
Qed.



(** ** Further properties of the rotation update *)

Lemma SFcompare_opp (a b : float) :
  SFcompare (F32.opp a) (F32.opp b) = SFcompare b a.
Proof.
  rewrite (SFcompare_antisym a b).
  destruct a as [sa|sa| |sa ma ea], b as [sb|sb| |sb mb eb];
    cbn [F32.opp SFopp SFcompare option_map];
    try reflexivity;
    try (destruct sa; try destruct sb; reflexivity);
    try (destruct sb; reflexivity).
  destruct sa, sb; cbn [negb CompOpp]; try reflexivity;
    destruct (ea ?= eb); cbn [CompOpp]; try reflexivity.
  rewrite CompOpp_involutive. reflexivity.
Qed.

(** X5.  The wrap test is symmetric about zero: an angle is reset exactly
    when its negation is, so -360 is kept just as 360 is, and the wrap of a
    negated angle is 0.0 or the negated angle. *)
Theorem wrap_test_is_symmetric (r : float) :
  exceeds (F32.opp r) = exceeds r /\
  wrap (F32.opp r) = (if exceeds r then f0_0 else F32.opp r) /\
  exceeds f360 = false /\ exceeds fm360 = false.
Proof.
  assert (H : exceeds (F32.opp r) = exceeds r).
  { unfold exceeds, F32.gtb, F32.ltb, SFltb.
    change f360 with (F32.opp fm360) at 1.
    change fm360 with (F32.opp f360) at 2.
    rewrite !SFcompare_opp. apply orb_comm. }
  unfold wrap. rewrite H. repeat split; reflexivity.
Qed.

(** X6.  [processInput] raises the close flag when the escape key is held
    and never lowers it; it leaves the key state, the framebuffer size,
    the pending events and the globals alone; and the angles it returns
    depend on the four arrow keys only, not on escape or on the flag. *)
Theorem processInput_touches_only_the_close_flag
    (rotationX rotationY : float) (w : World) :
  let w' := snd (processInput rotationX rotationY w) in
  w_should_close w' = w_keys w GLFW_KEY_ESCAPE || w_should_close w /\
  w_keys w' = w_keys w /\
  w_framebuffer w' = w_framebuffer w /\
  w_pending w' = w_pending w /\
  w_globals w' = w_globals w /\
  forall w2 : World,
    w_keys w2 GLFW_KEY_UP = w_keys w GLFW_KEY_UP ->
    w_keys w2 GLFW_KEY_DOWN = w_keys w GLFW_KEY_DOWN ->
    w_keys w2 GLFW_KEY_LEFT = w_keys w GLFW_KEY_LEFT ->
    w_keys w2 GLFW_KEY_RIGHT = w_keys w GLFW_KEY_RIGHT ->
    fst (processInput rotationX rotationY w2)
    = fst (processInput rotationX rotationY w).
Proof.
  cbv zeta. rewrite !processInput_run. cbn [fst snd].
  repeat split.
  intros w2 Hu Hd Hl Hr. rewrite processInput_run. cbn [fst].
  unfold key_adjust. rewrite Hu, Hd, Hl, Hr. reflexivity.
Qed.

Lemma processInput_touches_only_the_close_flag_witness :
  fst (processInput f1_0 f1_5 Variant.escape_world)
  = fst (processInput f1_0 f1_5 (quiet_world no_keys)).
Proof.
  apply (proj2 (proj2 (proj2 (proj2 (proj2
           (processInput_touches_only_the_close_flag f1_0 f1_5
              (quiet_world no_keys)))))));
    reflexivity.
Defined.

(** ** Further properties of the shader programs and the font *)

Section MoreShaders.

Variable E : Env.

Lemma cerr_texts_app (l1 l2 : list Ev.Call) :
  cerr_texts (l1 ++ l2) = cerr_texts l1 ++ cerr_texts l2.
Proof.
  induction l1 as [|c l1 IH]; [reflexivity|].
  destruct c; cbn; rewrite ?IH; reflexivity.
Qed.

(** X7.  The error stream gets one message per failed step and nothing
    else: in this order, the vertex message when the vertex stage does not
    compile, the fragment message when the fragment stage does not, the
    link message when the program does not link, each carrying the info
    log the driver gives for that object.  When all three succeed nothing
    is written.  The world is otherwise left as it was. *)
Theorem one_message_per_failure (vertexSource fragmentSource : string)
    (w : World) :
  let w1 := after_vertex E vertexSource w in
  let w2 := after_fragment E vertexSource fragmentSource w in
  let vertexShader := new_name E w in
  let fragmentShader := new_name E w1 in
  cerr_texts (issued (createShaderProgram E vertexSource fragmentSource) w)
  = (if compile_status E GL_VERTEX_SHADER vertexSource w =? 0
     then ["ERROR::SHADER::VERTEX::COMPILATION_FAILED" ++ newline
           ++ compile_info_log E GL_VERTEX_SHADER vertexSource w
           ++ newline]%string
     else [])
    ++ (if compile_status E GL_FRAGMENT_SHADER fragmentSource w1 =? 0
        then ["ERROR::SHADER::FRAGMENT::COMPILATION_FAILED" ++ newline
              ++ compile_info_log E GL_FRAGMENT_SHADER fragmentSource w1
              ++ newline]%string
        else [])
    ++ (if link_status E vertexShader fragmentShader w2 =? 0
        then ["ERROR::SHADER::PROGRAM::LINKING_FAILED" ++ newline
              ++ link_info_log E vertexShader fragmentShader w2
              ++ newline]%string
        else []) /\
  snd (createShaderProgram E vertexSource fragmentSource w)
  = log_more (issued (createShaderProgram E vertexSource fragmentSource) w)
             w.
Proof.
  cbv zeta. rewrite createShaderProgram_issued, createShaderProgram_run.
  split; [|reflexivity].
  unfold createShaderProgram_calls. cbv zeta.
  rewrite !cerr_texts_app. unfold compile_calls, link_calls.
  rewrite !cerr_texts_app.
  set (w1 := after_vertex E vertexSource w).
  set (w2 := after_fragment E vertexSource fragmentSource w).
  destruct (compile_status E GL_VERTEX_SHADER vertexSource w =? 0);
    destruct (compile_status E GL_FRAGMENT_SHADER fragmentSource w1 =? 0);
    destruct (link_status E (new_name E w) (new_name E w1) w2 =? 0);
    reflexivity.
Qed.

Lemma font_buffer_cases (file : File) :
  (List.length (file_read file) = Z.to_nat (file_size file) ->
   font_buffer E file = file_read file) /\
  (file_read file = [] ->
   font_buffer E file = fresh_array E (file_size file)).
Proof.
  unfold font_buffer, read_into.
  assert (Hfresh : List.length (fresh_array E (file_size file))
                   = Z.to_nat (file_size file))
    by (unfold fresh_array; rewrite length_map, length_seq; reflexivity).
  generalize dependent (fresh_array E (file_size file)).
  intros fresh Hfresh. split.
  - intros H. rewrite Hfresh, <- H, firstn_all, skipn_all2, app_nil_r by lia.
    reflexivity.
  - intros ->. destruct fresh; reflexivity.
Qed.


End MoreShaders.


(** ** Further properties of the render loop *)

Lemma cube_draws_app (l1 l2 : list Ev.Call) :
  cube_draws (l1 ++ l2) = (cube_draws l1 + cube_draws l2)%nat.
Proof.
  induction l1 as [|c l1 IH]; [reflexivity|].
  destruct c; cbn; rewrite ?IH; reflexivity.
Qed.

Lemma quiet_no_draws (l : list Ev.Call) :
  forallb quiet l = true -> cube_draws l = 0%nat /\ glyph_draws l = 0%nat.
Proof.
  induction l as [|c l IH]; [split; reflexivity|].
  destruct c; cbn; try discriminate; exact IH.
Qed.

Lemma cube_draws_glyphs (vbo : GLuint) (quads : list stbtt_aligned_quad) :
  cube_draws (flat_map (glyph_calls vbo) quads) = 0%nat.
Proof. induction quads as [|q quads IH]; [reflexivity|exact IH]. Qed.

Lemma closes_within_set (pending : list Events) (keys : Key -> bool) :
  closes_within pending keys true = Some 0%nat.
Proof. destruct pending; reflexivity. Qed.

Lemma closes_within_step (pending : list Events) (keys : Key -> bool) :
  closes_within pending keys false
  = option_map S
      (closes_within (tl pending)
         (match pending with [] => keys | ev :: _ => ev_keys ev end)
         (keys GLFW_KEY_ESCAPE
          || match pending with [] => false | ev :: _ => ev_close ev end)).
Proof.
  destruct pending as [|ev rest]; [|reflexivity].
  cbn [closes_within tl]. rewrite orb_false_r.
  destruct (keys GLFW_KEY_ESCAPE); reflexivity.
Qed.

Section MoreLoop.

Variable E : Env.
Variables cubeShaderProgram VAO : GLuint.
Variables projection view : mat4.
Variables speedX speedY : float.

Lemma frame_draws_once (rotation : float * float) (w : World) :
  exists calls : list Ev.Call,
    w_log (snd (frame E cubeShaderProgram VAO projection view speedX speedY
                      rotation w))
    = w_log w ++ calls /\
    cube_draws calls = 1%nat.
Proof.
  destruct (frame_log E cubeShaderProgram VAO projection view speedX speedY
                      rotation w) as (l1 & l2 & l3 & H).
  eexists. split; [exact H|].
  unfold frame_calls, overlay_calls, renderText_calls, scene_calls,
    input_calls, poll_calls.
  generalize (layout E (charData (w_globals w))
                (status_text E
                   (fst (next_angles (w_keys w) speedX speedY rotation))
                   (snd (next_angles (w_keys w) speedX speedY rotation)))
                f25_0 f50_0).
  intros laid.
  rewrite !cube_draws_app, cube_draws_glyphs.
  destruct (w_keys w GLFW_KEY_ESCAPE);
    destruct (w_pending w) as [|ev rest];
    try destruct (same_size (ev_framebuffer ev) (w_framebuffer w));
    reflexivity.
Qed.

Lemma render_loop_outcome (fuel : nat) :
  forall (rotation : float * float) (w : World),
  exists calls : list Ev.Call,
    w_log (snd (render_loop E fuel cubeShaderProgram VAO projection view
                            speedX speedY rotation w))
    = w_log w ++ calls /\
    w_globals (snd (render_loop E fuel cubeShaderProgram VAO projection view
                                speedX speedY rotation w))
    = w_globals w /\
    match closes_within (w_pending w) (w_keys w) (w_should_close w) with
    | Some n =>
        if (n <? fuel)%nat
        then (exists rotation' : float * float,
                 fst (render_loop E fuel cubeShaderProgram VAO projection
                                  view speedX speedY rotation w)
                 = Returned rotation') /\
             cube_draws calls = n
        else fst (render_loop E fuel cubeShaderProgram VAO projection view
                              speedX speedY rotation w) = Running /\
             cube_draws calls = fuel
    | None =>
        fst (render_loop E fuel cubeShaderProgram VAO projection view
                         speedX speedY rotation w) = Running /\
        cube_draws calls = fuel
    end.
Proof.
  induction fuel as [|fuel IH]; intros rotation w.
  - exists []. cbn [render_loop]. rewrite ret_run. cbn [fst snd].
    rewrite app_nil_r. repeat split.
    destruct (closes_within _ _ _); split; reflexivity.
  - rewrite render_loop_turn. cbv zeta.
    destruct (w_should_close w) eqn:Hc.
    + exists [Ev.glfwWindowShouldClose]. cbn [fst snd].
      rewrite closes_within_set. repeat split. exists rotation. reflexivity.
    + rewrite closes_within_step.
      set (w1 := log_more [Ev.glfwWindowShouldClose] w).
      destruct (frame_draws_once rotation w1) as (body_calls & Hlog & Hone).
      pose proof (frame_globals E cubeShaderProgram VAO projection view
                    speedX speedY rotation w1) as Hglobals.
      pose proof (frame_should_close E cubeShaderProgram VAO projection view
                    speedX speedY rotation w1) as Hflag.
      pose proof (frame_keys E cubeShaderProgram VAO projection view
                    speedX speedY rotation w1) as Hkeys.
      pose proof (frame_pending E cubeShaderProgram VAO projection view
                    speedX speedY rotation w1) as Hpending.
      unfold close_requested in Hflag.
      subst w1.
      rewrite w_log_log_more in Hlog.
      rewrite w_globals_log_more in Hglobals.
      rewrite w_keys_log_more, w_should_close_log_more, w_pending_log_more
        in Hflag.
      rewrite w_keys_log_more, w_pending_log_more in Hkeys.
      rewrite w_pending_log_more in Hpending.
      rewrite Hc, orb_false_r in Hflag.
      generalize dependent
        (frame E cubeShaderProgram VAO projection view speedX speedY
               rotation (log_more [Ev.glfwWindowShouldClose] w)).
      intros out Hlog Hglobals Hflag Hkeys Hpending.
      destruct (IH (fst out) (snd out)) as (rest & Hrest & Hg & Hout).
      rewrite Hpending, Hkeys, Hflag in Hout.
      exists (Ev.glfwWindowShouldClose :: body_calls ++ rest).
      split; [rewrite Hrest, Hlog, <- !app_assoc; reflexivity|].
      split; [rewrite Hg; exact Hglobals|].
      change (Ev.glfwWindowShouldClose :: body_calls ++ rest)
        with ([Ev.glfwWindowShouldClose] ++ body_calls ++ rest).
      rewrite !cube_draws_app, Hone. cbn [cube_draws Nat.add].
      destruct (closes_within _ _ _) as [n|]; cbn [option_map].
      * change (S n <? S fuel)%nat with (n <? fuel)%nat.
        destruct (n <? fuel)%nat; destruct Hout as [H1 H2];
          (split; [exact H1|now rewrite H2]).
      * destruct Hout as [H1 H2]. split; [exact H1|now rewrite H2].
Qed.

Lemma baked_count_app (text1 text2 : string) :
  baked_count (text1 ++ text2)
  = (baked_count text1 + baked_count text2)%nat.
Proof.
  induction text1 as [|c rest IH]; [reflexivity|].
  cbn [append baked_count]. destruct (is_baked c); rewrite IH; reflexivity.
Qed.

Lemma status_text_baked_count (rotationX rotationY : float) :
  baked_count (status_text E rotationX rotationY)
  = (36 + baked_count (format_1f E rotationX)
     + baked_count (format_1f E rotationY))%nat.
Proof.
  unfold status_text. rewrite !baked_count_app.
  change (baked_count "Arrow keys control the rotation (") with 33%nat.
  change (baked_count ", ") with 2%nat.
  change (baked_count ")") with 1%nat.
  lia.
Qed.

(** X16.  One iteration draws the cube once and one glyph for each baked
    character of the status text: the 36 characters of its fixed part and
    those of the two formatted angles.  Every glyph upload stays within the
    96 bytes of the text buffer. *)
Theorem frame_draws_one_cube_and_the_status_text
    (rotation : float * float) (w : World) :
  let calls := issued (frame E cubeShaderProgram VAO projection view
                             speedX speedY rotation) w in
  let rotation' := next_angles (w_keys w) speedX speedY rotation in
  cube_draws calls = 1%nat /\
  glyph_draws calls
  = (36 + baked_count (format_1f E (fst rotation'))
     + baked_count (format_1f E (snd rotation')))%nat /\
  forallb (upload_fits 96) calls = true.
Proof.
  cbv zeta. split.
  { destruct (frame_draws_once rotation w) as (calls & Hlog & Hone).
    rewrite (issued_of_log _ _ _ Hlog). exact Hone. }
  destruct (frame_issued E cubeShaderProgram VAO projection view
                         speedX speedY rotation w) as (l1 & l2 & l3 & ->).
  unfold frame_calls, overlay_calls, renderText_calls, scene_calls,
    input_calls, poll_calls.
  rewrite !glyph_draws_app, glyph_draws_glyphs, layout_length,
    status_text_baked_count.
  rewrite !upload_fits_app, upload_fits_glyphs.
  generalize (baked_count
                (format_1f E
                   (fst (next_angles (w_keys w) speedX speedY rotation)))).
  generalize (baked_count
                (format_1f E
                   (snd (next_angles (w_keys w) speedX speedY rotation)))).
  intros a b.
  destruct (w_keys w GLFW_KEY_ESCAPE);
    destruct (w_pending w) as [|ev rest];
    try destruct (same_size (ev_framebuffer ev) (w_framebuffer w));
    cbn [glyph_draws forallb upload_fits andb Nat.add];
    (split; [lia|reflexivity]).
Qed.

(** X10.  The loop ends exactly when the close flag is seen set at its
    test.  Let the events to come, the key state and the flag be such that
    the flag is first seen set after [n] iterations, that is at test
    [n + 1].  The loop cut off after [fuel] tests has then returned when
    [n < fuel], after [n] cube draws; when [fuel <= n], and when the flag
    is never seen set because neither the escape key nor a close request
    comes, it is still running and has drawn one cube per test.  It leaves
    the text objects as they were. *)
Theorem loop_runs_until_close_is_seen (fuel : nat)
    (rotation : float * float) (w : World) :
  let loop := render_loop E fuel cubeShaderProgram VAO projection view
                          speedX speedY rotation in
  w_globals (snd (loop w)) = w_globals w /\
  match closes_within (w_pending w) (w_keys w) (w_should_close w) with
  | Some n =>
      if (n <? fuel)%nat
      then (exists rotation' : float * float,
               fst (loop w) = Returned rotation') /\
           cube_draws (issued loop w) = n
      else fst (loop w) = Running /\ cube_draws (issued loop w) = fuel
  | None => fst (loop w) = Running /\ cube_draws (issued loop w) = fuel
  end.
Proof.
  cbv zeta.
  destruct (render_loop_outcome fuel rotation w) as (calls & Hlog & Hg & H).
  rewrite (issued_of_log _ _ _ Hlog). split; [exact Hg|exact H].
Qed.

End MoreLoop.

(** ** Further properties of the whole run *)

Section MoreRun.

Variable E : Env.

(** [main] once the window system is up: the geometry, the two shader
    programs, the font and the loop, then the cleanup when the loop
    returns. *)
Lemma main_after_startup (fuel : nat) (w : World) :
  glfw_init_ok E = true -> glfw_window_ok E = true -> glad_ok E = true ->
  main E fuel w
  = match fst (font_loaded E w) with
    | Returned _ =>
        match fst (main_loop E fuel w) with
        | Returned _ =>
            (Returned 0,
             log_more
               (cleanup_calls (fst (cube_program E w)) (cube_VAO E w)
                              (cube_VBO E w) (cube_EBO E w)
                              (w_globals (snd (main_loop E fuel w))))
               (snd (main_loop E fuel w)))
        | Failed e => (Failed e, snd (main_loop E fuel w))
        | Undefined => (Undefined, snd (main_loop E fuel w))
        | Running => (Running, snd (main_loop E fuel w))
        end
    | Failed e => (Failed e, snd (font_loaded E w))
    | Undefined => (Undefined, snd (font_loaded E w))
    | Running => (Running, snd (font_loaded E w))
    end.
Proof.
  intros Hinit Hwindow Hglad.
  unfold main, glfwInit, glfwCreateWindow, gladLoadGLLoader,
    glGenVertexArrays, glGenBuffers.
  step. rewrite Hinit. cbn [negb].
  steps. rewrite Hwindow. cbn [negb].
  steps. rewrite Hglad. cbn [negb].
  steps.
  unfold main_loop, font_loaded, font_world, text_program, cube_program.
  match goal with
  | |- bind (createShaderProgram E _ _) _ ?W = _ =>
      change (geometry_world E w) with W;
      repeat match goal with
             | |- context [Ev.glBindVertexArray ?v] =>
                 progress change v with (cube_VAO E w)
             | |- context [Ev.glBindBuffer GL_ARRAY_BUFFER ?v] =>
                 progress change v with (cube_VBO E w)
             | |- context [Ev.glBindBuffer GL_ELEMENT_ARRAY_BUFFER ?v] =>
                 progress change v with (cube_EBO E w)
             end;
      generalize W
  end.
  generalize (cube_VAO E w), (cube_VBO E w), (cube_EBO E w).
  intros VAO VBO EBO w1.
  rewrite bind_run.
  generalize (createShaderProgram E vertexShaderSource fragmentShaderSource
                                  w1).
  intros [cube w2]. cbn [fst snd].
  rewrite bind_run.
  generalize (createShaderProgram E textVertexShaderSource
                                  textFragmentShaderSource w2).
  intros [text w3]. cbn [fst snd].
  steps. rewrite bind_run.
  match goal with
  | |- context [loadFont E ?p ?W] => generalize (loadFont E p W)
  end.
  intros [loaded w4]. cbn [fst snd].
  destruct loaded as [[]|e| |]; try (rewrite ret_run; reflexivity).
  rewrite bind_run.
  match goal with
  | |- context [render_loop E fuel ?c ?v ?p ?vw ?sx ?sy ?r ?W] =>
      generalize (render_loop E fuel c v p vw sx sy r W)
  end.
  intros [looped w5]. cbn [fst snd].
  destruct looped as [result|e| |]; try (rewrite ret_run; reflexivity).
  steps. rewrite ret_run. reflexivity.
Qed.

Lemma font_world_facts (w : World) :
  exists shader_calls : list Ev.Call,
    w_log (font_world E w)
    = w_log w
      ++ context_calls ++ blend_calls
      ++ geometry_calls (cube_VAO E w) (cube_VBO E w) (cube_EBO E w)
      ++ shader_calls /\
    forallb quiet shader_calls = true /\
    w_keys (font_world E w) = w_keys w /\
    w_pending (font_world E w) = w_pending w /\
    w_should_close (font_world E w) = w_should_close w /\
    textShaderProgram (w_globals (font_world E w)) = fst (text_program E w).
Proof.
  unfold font_world, text_program, cube_program. cbv zeta.
  rewrite (createShaderProgram_run E vertexShaderSource fragmentShaderSource
             (geometry_world E w)).
  cbn [fst snd].
  pose proof (quiet_createShaderProgram_calls E vertexShaderSource
                fragmentShaderSource (geometry_world E w)) as Hcube.
  generalize dependent (createShaderProgram_calls E vertexShaderSource
                          fragmentShaderSource (geometry_world E w)).
  intros cube_calls Hcube.
  rewrite (createShaderProgram_run E textVertexShaderSource
             textFragmentShaderSource).
  cbn [fst snd].
  match goal with
  | |- context [createShaderProgram_calls E ?vs ?fs ?W] =>
      pose proof (quiet_createShaderProgram_calls E vs fs W) as Htext;
      generalize dependent (createShaderProgram_calls E vs fs W);
      intros text_calls Htext
  end.
  match goal with
  | |- context [new_name E ?W] => generalize (new_name E W); intro text
  end.
  exists (cube_calls ++ text_calls).
  rewrite forallb_app, Hcube, Htext.
  unfold geometry_world.
  rewrite w_log_with_globals, !w_log_log_more, <- !app_assoc.
  repeat split.
Qed.

Lemma loadFont_log (fontPath : string) (w : World) :
  exists calls : list Ev.Call,
    w_log (snd (loadFont E fontPath w)) = w_log w ++ calls.
Proof.
  destruct (fs_open E fontPath) as [file|] eqn:H.
  - destruct (new_array_cases E (file_size file)) as [Hnew|Hnew].
    + destruct (loadFont_run E fontPath file w H Hnew) as (t & a & b & ->).
      eexists. reflexivity.
    + rewrite (loadFont_no_memory E fontPath file w H Hnew).
      eexists. reflexivity.
  - rewrite (loadFont_missing E fontPath w H). eexists. reflexivity.
Qed.

(** X12.  Each of the three start-up failures ends [main] with status -1
    after one message on the error stream, and nothing of OpenGL is called.
    A window that cannot be created is followed by [glfwTerminate]; a
    loader that fails is not: the window and the library are left as they
    are. *)
Theorem startup_failures_exit_with_minus_one (fuel : nat) (w : World) :
  (glfw_init_ok E = false ->
   main E fuel w
   = (Returned (-1),
      log_more [Ev.glfwInit;
                Ev.cerr ("Failed to initialize GLFW" ++ newline)] w)) /\
  (glfw_init_ok E = true -> glfw_window_ok E = false ->
   main E fuel w
   = (Returned (-1),
      log_more (window_calls
                ++ [Ev.cerr ("Failed to create GLFW window" ++ newline);
                    Ev.glfwTerminate]) w)) /\
  (glfw_init_ok E = true -> glfw_window_ok E = true -> glad_ok E = false ->
   main E fuel w
   = (Returned (-1),
      log_more (context_calls
                ++ [Ev.cerr ("Failed to initialize GLAD" ++ newline)]) w)).
Proof.
  unfold main, glfwInit, glfwCreateWindow, gladLoadGLLoader.
  repeat split.
  - intros Hinit. step. rewrite Hinit. cbn [negb]. step. reflexivity.
  - intros Hinit Hwindow. step. rewrite Hinit. cbn [negb].
    steps. rewrite Hwindow. cbn [negb]. steps. reflexivity.
  - intros Hinit Hwindow Hglad. step. rewrite Hinit. cbn [negb].
    steps. rewrite Hwindow. cbn [negb]. steps. rewrite Hglad. cbn [negb].
    steps. reflexivity.
Qed.

(** X13.  Without the font file [main] does not check the stream it gets:
    the run ends in the undefined behaviour of [loadFont] right after the
    failed [fopen], before any frame: nothing has been drawn and nothing
    is cleaned up. *)
Theorem missing_font_ends_the_run (fuel : nat) (w : World) :
  glfw_init_ok E = true -> glfw_window_ok E = true -> glad_ok E = true ->
  fs_open E "arial.ttf" = None ->
  fst (main E fuel w) = Undefined /\
  cube_draws (issued (main E fuel) w) = 0%nat /\
  glyph_draws (issued (main E fuel) w) = 0%nat /\
  last (issued (main E fuel) w) Ev.glfwInit = Ev.fopen "arial.ttf" "rb".
Proof.
  intros Hinit Hwindow Hglad Hopen.
  pose proof (main_after_startup fuel w Hinit Hwindow Hglad) as Hmain.
  unfold font_loaded in Hmain.
  rewrite (loadFont_missing E "arial.ttf" (font_world E w) Hopen) in Hmain.
  cbn [fst snd] in Hmain.
  destruct (font_world_facts w) as (shader_calls & Hlog & Hquiet & _).
  destruct (quiet_no_draws _ Hquiet) as [Hc Hg].
  assert (Hissued :
            issued (main E fuel) w
            = (context_calls ++ blend_calls
               ++ geometry_calls (cube_VAO E w) (cube_VBO E w) (cube_EBO E w)
               ++ shader_calls)
              ++ [Ev.fopen "arial.ttf" "rb"]).
  { apply issued_of_log. rewrite Hmain. cbn [snd].
    rewrite w_log_log_more, Hlog, <- !app_assoc. reflexivity. }
  rewrite Hissued, Hmain, last_last.
  rewrite !cube_draws_app, !glyph_draws_app, Hc, Hg.
  repeat split.
Qed.

Lemma main_exit_folded (fuel n : nat) (w : World) (file : File) :
  glfw_init_ok E = true -> glfw_window_ok E = true -> glad_ok E = true ->
  fs_open E "arial.ttf" = Some file ->
  new_array E (file_size file) = Some (fresh_array E (file_size file)) ->
  closes_within (w_pending w) (w_keys w) (w_should_close w) = Some n ->
  (n < fuel)%nat ->
  let g := w_globals (snd (loadFont E "arial.ttf" (font_world E w))) in
  fst (main E fuel w) = Returned 0 /\
  cube_draws (issued (main E fuel) w) = n /\
  (exists middle : list Ev.Call,
      issued (main E fuel) w
      = context_calls ++ blend_calls
        ++ geometry_calls (cube_VAO E w) (cube_VBO E w) (cube_EBO E w)
        ++ middle
        ++ [ Ev.glDeleteVertexArrays 1 (cube_VAO E w);
             Ev.glDeleteBuffers 1 (cube_VBO E w);
             Ev.glDeleteBuffers 1 (cube_EBO E w);
             Ev.glDeleteProgram (fst (cube_program E w));
             Ev.glDeleteVertexArrays 1 (textVAO g);
             Ev.glDeleteBuffers 1 (textVBO g);
             Ev.glDeleteProgram (fst (text_program E w));
             Ev.glfwDestroyWindow;
             Ev.glfwTerminate ]) /\
  In (Ev.glBindVertexArray (textVAO g))
     (issued (loadFont E "arial.ttf") (font_world E w)) /\
  In (Ev.glBindBuffer GL_ARRAY_BUFFER (textVBO g))
     (issued (loadFont E "arial.ttf") (font_world E w)) /\
  In (Ev.glBindTexture GL_TEXTURE_2D (fontTexture g))
     (issued (loadFont E "arial.ttf") (font_world E w)).
Proof.
  intros Hinit Hwindow Hglad Hopen Hnew Hclose Hfuel.
  cbv zeta.
  pose proof (main_after_startup fuel w Hinit Hwindow Hglad) as Hmain.
  destruct (font_world_facts w)
    as (shader_calls & Hlog & Hquiet & Hkeys & Hpending & Hflag & Htext).
  destruct (quiet_no_draws _ Hquiet) as [Hc _].
  unfold main_loop, font_loaded in Hmain.
  destruct (loadFont_run E "arial.ttf" file (font_world E w) Hopen Hnew)
    as (texture & vao & vbo & Hfont).
  assert (Hfont_issued :
            issued (loadFont E "arial.ttf") (font_world E w)
            = loadFont_read_calls "arial.ttf" file
              ++ loadFont_upload_calls (snd (fst (baked E file)))
                                       texture vao vbo)
    by (apply issued_of_log; rewrite Hfont; reflexivity).
  rewrite Hfont_issued. rewrite Hfont in Hmain |- *.
  cbn [fst snd] in Hmain |- *.
  rewrite w_globals_with_globals.
  cbn [textVAO textVBO fontTexture].
  assert (Hbound :
            In (Ev.glBindVertexArray vao)
               (loadFont_read_calls "arial.ttf" file
                ++ loadFont_upload_calls (snd (fst (baked E file)))
                                         texture vao vbo) /\
            In (Ev.glBindBuffer GL_ARRAY_BUFFER vbo)
               (loadFont_read_calls "arial.ttf" file
                ++ loadFont_upload_calls (snd (fst (baked E file)))
                                         texture vao vbo) /\
            In (Ev.glBindTexture GL_TEXTURE_2D texture)
               (loadFont_read_calls "arial.ttf" file
                ++ loadFont_upload_calls (snd (fst (baked E file)))
                                         texture vao vbo)).
  { repeat split; apply in_or_app; right; cbn; auto 12. }
  match type of Hmain with
  | context [render_loop E fuel ?c ?v ?p ?vw ?sx ?sy ?r ?W] =>
      destruct (render_loop_outcome E c v p vw sx sy fuel r W)
        as (calls & Hloop & Hglobals & Hout);
      rewrite w_pending_with_globals, w_pending_log_more,
        w_keys_with_globals, w_keys_log_more,
        w_should_close_with_globals, w_should_close_log_more,
        Hpending, Hkeys, Hflag, Hclose in Hout;
      rewrite w_log_with_globals, w_log_log_more, Hlog in Hloop;
      rewrite w_globals_with_globals in Hglobals;
      generalize dependent (render_loop E fuel c v p vw sx sy r W)
  end.
  apply Nat.ltb_lt in Hfuel. rewrite Hfuel.
  intros [looped w5]. cbn [fst snd].
  intros Hmain Hloop Hglobals [[rotation' Hret] Hdraws]. subst looped.
  rewrite Hglobals in Hmain.
  cbn [cleanup_calls textVAO textVBO textShaderProgram] in Hmain.
  rewrite Htext in Hmain.
  destruct (quiet_no_draws _ (quiet_loadFont_calls "arial.ttf" file
                                (snd (fst (baked E file))) texture vao vbo))
    as [Hfontdraws _].
  clear Hfont Hfont_issued.
  generalize dependent (loadFont_read_calls "arial.ttf" file
                        ++ loadFont_upload_calls (snd (fst (baked E file)))
                                                 texture vao vbo).
  intros font_calls Hbound Hloop Hfontdraws.
  assert (Hissued :
            issued (main E fuel) w
            = context_calls ++ blend_calls
              ++ geometry_calls (cube_VAO E w) (cube_VBO E w) (cube_EBO E w)
              ++ (shader_calls ++ font_calls ++ calls)
              ++ [ Ev.glDeleteVertexArrays 1 (cube_VAO E w);
                   Ev.glDeleteBuffers 1 (cube_VBO E w);
                   Ev.glDeleteBuffers 1 (cube_EBO E w);
                   Ev.glDeleteProgram (fst (cube_program E w));
                   Ev.glDeleteVertexArrays 1 vao;
                   Ev.glDeleteBuffers 1 vbo;
                   Ev.glDeleteProgram (fst (text_program E w));
                   Ev.glfwDestroyWindow;
                   Ev.glfwTerminate ]).
  { apply issued_of_log. rewrite Hmain. cbn [snd].
    rewrite w_log_log_more, Hloop. unfold cleanup_calls.
    cbn [textVAO textVBO textShaderProgram].
    generalize (geometry_calls (cube_VAO E w) (cube_VBO E w) (cube_EBO E w)),
      (cube_VAO E w), (cube_VBO E w), (cube_EBO E w),
      (fst (cube_program E w)), (fst (text_program E w)),
      context_calls, blend_calls.
    intros. rewrite <- !app_assoc. reflexivity. }
  rewrite Hissued, Hmain. cbn [fst].
  split; [reflexivity|]. split; [|split; [|exact Hbound]].
  - generalize (cube_VAO E w), (cube_VBO E w), (cube_EBO E w),
      (fst (cube_program E w)), (fst (text_program E w)).
    intros VAO VBO EBO cube text.
    rewrite !cube_draws_app, Hc, Hfontdraws, Hdraws. cbn. lia.
  - exists (shader_calls ++ font_calls ++ calls). reflexivity.
Qed.




Lemma main_begins_with_the_geometry (fuel : nat) (w : World) :
  glfw_init_ok E = true -> glfw_window_ok E = true -> glad_ok E = true ->
  exists rest : list Ev.Call,
    issued (main E fuel) w
    = context_calls ++ blend_calls
      ++ geometry_calls (cube_VAO E w) (cube_VBO E w) (cube_EBO E w)
      ++ rest.
Proof.
  intros Hinit Hwindow Hglad.
  pose proof (main_after_startup fuel w Hinit Hwindow Hglad) as Hmain.
  destruct (font_world_facts w) as (shader_calls & Hlog & _).
  unfold main_loop, font_loaded in Hmain.
  destruct (loadFont_log "arial.ttf" (font_world E w))
    as (font_calls & Hfont).
  rewrite Hlog in Hfont.
  match type of Hmain with
  | context [render_loop E fuel ?c ?v ?p ?vw ?sx ?sy ?r ?W] =>
      destruct (render_loop_outcome E c v p vw sx sy fuel r W)
        as (calls & Hloop & _);
      rewrite Hfont in Hloop;
      generalize dependent (render_loop E fuel c v p vw sx sy r W)
  end.
  intros [looped w5]. cbn [fst snd].
  generalize dependent (loadFont E "arial.ttf" (font_world E w)).
  intros [loaded w4]. cbn [fst snd]. intros Hfont Hmain Hloop.
  generalize dependent (geometry_calls (cube_VAO E w) (cube_VBO E w)
                                       (cube_EBO E w)).
  generalize (cleanup_calls (fst (cube_program E w)) (cube_VAO E w)
                            (cube_VBO E w) (cube_EBO E w) (w_globals w5)).
  generalize context_calls, blend_calls.
  intros context blend cleanup geometry Hlog Hfont Hloop.
  destruct loaded as [[]|e| |];
    [destruct looped as [result|e| |]| | |];
    eexists; apply issued_of_log; rewrite Hmain; cbn [snd];
    rewrite ?w_log_log_more, ?Hloop, ?Hfont, <- ?app_assoc; reflexivity.
Qed.

(** X9.  The cube mesh is consistent with the calls of [main] that use it.
    Once the window system is up, [main] uploads the vertex floats and the
    indices as static buffers whose announced sizes are the sizes of the
    data; the two attributes it declares, three floats at offset 0 and three
    floats right after them, fill the stride exactly; the stride divides
    the vertex buffer into whole vertices and every index names one of
    them; and the draw of every iteration of the loop reads as many indices
    as were uploaded. *)
Theorem cube_mesh_is_consistent (fuel : nat) (w : World) :
  glfw_init_ok E = true -> glfw_window_ok E = true -> glad_ok E = true ->
  exists vertex_bytes index_bytes stride colour_offset : Z,
    In (Ev.glBufferData GL_ARRAY_BUFFER vertex_bytes (Floats vertices)
                        GL_STATIC_DRAW)
       (issued (main E fuel) w) /\
    In (Ev.glBufferData GL_ELEMENT_ARRAY_BUFFER index_bytes (UInts indices)
                        GL_STATIC_DRAW)
       (issued (main E fuel) w) /\
    In (Ev.glVertexAttribPointer 0 3 GL_FLOAT false stride 0)
       (issued (main E fuel) w) /\
    In (Ev.glVertexAttribPointer 1 3 GL_FLOAT false stride colour_offset)
       (issued (main E fuel) w) /\
    vertex_bytes = data_bytes (Floats vertices) /\
    index_bytes = data_bytes (UInts indices) /\
    colour_offset = 3 * 4 /\
    stride = colour_offset + 3 * 4 /\
    vertex_bytes mod stride = 0 /\
    Forall (fun index => 0 <= index < vertex_bytes / stride) indices /\
    forall (cubeShaderProgram VAO : GLuint) (projection view : mat4)
           (speedX speedY : float) (rotation : float * float) (w' : World),
      In (Ev.glDrawElements GL_TRIANGLES (Z.of_nat (List.length indices))
                            GL_UNSIGNED_INT 0)
         (issued (frame E cubeShaderProgram VAO projection view
                        speedX speedY rotation) w').
Proof.
  intros Hinit Hwindow Hglad.
  destruct (main_begins_with_the_geometry fuel w Hinit Hwindow Hglad)
    as (rest & ->).
  exists (4 * Z.of_nat (List.length vertices)),
    (4 * Z.of_nat (List.length indices)), (6 * 4), (3 * 4).
  assert (Hin : forall call : Ev.Call,
             In call (geometry_calls (cube_VAO E w) (cube_VBO E w)
                                     (cube_EBO E w)) ->
             In call (context_calls ++ blend_calls
                      ++ geometry_calls (cube_VAO E w) (cube_VBO E w)
                                        (cube_EBO E w)
                      ++ rest)).
  { intros call H. apply in_or_app. right. apply in_or_app. right.
    apply in_or_app. left. exact H. }
  split; [apply Hin; cbn; auto 12|].
  split; [apply Hin; cbn; auto 12|].
  split; [apply Hin; cbn; auto 12|].
  split; [apply Hin; cbn; auto 14|].
  split; [reflexivity|]. split; [reflexivity|].
  split; [reflexivity|]. split; [reflexivity|].
  split; [reflexivity|].
  split; [repeat constructor; vm_compute; discriminate|].
  intros cube VAO projection view speedX speedY rotation w'.
  destruct (frame_issued E cube VAO projection view speedX speedY rotation w')
    as (l1 & l2 & l3 & ->).
  unfold frame_calls, scene_calls.
  apply in_or_app. left. apply in_or_app. right. apply in_or_app. left.
  cbn [In]. auto 10.
Qed.

End MoreRun.

Lemma startup_failures_exit_with_minus_one_witness :
  fst (main (Variant.window_system false true true Sample.env) 5
            (quiet_world no_keys)) = Returned (-1) /\
  fst (main (Variant.window_system true false true Sample.env) 5
            (quiet_world no_keys)) = Returned (-1) /\
  fst (main (Variant.window_system true true false Sample.env) 5
            (quiet_world no_keys)) = Returned (-1).
Proof.
  split; [|split].
  - rewrite (proj1 (startup_failures_exit_with_minus_one
                      (Variant.window_system false true true Sample.env) 5
                      (quiet_world no_keys)));
      reflexivity.
  - rewrite (proj1 (proj2 (startup_failures_exit_with_minus_one
                             (Variant.window_system true false true
                                                    Sample.env) 5
                             (quiet_world no_keys))));
      reflexivity.
  - rewrite (proj2 (proj2 (startup_failures_exit_with_minus_one
                             (Variant.window_system true true false
                                                    Sample.env) 5
                             (quiet_world no_keys))));
      reflexivity.
Defined.

Lemma missing_font_ends_the_run_witness :
  fst (main Sample.env_no_font 5 (quiet_world no_keys)) = Undefined.
Proof.
  apply (missing_font_ends_the_run Sample.env_no_font 5
           (quiet_world no_keys)); reflexivity.
Defined.



Lemma cube_mesh_is_consistent_witness :
  exists vertex_bytes index_bytes : Z,
    In (Ev.glBufferData GL_ARRAY_BUFFER vertex_bytes (Floats vertices)
                        GL_STATIC_DRAW)
       (issued (main Sample.env 2) (quiet_world no_keys)) /\
    In (Ev.glBufferData GL_ELEMENT_ARRAY_BUFFER index_bytes (UInts indices)
                        GL_STATIC_DRAW)
       (issued (main Sample.env 2) (quiet_world no_keys)).
Proof.
  destruct (cube_mesh_is_consistent Sample.env 2 (quiet_world no_keys)
              eq_refl eq_refl eq_refl)
    as (vertex_bytes & index_bytes & stride & colour_offset & H1 & H2 & _).
  exists vertex_bytes, index_bytes. split; [exact H1|exact H2].
Defined.

(** ** The angles along the whole run *)

Lemma finite_not_nan (r : float) :
  F32.is_finite r = true -> F32.is_nan r = false.
Proof. destruct r; [reflexivity|reflexivity|discriminate|reflexivity]. Qed.

Lemma within_360_not_nan (rotation : float * float) :
  within_360 rotation = true ->
  F32.is_nan (fst rotation) = false /\ F32.is_nan (snd rotation) = false.
Proof.
  unfold within_360. intros H.
  apply andb_true_iff in H as [H Hy2].
  apply andb_true_iff in H as [H Hy1].
  apply andb_true_iff in H as [Hx1 Hx2].
  pose proof (within_360_finite _ Hx1 Hx2) as Hx.
  pose proof (within_360_finite _ Hy1 Hy2) as Hy.
  split; apply finite_not_nan; assumption.
Qed.

Lemma next_angles_within_360 (keys : Key -> bool) (speedX speedY : float)
    (rotation : float * float) :
  F32.is_finite speedX = true -> F32.is_finite speedY = true ->
  within_360 rotation = true ->
  within_360 (next_angles keys speedX speedY rotation) = true.
Proof.
  intros Hsx Hsy H. apply within_360_not_nan in H as [Hx Hy].
  unfold within_360, next_angles. cbn [fst snd].
  destruct (wrap_within (incremented keys GLFW_KEY_UP GLFW_KEY_DOWN speedX
                                     (fst rotation))) as [-> ->];
    [apply incremented_not_nan; assumption|].
  destruct (wrap_within (incremented keys GLFW_KEY_LEFT GLFW_KEY_RIGHT speedY
                                     (snd rotation))) as [-> ->];
    [apply incremented_not_nan; assumption|].
  reflexivity.
Qed.

Section Angles.

Variable E : Env.
Variables cubeShaderProgram VAO : GLuint.
Variables projection view : mat4.
Variables speedX speedY : float.
Hypothesis speedX_finite : F32.is_finite speedX = true.
Hypothesis speedY_finite : F32.is_finite speedY = true.

(** X17.  With finite speeds the bound on the angles is an invariant of the
    whole run, whatever keys are held and whatever events arrive: from
    angles between -360 and 360 (as the initial 0.0, 0.0 are) the angles
    are between -360 and 360 after any number of iterations, and so are
    the angles the loop ends with. *)
Theorem angles_stay_within_360_throughout (rotation : float * float) :
  within_360 rotation = true ->
  (forall (n : nat) (w : World),
      within_360
        (fst (frames E n cubeShaderProgram VAO projection view speedX speedY
                     rotation w)) = true) /\
  (forall (fuel : nat) (w : World) (rotation' : float * float),
      fst (render_loop E fuel cubeShaderProgram VAO projection view
                       speedX speedY rotation w) = Returned rotation' ->
      within_360 rotation' = true).
Proof.
  intros H. split.
  - intros n. revert rotation H.
    induction n as [|n IH]; intros rotation H w; [exact H|].
    cbn [frames]. rewrite bind_run.
    pose proof (frame_angles E cubeShaderProgram VAO projection view
                  speedX speedY rotation w) as Hangles.
    generalize dependent (frame E cubeShaderProgram VAO projection view
                                speedX speedY rotation w).
    intros out Hangles. apply IH. rewrite Hangles.
    apply next_angles_within_360; assumption.
  - intros fuel. revert rotation H.
    induction fuel as [|fuel IH]; intros rotation H w rotation';
      [discriminate|].
    rewrite render_loop_turn. cbv zeta.
    destruct (w_should_close w).
    + cbn [fst]. intros [= <-]. exact H.
    + pose proof (frame_angles E cubeShaderProgram VAO projection view
                    speedX speedY rotation
                    (log_more [Ev.glfwWindowShouldClose] w)) as Hangles.
      generalize dependent (frame E cubeShaderProgram VAO projection view
                                  speedX speedY rotation
                                  (log_more [Ev.glfwWindowShouldClose] w)).
      intros out Hangles. apply IH. rewrite Hangles.
      apply next_angles_within_360; assumption.
Qed.

End Angles.

Lemma angles_stay_within_360_throughout_witness :
  within_360
    (fst (frames Sample.env 400 7 8 (mat4_diag f1_0) (mat4_diag f1_0)
                 f1_0 f1_5 (f0_0, f0_0) (quiet_world no_keys))) = true.
Proof.
  apply (proj1 (angles_stay_within_360_throughout Sample.env 7 8
                  (mat4_diag f1_0) (mat4_diag f1_0) f1_0 f1_5
                  eq_refl eq_refl (f0_0, f0_0) eq_refl)).
Defined.
